(** * export_to_s3: the sanitize / cast / serialize pipeline and its orchestration

    A shallow embedding of [export_to_s3.py].  The functions of the script
    ([clean_dataframe], [cast_types], [export_to_ndjson], [subir_a_s3_json],
    [main]) are written out as Rocq functions over a model of the pandas
    frames they work on.  What the script delegates to pandas and to the
    Python runtime (how a float prints, how a string is parsed as a number or
    as a date) is gathered in the interfaces [Lib] and [Parsers]; the
    functions of the script are generic in them, and [RefLib] at the end of
    the definitions is an instance on which the examples are evaluated. *)

From Stdlib Require Import ZArith Lia.
From Stdlib Require DecimalFacts DecimalPos.
From stdpp Require Import prelude strings gmap.

Local Open Scope Z_scope.

(** ** Text

    A Python [str] is a sequence of code points. *)

Module Text.

Abbreviation text := (list N) (only parsing).

(** An ASCII literal as a text. *)
Definition txt (s : string) : text :=
  (fun a => Ascii.N_of_ascii a) <$> String.list_ascii_of_string s.
Arguments txt : simpl never.

(** A literal in which the apostrophe stands for the double quote. *)
Definition sq (s : string) : text :=
  (fun c => if N.eqb c 39 then 34%N else c) <$> txt s.

(** [str(z)] of a Python int. *)
Fixpoint of_uint (u : Decimal.uint) : text :=
  match u with
  | Decimal.Nil => []
  | Decimal.D0 u => 48%N :: of_uint u
  | Decimal.D1 u => 49%N :: of_uint u
  | Decimal.D2 u => 50%N :: of_uint u
  | Decimal.D3 u => 51%N :: of_uint u
  | Decimal.D4 u => 52%N :: of_uint u
  | Decimal.D5 u => 53%N :: of_uint u
  | Decimal.D6 u => 54%N :: of_uint u
  | Decimal.D7 u => 55%N :: of_uint u
  | Decimal.D8 u => 56%N :: of_uint u
  | Decimal.D9 u => 57%N :: of_uint u
  end.
Definition of_Z (z : Z) : text :=
  match Z.to_int z with
  | Decimal.Pos u => of_uint u
  | Decimal.Neg u => 45%N :: of_uint u
  end.

Definition digit (d : Z) : N := Z.to_N (48 + d mod 10).

(** [%02d] and [%04d]. *)
Definition pad2 (n : Z) : text := [digit (n / 10); digit n].
Definition pad4 (n : Z) : text :=
  [digit (n / 1000); digit (n / 100); digit (n / 10); digit n].

(** [%0kd] for a number of at most [k] digits. *)
Fixpoint padn (k : nat) (n : Z) : text :=
  match k with
  | O => []
  | S k' => padn k' (n / 10) ++ [digit n]
  end.

Definition is_digit (c : N) : bool := ((48 <=? c) && (c <=? 57))%N.

End Text.
Import Text.

(** ** pandas frames *)

Module Pandas.

(** A [Timestamp], by its fields. *)
Record timestamp := Timestamp {
    year : Z; month : Z; day : Z; hour : Z; minute : Z; second : Z; nano : Z
  }.

(** [strftime("%Y-%m-%d")] and [strftime("%Y-%m-%d %H:%M:%S")]. *)
Definition strftime_date (t : timestamp) : text :=
  pad4 (year t) ++ txt "-" ++ pad2 (month t) ++ txt "-" ++ pad2 (day t).
Definition strftime_datetime (t : timestamp) : text :=
  strftime_date t ++ txt " " ++ pad2 (hour t) ++ txt ":" ++ pad2 (minute t)
    ++ txt ":" ++ pad2 (second t).

(** [str(t)]: the fraction is written when there is one, in microseconds
    when that is exact. *)
Definition str_timestamp (t : timestamp) : text :=
  strftime_datetime t ++
  (if nano t =? 0 then []
   else if nano t mod 1000 =? 0 then txt "." ++ padn 6 (nano t / 1000)
   else txt "." ++ padn 9 (nano t)).

(** The calendar: the fields of a date and of a time of the day. *)
Definition leap (y : Z) : bool :=
  (y mod 4 =? 0) && (negb (y mod 100 =? 0) || (y mod 400 =? 0)).

Definition days_in_month (y m : Z) : Z :=
  if m =? 2 then (if leap y then 29 else 28)
  else if (m =? 4) || (m =? 6) || (m =? 9) || (m =? 11) then 30
  else 31.

Definition calendar (t : timestamp) : bool :=
  (1 <=? month t) && (month t <=? 12)
  && (1 <=? day t) && (day t <=? days_in_month (year t) (month t))
  && (0 <=? hour t) && (hour t <? 24)
  && (0 <=? minute t) && (minute t <? 60)
  && (0 <=? second t) && (second t <? 60)
  && (0 <=? nano t) && (nano t <? 1000000000).

(** Days since 1970-01-01 of a date. *)
Definition days_from_civil (y m d : Z) : Z :=
  let y := if m <=? 2 then y - 1 else y in
  let era := y / 400 in
  let yoe := y - era * 400 in
  let doy := (153 * (if 2 <? m then m - 3 else m + 9) + 2) / 5 + d - 1 in
  let doe := yoe * 365 + yoe / 4 - yoe / 100 + doy in
  era * 146097 + doe - 719468.

Definition ns_per_day : Z := 86400 * 1000000000.

(** The int64 a datetime64[ns] cell holds: nanoseconds since 1970. *)
Definition to_ns (t : timestamp) : Z :=
  days_from_civil (year t) (month t) (day t) * ns_per_day
  + ((hour t * 60 + minute t) * 60 + second t) * 1000000000 + nano t.

(** The instants a datetime64[ns] cell can hold, from
    1677-09-21 00:12:43.145224193 to 2262-04-11 23:47:16.854775807: the
    least int64 stands for NaT. *)
Definition in_range (t : timestamp) : bool :=
  (- 2 ^ 63 <? to_ns t) && (to_ns t <? 2 ^ 63).

(** A cell of a datetime64[ns] column that is not NaT. *)
Definition valid (t : timestamp) : bool :=
  calendar t && (1677 <=? year t) && (year t <=? 2262) && in_range t.

(** The instant cut to its day, and to its second. *)
Definition floor_day (t : timestamp) : timestamp :=
  Timestamp (year t) (month t) (day t) 0 0 0 0.
Definition floor_second (t : timestamp) : timestamp :=
  Timestamp (year t) (month t) (day t) (hour t) (minute t) (second t) 0.

(** Widths of the integer and float dtypes; [U64] is uint64, the dtype
    [to_numeric] gives a column that holds an integer from 2^63 on. *)
Inductive iwidth := I8 | I16 | I32 | I64 | U64.
Inductive fwidth := F32 | F64.

Definition ibits (w : iwidth) : Z :=
  match w with I8 => 8 | I16 => 16 | I32 => 32 | I64 | U64 => 64 end.
Definition fits (w : iwidth) (z : Z) : bool :=
  match w with
  | U64 => (0 <=? z) && (z <? 2 ^ 64)
  | _ => (- 2 ^ (ibits w - 1) <=? z) && (z <? 2 ^ (ibits w - 1))
  end.

(** A number read from a string: an int when the string is an integer
    literal, a float otherwise. *)
Inductive numlit (F : Type) :=
  | LitInt (z : Z)
  | LitFloat (x : F).
Arguments LitInt {F} z.
Arguments LitFloat {F} x.

(** What the script takes from the Python runtime and from pandas' scalar
    conversions. *)
Class Lib := {
  (** a Python float other than nan *)
  float : Type;
  (** a Python object that is none of [None], a float, a bool, an int or a
      str: a [datetime.date], a [Decimal], ... *)
  obj : Type;
  (** [float(z)] *)
  float_of_int : Z -> float;
  (** [str(x)] *)
  float_str : float -> text;
  (** what [json.dumps] writes for [x] *)
  float_json : float -> text;
  (** downcast="integer": the integer [x] is replaced by, when the rounded
      value is accepted as equal to [x] *)
  float_as_int : float -> option Z;
  (** downcast="float": the float32 value of [x], when it is accepted as
      close to [x] *)
  float_as_f32 : float -> option float;
  (** [str(numpy.float32(x))] *)
  float32_str : float -> text;
  (** [to_numeric] on one string: [None] when it is not a number (nan
      included) *)
  str_numeric : text -> option (numlit float);
  (** [str(o)] *)
  obj_str : obj -> text;
  (** [to_numeric] on one object: [float(o)] for a [Decimal], [None] when
      the object is not a number *)
  obj_numeric : obj -> option float;
  (** what [json.dumps] writes for [o]; [None] when it raises [TypeError] *)
  obj_json : obj -> option text;
}.

Section Frames.
Context `{L : Lib}.

(** A Python value held in a column of dtype object. *)
Inductive value :=
  | VNone
  | VNaN
  | VBool (b : bool)
  | VInt (z : Z)
  | VFloat (x : float)
  | VStr (s : text)
  | VTime (t : timestamp)
  | VNaT
  | VObj (o : obj).

(** A column (a Series) with its dtype.  In a float column [None] is NaN,
    in a datetime64 column [None] is NaT. *)
Inductive column :=
  | ColObject (l : list value)
  | ColBool (l : list bool)
  | ColInt (w : iwidth) (l : list Z)
  | ColFloat (w : fwidth) (l : list (option float))
  | ColDatetime (l : list (option timestamp)).

Definition col_length (c : column) : nat :=
  match c with
  | ColObject l => length l
  | ColBool l => length l
  | ColInt _ l => length l
  | ColFloat _ l => length l
  | ColDatetime l => length l
  end.

(** A frame: its columns in order, by label. *)
Definition DataFrame := list (text * column).

Definition columns (df : DataFrame) : list text := df.*1.

(** [len(df.index)]. *)
Definition nrows (df : DataFrame) : nat :=
  match df with [] => 0%nat | (_, c) :: _ => col_length c end.

(** [df.empty]: one of the axes has length 0. *)
Definition empty (df : DataFrame) : bool :=
  match df with [] => true | _ => Nat.eqb (nrows df) 0 end.

(** [df[name]], on a frame with distinct labels, as the frames [SELECT *]
    on one table gives are.  (Under a label that stands more than once
    [df[name]] is a frame, not a column, and [.str], [to_numeric] and
    [to_datetime] raise on it: the model follows the script on the frames
    with distinct labels.) *)
Fixpoint getitem (df : DataFrame) (name : text) : option column :=
  match df with
  | [] => None
  | (n, c) :: df' => if decide (n = name) then Some c else getitem df' name
  end.

(** [df[name] = c]: the column is replaced where it stands, a new label
    is appended. *)
Fixpoint setitem (df : DataFrame) (name : text) (c : column) : DataFrame :=
  match df with
  | [] => [(name, c)]
  | (n, c0) :: df' =>
      if decide (n = name) then (n, c) :: df' else (n, c0) :: setitem df' name c
  end.

(** [str(v)]. *)
Definition py_str (v : value) : text :=
  match v with
  | VNone => txt "None"
  | VNaN => txt "nan"
  | VBool true => txt "True"
  | VBool false => txt "False"
  | VInt z => of_Z z
  | VFloat x => float_str x
  | VStr s => s
  | VTime t => str_timestamp t
  | VNaT => txt "NaT"
  | VObj o => obj_str o
  end.

(** The values of a column as Python objects ([astype(object)]). *)
Definition opt_float (o : option float) : value :=
  match o with Some x => VFloat x | None => VNaN end.
Definition opt_time (o : option timestamp) : value :=
  match o with Some t => VTime t | None => VNaT end.

Definition values (c : column) : list value :=
  match c with
  | ColObject l => l
  | ColBool l => VBool <$> l
  | ColInt _ l => VInt <$> l
  | ColFloat _ l => opt_float <$> l
  | ColDatetime l => opt_time <$> l
  end.

(** [pd.isna]. *)
Definition isna (v : value) : bool :=
  match v with VNone | VNaN | VNaT => true | _ => false end.

(** [df.select_dtypes(include=["object", "bool"])]. *)
Definition is_object_or_bool (c : column) : bool :=
  match c with ColObject _ | ColBool _ => true | _ => false end.
Definition select_dtypes (df : DataFrame) : DataFrame :=
  filter (fun nc => is_object_or_bool nc.2 = true) df.

End Frames.

(** What the script takes from pandas' conversions of whole columns. *)
Class Parsers `{L : Lib} := {
  (** [pd.to_datetime(c, errors="coerce")]: the timestamps, NaT where a cell
      does not parse; [None] when the call raises *)
  to_datetime : column -> option (list (option timestamp));
  (** [astype(str)] of a datetime64 column *)
  datetime_astype_str : list (option timestamp) -> list text;
  (** the int64 view of a datetime64 cell: nanoseconds since the epoch *)
  datetime_ns : option timestamp -> Z;
}.

Section Conversions.
Context `{P : Parsers}.

(** [c.astype(str)]: the text of every cell. *)
Definition astype_str (c : column) : list text :=
  match c with
  | ColFloat F32 l =>
      (fun o => match o with Some x => float32_str x | None => txt "nan" end) <$> l
  | ColDatetime l => datetime_astype_str l
  | _ => py_str <$> values c
  end.

End Conversions.

End Pandas.
Import Pandas.

(** ** Sanitizer: [clean_dataframe] *)

Module Sanitizer.
Section Sanitizer.
Context `{P : Parsers}.

(** The first [.str.replace]: a carriage return, a line feed or a tab
    becomes one space. *)
Definition is_break (c : N) : bool :=
  (N.eqb c 13 || N.eqb c 10 || N.eqb c 9)%N.
Definition replace_breaks (s : text) : text :=
  (fun c => if is_break c then 32%N else c) <$> s.

(** The second [.str.replace]: every character outside U+0020..U+007E
    and the six letters of the pattern (a, e, i, o, u with an acute
    accent, n with a tilde) is removed. *)
Definition allowed (c : N) : bool :=
  ((32 <=? c) && (c <=? 126)
   || N.eqb c 225 || N.eqb c 233 || N.eqb c 237 || N.eqb c 243
   || N.eqb c 250 || N.eqb c 241)%N.
Definition remove_disallowed (s : text) : text :=
  filter (fun c => allowed c = true) s.

Definition clean_text (s : text) : text :=
  remove_disallowed (replace_breaks s).

(** [c.astype(str)], then the two replacements. *)
Definition clean_column (c : column) : column :=
  ColObject ((fun s => VStr (clean_text s)) <$> astype_str c).

(** One turn of the loop: [df[col] = df[col].astype(str)...]. *)
Definition clean_step (df : DataFrame) (col : text) : DataFrame :=
  match getitem df col with
  | Some c => setitem df col (clean_column c)
  | None => df
  end.

Definition clean_dataframe (df : DataFrame) : DataFrame :=
  foldl clean_step df (columns (select_dtypes df)).

(** What the loop makes of one column of a frame with distinct labels. *)
Definition clean_entry (nc : text * column) : text * column :=
  (nc.1, if is_object_or_bool nc.2 then clean_column nc.2 else nc.2).

End Sanitizer.
End Sanitizer.
Import Sanitizer.

(** ** TypeCaster: [cast_types] *)

Module Caster.
Section Caster.
Context `{P : Parsers}.

(** What [to_numeric] makes of one cell of an object column, with
    [errors="coerce"]. *)
Inductive number :=
  | NNull
  | NBool (b : bool)
  | NInt (z : Z)
  | NUInt (z : Z)
  | NFloat (x : float).

(** An integer: an int64 when it fits, a uint64 from 2^63 to 2^64 - 1, a
    float beyond. *)
Definition number_of_int (z : Z) : number :=
  if fits I64 z then NInt z
  else if fits U64 z then NUInt z
  else NFloat (float_of_int z).

Definition cell_numeric (v : value) : number :=
  match v with
  | VNone | VNaN | VNaT | VTime _ => NNull
  | VBool b => NBool b
  | VInt z => number_of_int z
  | VFloat x => NFloat x
  | VStr s =>
      match str_numeric s with
      | Some (LitInt z) => number_of_int z
      | Some (LitFloat x) => NFloat x
      | None => NNull
      end
  | VObj o =>
      match obj_numeric o with Some x => NFloat x | None => NNull end
  end.

Definition is_floating (n : number) : bool :=
  match n with NNull | NFloat _ => true | _ => false end.
Definition is_integer (n : number) : bool :=
  match n with NInt _ => true | _ => false end.
Definition is_unsigned (n : number) : bool :=
  match n with NUInt _ => true | _ => false end.
Definition is_negative (n : number) : bool :=
  match n with NInt z => z <? 0 | _ => false end.

Definition number_int (n : number) : Z :=
  match n with NInt z | NUInt z => z | NBool b => Z.b2z b | _ => 0 end.
Definition number_bool (n : number) : bool :=
  match n with NBool b => b | _ => false end.
Definition number_float (n : number) : option float :=
  match n with
  | NNull => None
  | NFloat x => Some x
  | n => Some (float_of_int (number_int n))
  end.

(** The dtype of the converted column: float64 once a null or a float
    was seen, or a uint64 together with a negative int; else uint64 once
    a uint64 was seen, else int64 once an int was seen, else bool. *)
Definition convert_numeric (l : list value) : column :=
  let ns := cell_numeric <$> l in
  if existsb is_floating ns || existsb is_unsigned ns && existsb is_negative ns
  then ColFloat F64 (number_float <$> ns)
  else if existsb is_unsigned ns then ColInt U64 (number_int <$> ns)
  else if existsb is_integer ns then ColInt I64 (number_int <$> ns)
  else match ns with
       | [] => ColInt I64 []
       | _ => ColBool (number_bool <$> ns)
       end.

Definition numeric_values (c : column) : column :=
  match c with
  | ColObject l => convert_numeric l
  | ColDatetime l => ColInt I64 (datetime_ns <$> l)
  | _ => c
  end.

(** The integer dtypes tried by the downcast, smallest first, none wider
    than the column. *)
Definition narrower (bits : Z) : list iwidth :=
  filter (fun w => ibits w <= bits) [I8; I16; I32; I64].

Definition smallest_fit (bits : Z) (l : list Z) : option iwidth :=
  List.find (fun w => forallb (fits w) l) (narrower bits).

Definition fbits (w : fwidth) : Z :=
  match w with F32 => 32 | F64 => 64 end.

(** [downcast="integer"] *)
Definition downcast_integer (c : column) : column :=
  match c with
  | ColInt w l =>
      match smallest_fit (ibits w) l with
      | Some w' => ColInt w' l
      | None => c
      end
  | ColFloat w l =>
      match mapM (fun o => o ≫= float_as_int) l with
      | Some zs =>
          match smallest_fit (fbits w) zs with
          | Some w' => ColInt w' zs
          | None => c
          end
      | None => c
      end
  | ColBool [] => ColInt I8 []
  | _ => c
  end.

(** [downcast="float"]: float32, then float64, are tried on a column
    whose items are as wide; a float32 column is taken when every cell is
    close to the cell it comes from, a float64 column of ints always is. *)
Definition downcast_float (c : column) : column :=
  match c with
  | ColFloat F64 l =>
      match mapM (fun o => match o with
                           | Some x => Some <$> float_as_f32 x
                           | None => Some None
                           end) l with
      | Some l' => ColFloat F32 l'
      | None => c
      end
  | ColInt w l =>
      if 32 <=? ibits w then
        match mapM (fun z => float_as_f32 (float_of_int z)) l with
        | Some l' => ColFloat F32 (Some <$> l')
        | None =>
            if 64 <=? ibits w
            then ColFloat F64 ((fun z => Some (float_of_int z)) <$> l)
            else c
        end
      else c
  | _ => c
  end.

(** [.dt.strftime(fmt)] of a datetime64 column: NaT gives NaN. *)
Definition strftime_cell (fmt : timestamp -> text) (o : option timestamp) : value :=
  match o with Some t => VStr (fmt t) | None => VNaN end.
Definition dt_strftime (fmt : timestamp -> text) (l : list (option timestamp)) : column :=
  ColObject (strftime_cell fmt <$> l).

(** The body of the loop for one declared type; [None] when the
    conversion raises. *)
Definition cast_column (typ : text) (c : column) : option column :=
  if decide (typ = txt "bigint") then Some (downcast_integer (numeric_values c))
  else if decide (typ = txt "double") then Some (downcast_float (numeric_values c))
  else if decide (typ = txt "int") then Some (downcast_integer (numeric_values c))
  else if decide (typ = txt "date") then dt_strftime strftime_date <$> to_datetime c
  else if decide (typ = txt "timestamp") then
    dt_strftime strftime_datetime <$> to_datetime c
  else Some (ColObject (VStr <$> astype_str c)).

(** A schema: the declared columns, [(Name, Type)], in order. *)
Definition schema := list (text * text).

Definition cast_step (df : DataFrame) (col : text * text) : option DataFrame :=
  match getitem df col.1 with
  | None => Some df
  | Some c => c' ← cast_column col.2 c; Some (setitem df col.1 c')
  end.

Fixpoint cast_types (df : DataFrame) (s : schema) : option DataFrame :=
  match s with
  | [] => Some df
  | col :: s' => df' ← cast_step df col; cast_types df' s'
  end.

(** The dtypes [to_numeric] leaves as they are. *)
Definition numeric (c : column) : Prop :=
  match c with ColObject _ | ColDatetime _ => False | _ => True end.

(** The type a schema declares for a label: its first entry under it. *)
Fixpoint declared (s : schema) (name : text) : option text :=
  match s with
  | [] => None
  | (n, typ) :: s' => if decide (n = name) then Some typ else declared s' name
  end.

(** What the loop makes of one column, under a schema without repeated
    labels. *)
Definition cast_entry (s : schema) (nc : text * column) : option (text * column) :=
  match declared s nc.1 with
  | Some typ => c' ← cast_column typ nc.2; Some (nc.1, c')
  | None => Some nc
  end.

(** Two facts of [to_datetime] that the script relies on when it is given
    its own output.  The cells of the datetime64[ns] column it returns are
    instants of the calendar in the range of the dtype. *)
Definition datetime_valid : Prop :=
  forall c l, to_datetime c = Some l ->
    Forall (fun o => forall t, o = Some t -> valid t = true) l.

(** And it reads ISO 8601: on a column that holds, for instants of the
    dtype, the strings [YYYY-MM-DD] (or [YYYY-MM-DD HH:MM:SS]) that [fmt]
    writes, and NaN, it gives cell by cell the instant that is written ([floor]
    of the instant) or, when that is not in the range of the dtype, NaT; and
    NaT for NaN. *)
Definition read_iso (floor : timestamp -> timestamp) (o : option timestamp) :
    option timestamp :=
  t ← o; if in_range (floor t) then Some (floor t) else None.
Definition reads_iso (fmt : timestamp -> text) (floor : timestamp -> timestamp) : Prop :=
  forall l : list (option timestamp),
    Forall (fun o => forall t, o = Some t -> valid t = true) l ->
    to_datetime (dt_strftime fmt l) = Some (read_iso floor <$> l).

(** The instants the cast writes for the columns declared date and timestamp
    are in the range of the dtype.  (An instant of 1677-09-21, the day on which
    the range begins at 00:12:43.145224193, is written [1677-09-21], the
    midnight before; and an instant of the first second of the range is
    written with that second.) *)
Definition floors_in_range (df : DataFrame) (s : schema) : Prop :=
  forall name c l t,
    getitem df name = Some c -> to_datetime c = Some l -> Some t ∈ l ->
    (declared s name = Some (txt "date") -> in_range (floor_day t) = true)
    /\ (declared s name = Some (txt "timestamp") ->
        in_range (floor_second t) = true).

End Caster.
End Caster.
Import Caster.

(** ** Serializer: [export_to_ndjson] *)

Module Serializer.
Section Serializer.
Context `{L : Lib}.

(** The dtype of the rows [df.iterrows()] yields: the common dtype of the
    columns.  Ints and floats meet in float, and so do int64 and uint64;
    everything else that differs meets in object. *)
Inductive kind := KObject | KBool | KInt | KUInt | KFloat | KDatetime.

Definition kind_of (c : column) : kind :=
  match c with
  | ColObject _ => KObject
  | ColBool _ => KBool
  | ColInt U64 _ => KUInt
  | ColInt _ _ => KInt
  | ColFloat _ _ => KFloat
  | ColDatetime _ => KDatetime
  end.

Definition common (k1 k2 : kind) : kind :=
  match k1, k2 with
  | KBool, KBool => KBool
  | KInt, KInt => KInt
  | KUInt, KUInt => KUInt
  | KUInt, KInt | KInt, KUInt => KFloat
  | KFloat, (KFloat | KInt | KUInt) | (KInt | KUInt), KFloat => KFloat
  | KDatetime, KDatetime => KDatetime
  | _, _ => KObject
  end.

Definition row_kind (df : DataFrame) : kind :=
  match df with
  | [] => KObject
  | (_, c) :: df' => foldl (fun k nc => common k (kind_of nc.2)) (kind_of c) df'
  end.

(** The cells of a column as they appear in a row of dtype [k]. *)
Definition as_float (v : value) : value :=
  match v with VInt z => VFloat (float_of_int z) | v => v end.
Definition cells (k : kind) (c : column) : list value :=
  match k with
  | KFloat => as_float <$> values c
  | _ => values c
  end.

(** [df.iterrows()]: row [i] pairs every label with the cell of its
    column. *)
Definition row (df : DataFrame) (i : nat) : list (text * value) :=
  (fun nc => (nc.1, default VNone (cells (row_kind df) nc.2 !! i))) <$> df.
Definition iterrows (df : DataFrame) : list (list (text * value)) :=
  row df <$> seq 0 (nrows df).

(** [row.to_dict()]: a later cell under a label already seen replaces the
    earlier one. *)
Fixpoint dict_set (d : list (text * value)) (k : text) (v : value) :=
  match d with
  | [] => [(k, v)]
  | (k0, v0) :: d' =>
      if decide (k0 = k) then (k0, v) :: d' else (k0, v0) :: dict_set d' k v
  end.
Definition to_dict (r : list (text * value)) : list (text * value) :=
  foldl (fun d kv => dict_set d kv.1 kv.2) [] r.

(** ** [json.dumps(d, ensure_ascii=False)] *)

Definition hex_digit (d : Z) : N :=
  Z.to_N (if d mod 16 <? 10 then 48 + d mod 16 else 87 + d mod 16).

(** One character of a string: the quote, the backslash and the control
    characters are escaped, everything else is written as it is. *)
Definition escape (c : N) : text :=
  if N.eqb c 34 then txt "\" ++ [34%N]
  else if N.eqb c 92 then txt "\\"
  else if N.eqb c 10 then txt "\n"
  else if N.eqb c 13 then txt "\r"
  else if N.eqb c 9 then txt "\t"
  else if N.eqb c 8 then txt "\b"
  else if N.eqb c 12 then txt "\f"
  else if (c <? 32)%N then
    txt "\u00" ++ [hex_digit (Z.of_N c / 16); hex_digit (Z.of_N c)]
  else [c].

Definition dumps_str (s : text) : text :=
  [34%N] ++ mjoin (escape <$> s) ++ [34%N].

(** A value; [None] when the encoder raises [TypeError]. *)
Definition dumps_value (v : value) : option text :=
  match v with
  | VNone => Some (txt "null")
  | VNaN => Some (txt "NaN")
  | VBool true => Some (txt "true")
  | VBool false => Some (txt "false")
  | VInt z => Some (of_Z z)
  | VFloat x => Some (float_json x)
  | VStr s => Some (dumps_str s)
  | VTime _ | VNaT => None
  | VObj o => obj_json o
  end.

Definition dumps_item (kv : text * value) : option text :=
  v ← dumps_value kv.2; Some (dumps_str kv.1 ++ txt ": " ++ v).

Fixpoint join (sep : text) (l : list text) : text :=
  match l with
  | [] => []
  | [x] => x
  | x :: l' => x ++ sep ++ join sep l'
  end.

Definition dumps (d : list (text * value)) : option text :=
  items ← mapM dumps_item d; Some (txt "{" ++ join (txt ", ") items ++ txt "}").

(** The values JSON has a rendering for: null, the booleans, the ints and
    the strings. *)
Definition plain (v : value) : Prop :=
  match v with
  | VNone | VBool _ | VInt _ | VStr _ => True
  | _ => False
  end.

(** The loop of [export_to_ndjson] over the rows: the text written so far,
    and whether the loop ran to its end ([false]: [json.dumps] raised). *)
Fixpoint write_rows (rows : list (list (text * value))) (out : text) : text * bool :=
  match rows with
  | [] => (out, true)
  | r :: rows' =>
      match dumps (to_dict r) with
      | Some line => write_rows rows' (out ++ line ++ [10%N])
      | None => (out, false)
      end
  end.

(** The file is opened for writing, which empties it. *)
Definition export_to_ndjson (df : DataFrame) : text * bool :=
  write_rows (iterrows df) [].

End Serializer.
End Serializer.
Import Serializer.

(** ** JSON texts (RFC 8259)

    A recogniser, to say which lines are well-formed.  Every function returns
    the input left after what it recognised. *)

Module Json.

Definition is_ws (c : N) : bool :=
  (N.eqb c 32 || N.eqb c 9 || N.eqb c 10 || N.eqb c 13)%N.

Fixpoint skip_ws (s : text) : text :=
  match s with
  | c :: s' => if is_ws c then skip_ws s' else s
  | [] => []
  end.

Fixpoint literal (lit s : text) : option text :=
  match lit, s with
  | [], _ => Some s
  | a :: lit', b :: s' => if N.eqb a b then literal lit' s' else None
  | _ :: _, [] => None
  end.

Definition is_hex (c : N) : bool :=
  (is_digit c || (65 <=? c) && (c <=? 70) || (97 <=? c) && (c <=? 102))%N.

Definition is_escape (c : N) : bool :=
  (N.eqb c 34 || N.eqb c 92 || N.eqb c 47 || N.eqb c 98 || N.eqb c 102
   || N.eqb c 110 || N.eqb c 114 || N.eqb c 116)%N.

(** The characters of a string after its opening quote, up to and
    including the closing one. *)
Fixpoint string_body (s : text) : option text :=
  match s with
  | [] => None
  | c :: s' =>
      if N.eqb c 34 then Some s'
      else if N.eqb c 92 then
        match s' with
        | e :: s'' =>
            if is_escape e then string_body s''
            else if N.eqb e 117 then
              match s'' with
              | h1 :: h2 :: h3 :: h4 :: r =>
                  if is_hex h1 && is_hex h2 && is_hex h3 && is_hex h4
                  then string_body r
                  else None
              | _ => None
              end
            else None
        | [] => None
        end
      else if (c <? 32)%N then None
      else string_body s'
  end.

Fixpoint skip_digits (s : text) : text :=
  match s with
  | c :: s' => if is_digit c then skip_digits s' else s
  | [] => []
  end.

(** One digit at least. *)
Definition digits (s : text) : option text :=
  match s with
  | c :: s' => if is_digit c then Some (skip_digits s') else None
  | [] => None
  end.

Definition number (s : text) : option text :=
  let s := match s with c :: s' => if N.eqb c 45 then s' else s | [] => s end in
  r ← match s with
      | c :: s' => if N.eqb c 48 then Some s' else digits s
      | [] => None
      end;
  r ← match r with
      | c :: r' => if N.eqb c 46 then digits r' else Some r
      | [] => Some r
      end;
  match r with
  | c :: r' =>
      if N.eqb c 101 || N.eqb c 69 then
        match r' with
        | d :: r'' => if N.eqb d 43 || N.eqb d 45 then digits r'' else digits r'
        | [] => None
        end
      else Some r
  | [] => Some r
  end.

(** [value] reads a value at the head of the input; [members] reads the
    members of an object from its first name on, up to the closing brace;
    [elements] the elements of an array up to the closing bracket. *)
Fixpoint value (fuel : nat) (s : text) : option text :=
  match fuel with
  | O => None
  | S fuel =>
      match s with
      | [] => None
      | c :: r =>
          if N.eqb c 123 then
            match skip_ws r with
            | c' :: r' => if N.eqb c' 125 then Some r' else members fuel (c' :: r')
            | [] => None
            end
          else if N.eqb c 91 then
            match skip_ws r with
            | c' :: r' => if N.eqb c' 93 then Some r' else elements fuel (c' :: r')
            | [] => None
            end
          else if N.eqb c 34 then string_body r
          else if N.eqb c 116 then literal (txt "true") s
          else if N.eqb c 102 then literal (txt "false") s
          else if N.eqb c 110 then literal (txt "null") s
          else number s
      end
  end
with members (fuel : nat) (s : text) : option text :=
  match fuel with
  | O => None
  | S fuel =>
      match s with
      | c :: r =>
          if N.eqb c 34 then
            r ← string_body r;
            match skip_ws r with
            | c' :: r' =>
                if N.eqb c' 58 then
                  r ← value fuel (skip_ws r');
                  match skip_ws r with
                  | c'' :: r'' =>
                      if N.eqb c'' 44 then members fuel (skip_ws r'')
                      else if N.eqb c'' 125 then Some r''
                      else None
                  | [] => None
                  end
                else None
            | [] => None
            end
          else None
      | [] => None
      end
  end
with elements (fuel : nat) (s : text) : option text :=
  match fuel with
  | O => None
  | S fuel =>
      r ← value fuel s;
      match skip_ws r with
      | c :: r' =>
          if N.eqb c 44 then elements fuel (skip_ws r')
          else if N.eqb c 93 then Some r'
          else None
      | [] => None
      end
  end.

(** What follows a member of an object: a comma or the closing brace. *)
Definition closes (rest : text) : Prop :=
  exists rest', rest = 44%N :: rest' \/ rest = 125%N :: rest'.

(** A text that is one JSON object and nothing else.  Of two nested calls of
    the recogniser one at least consumes a character, so twice the length of
    the text is fuel enough. *)
Definition is_object (s : text) : bool :=
  match s with
  | c :: _ =>
      N.eqb c 123 &&
      match value (2 * length s + 2) s with Some [] => true | _ => false end
  | [] => false
  end.

End Json.

(** ** The run: [limpiar_bucket], [subir_a_s3_json], [main] *)

Module Orchestrator.

(** The two dictionaries of the script. *)
Record Config := {
    TABLES : list (text * text);
    SCHEMAS : list (text * schema);
  }.

(** [d[k]] and [d.get(k, default)] on a dictionary. *)
Fixpoint lookup_dict {A} (d : list (text * A)) (k : text) : option A :=
  match d with
  | [] => None
  | (k0, a) :: d' => if decide (k0 = k) then Some a else lookup_dict d' k
  end.

Definition config : Config := {|
    TABLES := [ (txt "dashboard_data", txt "dashboard_data/");
                (txt "dashboard_published_data", txt "dashboard_published_data/") ];
    SCHEMAS := [
      (txt "dashboard_data",
        [ (txt "id", txt "bigint");
          (txt "admin_id", txt "bigint");
          (txt "date_posted", txt "date");
          (txt "engagement", txt "double");
          (txt "likes", txt "int");
          (txt "post_id", txt "string");
          (txt "posturl", txt "string");
          (txt "used_hash_tag", txt "string");
          (txt "username_tiktok_account", txt "string");
          (txt "views", txt "int");
          (txt "publication_id", txt "bigint") ]);
      (txt "dashboard_published_data",
        [ (txt "id", txt "bigint") ]) ];
  |}.

(** What is seen of a run: the calls made and the status lines printed. *)
Inductive event :=
  | Fetch (table : text)
  | Clean (table : text)
  | Cast (table : text)
  | Export (file : text)
  | Upload (file key : text)
  | Remove (file : text)
  | Delete (key : text)
  | SayClearing
  | SayCleared
  | SayNothingToClear
  | SayClearError
  | SayExporting (table : text)
  | SayUploaded (key : text)
  | SayUploadError
  | SayEmpty (table : text)
  | SayTableError (table : text).

(** The local directory, the bucket (its objects in listing order) and the
    trace. *)
Record World := {
    files : gmap text text;
    bucket : list (text * text);
    trace : list event;
  }.

(** A computation that may raise: the world it leaves, and its result when
    it returns. *)
Definition M (A : Type) := World -> World * option A.

Definition ret {A} (a : A) : M A := fun w => (w, Some a).
Definition raise {A} : M A := fun w => (w, None).
Definition bind {A B} (m : M A) (k : A -> M B) : M B :=
  fun w => match m w with
           | (w', Some a) => k a w'
           | (w', None) => (w', None)
           end.
(** [try: m  except Exception: h] *)
Definition try {A} (m : M A) (h : M A) : M A :=
  fun w => match m w with
           | (w', Some a) => (w', Some a)
           | (w', None) => h w'
           end.

Declare Scope run_scope.
Delimit Scope run_scope with run.
Notation "x <- m ;; k" := (bind m (fun x => k))
  (at level 100, m at next level, right associativity) : run_scope.
Notation "m ;; k" := (bind m (fun _ => k))
  (at level 100, right associativity) : run_scope.
Local Open Scope run_scope.

Definition emit (e : event) : M unit :=
  fun w => ({| files := files w; bucket := bucket w; trace := trace w ++ [e] |}, Some tt).
Definition lift {A} (o : option A) : M A :=
  match o with Some a => ret a | None => raise end.
Definition guard (ok : bool) : M unit := if ok then ret tt else raise.

(** The computations of the script leave what the trace held and add to
    it. *)
Definition appends {A} (m : M A) : Prop :=
  forall w, exists evs, trace (m w).1 = trace w ++ evs.

(** A computation that never raises. *)
Definition returns {A} (m : M A) : Prop :=
  forall w, exists w' a, m w = (w', Some a).

Section Run.
Context `{P : Parsers}.

(** What a run meets outside the script: the tables of the database, the
    clock, and the calls to the storage service that fail. *)
Record Env := {
    (** [pd.read_sql] on a table; [None] when the query raises *)
    read_sql : text -> option DataFrame;
    (** [datetime.now()] when a table is published *)
    now : text -> timestamp;
    (** [boto3.client] returns, in [limpiar_bucket] and when a table is
        published *)
    client_clear : bool;
    client_publish : text -> bool;
    (** [list_objects_v2], [delete_object] and [upload_file] return *)
    list_objects_ok : bool;
    delete_object_ok : text -> bool;
    upload_file_ok : text -> bool;
  }.

Variable cfg : Config.
Variable env : Env.

(** [obtener_datos_tabla] *)
Definition obtener_datos_tabla (table : text) : M DataFrame :=
  emit (Fetch table);; lift (read_sql env table).

(** [open(filename, "w")] and the writes: the file holds what was written
    also when the loop raises. *)
Definition write_file (filename : text) (df : DataFrame) : M unit :=
  emit (Export filename);;
  fun w =>
    let '(body, ok) := export_to_ndjson df in
    ({| files := <[filename := body]> (files w); bucket := bucket w;
        trace := trace w |},
     if ok then Some tt else None).

(** [os.remove] *)
Definition os_remove (filename : text) : M unit :=
  emit (Remove filename);;
  fun w =>
    match files w !! filename with
    | Some _ => ({| files := delete filename (files w); bucket := bucket w;
                    trace := trace w |}, Some tt)
    | None => (w, None)
    end.

(** [key.endswith(suffix)] *)
Definition endswith (key suffix : text) : bool :=
  bool_decide (drop (length key - length suffix) key = suffix).

(** The bucket as a dictionary from keys to bodies. *)
Fixpoint put_object (b : list (text * text)) (key body : text) :=
  match b with
  | [] => [(key, body)]
  | (k, x) :: b' =>
      if decide (k = key) then (k, body) :: b' else (k, x) :: put_object b' key body
  end.
Definition delete_object (key : text) : M unit :=
  emit (Delete key);;
  guard (delete_object_ok env key);;
  fun w => ({| files := files w;
               bucket := filter (fun kb => kb.1 <> key) (bucket w);
               trace := trace w |}, Some tt).

(** [s3.upload_file]: raises when the service does, or when the local file
    is not there. *)
Definition upload_file (filename key : text) : M unit :=
  emit (Upload filename key);;
  guard (upload_file_ok env key);;
  fun w =>
    match files w !! filename with
    | Some body => ({| files := files w;
                       bucket := put_object (bucket w) key body;
                       trace := trace w |}, Some tt)
    | None => (w, None)
    end.

(** [list_objects_v2]: one page, of at most 1000 objects. *)
Definition list_objects : M (list text) :=
  guard (list_objects_ok env);;
  fun w => (w, Some (take 1000 (bucket w).*1)).

Fixpoint delete_json (keys : list text) : M unit :=
  match keys with
  | [] => ret tt
  | key :: keys' =>
      (if endswith key (txt ".json") then delete_object key else ret tt);;
      delete_json keys'
  end.

(** [limpiar_bucket] *)
Definition limpiar_bucket : M unit :=
  emit SayClearing;;
  try (guard (client_clear env);;
       contents <- list_objects;;
       match contents with
       | [] => emit SayNothingToClear
       | _ => delete_json contents;; emit SayCleared
       end)
      (emit SayClearError).

(** [strftime("%Y%m%d_%H%M%S")] *)
Definition strftime_compact (t : timestamp) : text :=
  pad4 (year t) ++ pad2 (month t) ++ pad2 (day t) ++ txt "_"
    ++ pad2 (hour t) ++ pad2 (minute t) ++ pad2 (second t).

(** The key of the f-string in [subir_a_s3_json]; [TABLES[table_name]]
    raises [KeyError] on a table that is not declared. *)
Definition s3_key (table_name : text) (t : timestamp) : option text :=
  folder ← lookup_dict (TABLES cfg) table_name;
  Some (folder ++ table_name ++ txt "_" ++ strftime_compact t ++ txt ".json").

(** [subir_a_s3_json]: the client and the key are made before the [try]. *)
Definition subir_a_s3_json (filename table_name : text) : M unit :=
  guard (client_publish env table_name);;
  key <- lift (s3_key table_name (now env table_name));;
  try (upload_file filename key;; emit (SayUploaded key))
      (emit SayUploadError).

(** The body of the loop of [main] for one table. *)
Definition export_table (table : text) : M unit :=
  try (emit (SayExporting table);;
       df <- obtener_datos_tabla table;;
       if negb (empty df) then
         emit (Clean table);;
         let df := clean_dataframe df in
         emit (Cast table);;
         df <- lift (cast_types df (default [] (lookup_dict (SCHEMAS cfg) table)));;
         let filename := table ++ txt ".json" in
         write_file filename df;;
         subir_a_s3_json filename table;;
         os_remove filename
       else emit (SayEmpty table))
      (emit (SayTableError table)).

Fixpoint export_tables (tables : list (text * text)) : M unit :=
  match tables with
  | [] => ret tt
  | (table, _) :: tables' => export_table table;; export_tables tables'
  end.

(** [main] *)
Definition main : M unit :=
  limpiar_bucket;; export_tables (TABLES cfg).

(** What the turn of the loop for a table adds to the trace: the events
    of that turn from a world where nothing has happened yet. *)
Definition nothing : World := {| files := ∅; bucket := []; trace := [] |}.

End Run.

End Orchestrator.

(** ** The frame as a shared object

    [clean_dataframe] and [cast_types] assign to the columns of the frame they
    are given and return that frame.  Here a frame is an object of a heap and
    a variable holds a reference to it. *)

Module InPlace.
Abbreviation ref := nat (only parsing).
Abbreviation heap := (gmap nat DataFrame) (only parsing).

Section InPlace.
Context `{P : Parsers}.


(** [df[col] = c] on the object [df] refers to. *)
Definition store (h : heap) (df : ref) (col : text) (c : column) : heap :=
  match h !! df with
  | Some d => <[df := setitem d col c]> h
  | None => h
  end.

(** [df[col]] *)
Definition load (h : heap) (df : ref) (col : text) : option column :=
  d ← h !! df; getitem d col.

Definition clean_step (df : ref) (h : heap) (col : text) : heap :=
  match load h df col with
  | Some c => store h df col (clean_column c)
  | None => h
  end.

(** The labels of the loop are taken before its first turn. *)
Definition clean_dataframe (h : heap) (df : ref) : heap * ref :=
  let cols := columns (select_dtypes (default [] (h !! df))) in
  (foldl (clean_step df) h cols, df).

(** When a conversion raises the columns already assigned stay assigned. *)
Fixpoint cast_types (h : heap) (df : ref) (s : schema) : heap * option ref :=
  match s with
  | [] => (h, Some df)
  | col :: s' =>
      match load h df col.1 with
      | None => cast_types h df s'
      | Some c =>
          match cast_column col.2 c with
          | Some c' => cast_types (store h df col.1 c') df s'
          | None => (h, None)
          end
      end
  end.

End InPlace.
End InPlace.

(** ** A reference library

    An instance of [Lib] and [Parsers] to evaluate the script on, after
    pandas 2.  It covers the floats with an integral value below 2^53 (a float
    is its value), the strings that are decimal literals of such values, and
    the dates and times written [YYYY-MM-DD], [YYYY-MM-DD HH:MM:SS] or
    [YYYY-MM-DDTHH:MM:SS]; an object is a [datetime.date], held by its ISO
    text. *)

Module RefLib.

(** [repr] of a float with an integral value. *)
Definition float_text (z : Z) : text := of_Z z ++ txt ".0".

(** The integers a float32 holds exactly. *)
Definition f32_exact (z : Z) : bool :=
  let a := Z.abs z in
  (a <? 2 ^ 24) || (a mod 2 ^ (Z.log2 a - 23) =? 0).

Definition dval (c : N) : Z := Z.of_N c - 48.

Fixpoint digits_value (acc : Z) (s : text) : option Z :=
  match s with
  | [] => Some acc
  | c :: s' => if is_digit c then digits_value (10 * acc + dval c) s' else None
  end.

Definition unsigned_literal (s : text) : option Z :=
  match s with [] => None | _ => digits_value 0 s end.

(** White space around a literal is skipped. *)
Definition is_space (c : N) : bool :=
  (N.eqb c 32 || (9 <=? c) && (c <=? 13))%N.
Fixpoint lstrip (s : text) : text :=
  match s with
  | c :: s' => if is_space c then lstrip s' else s
  | [] => []
  end.
Definition strip (s : text) : text := reverse (lstrip (reverse (lstrip s))).

(** The digits a text starts with, and what follows them. *)
Fixpoint span_digits (s : text) : text * text :=
  match s with
  | c :: s' =>
      if is_digit c then let '(ds, rest) := span_digits s' in (c :: ds, rest)
      else ([], s)
  | [] => ([], [])
  end.

(** The exponent of a literal, after its [e]: digits with or without a
    sign. *)
Definition exponent (s : text) : option Z :=
  match s with
  | [] => None
  | c :: s' =>
      if N.eqb c 45 then Z.opp <$> unsigned_literal s'
      else if N.eqb c 43 then unsigned_literal s'
      else unsigned_literal s
  end.

(** The float [m * 10 ^ k], when it is one of the floats covered. *)
Definition scaled (m k : Z) : option (numlit Z) :=
  let x := if 0 <=? k then Some (m * 10 ^ k)
           else if m mod 10 ^ (- k) =? 0 then Some (m / 10 ^ (- k)) else None in
  x ≫= fun x => if x <? 2 ^ 53 then Some (LitFloat x) else None.

(** Digits, then a point and digits or not, then an exponent or not: an
    int when there are digits only, a float otherwise. *)
Definition unsigned_number (s : text) : option (numlit Z) :=
  let '(whole, rest) := span_digits s in
  let '(point, frac, rest) :=
    match rest with
    | c :: rest' =>
        if N.eqb c 46 then let '(frac, rest'') := span_digits rest' in
                           (true, frac, rest'')
        else (false, [], rest)
    | [] => (false, [], [])
    end in
  m ← unsigned_literal (whole ++ frac);
  match rest with
  | [] => if point then scaled m (- Z.of_nat (length frac)) else Some (LitInt m)
  | c :: rest' =>
      if N.eqb c 101 || N.eqb c 69 then
        e ← exponent rest'; scaled m (e - Z.of_nat (length frac))
      else None
  end.

Definition negate (n : numlit Z) : numlit Z :=
  match n with LitInt z => LitInt (- z) | LitFloat x => LitFloat (- x) end.

Definition number_literal (s : text) : option (numlit Z) :=
  match strip s with
  | [] => None
  | c :: s' =>
      if N.eqb c 45 then negate <$> unsigned_number s'
      else if N.eqb c 43 then unsigned_number s'
      else unsigned_number (c :: s')
  end.

Definition lib : Lib := {|
    float := Z;
    obj := text;
    float_of_int z := z;
    float_str := float_text;
    float_json := float_text;
    float_as_int z := Some z;
    float_as_f32 z := if f32_exact z then Some z else None;
    float32_str := float_text;
    str_numeric := number_literal;
    obj_str o := o;
    obj_numeric _ := None;
    obj_json _ := None;
  |}.
#[local] Existing Instance lib.

(** *** Dates *)

Definition checked (t : timestamp) : option timestamp :=
  if valid t then Some t else None.

Definition num2 (a b : N) : option Z :=
  if is_digit a && is_digit b then Some (10 * dval a + dval b) else None.
Definition num4 (a b c d : N) : option Z :=
  if is_digit a && is_digit b && is_digit c && is_digit d
  then Some (1000 * dval a + 100 * dval b + 10 * dval c + dval d) else None.

(** The formats read: [%Y-%m-%d], and [%Y-%m-%d %H:%M:%S] with a space or a
    [T] between the date and the time. *)
Inductive format := IsoDate | IsoDateTime (sep : N).

#[global] Instance format_eq_dec : EqDecision format.
Proof. solve_decision. Defined.

Definition date_fields (s : text) : option (Z * Z * Z) :=
  match s with
  | [y3; y2; y1; y0; d1; m1; m0; d2; a1; a0] =>
      if N.eqb d1 45 && N.eqb d2 45 then
        y ← num4 y3 y2 y1 y0; m ← num2 m1 m0; d ← num2 a1 a0; Some (y, m, d)
      else None
  | _ => None
  end.

Definition time_fields (s : text) : option (Z * Z * Z) :=
  match s with
  | [h1; h0; c1; m1; m0; c2; s1; s0] =>
      if N.eqb c1 58 && N.eqb c2 58 then
        h ← num2 h1 h0; m ← num2 m1 m0; s ← num2 s1 s0; Some (h, m, s)
      else None
  | _ => None
  end.

(** The format a string is written in and the fields it holds. *)
Definition parse_iso (s : text) : option (format * timestamp) :=
  '(y, m, d) ← date_fields (take 10 s);
  match drop 10 s with
  | [] => Some (IsoDate, Timestamp y m d 0 0 0 0)
  | sep :: time =>
      if N.eqb sep 32 || N.eqb sep 84 then
        '(hh, mm, ss) ← time_fields time;
        Some (IsoDateTime sep, Timestamp y m d hh mm ss 0)
      else None
  end.

(** [guess_datetime_format]: the format of a string that holds a date. *)
Definition guess_format (s : text) : option format :=
  '(f, t) ← parse_iso s;
  if calendar t && (1 <=? year t) then Some f else None.

(** One string, under the format guessed ([Some f]: a string in another
    format does not match) or by itself; a date that is not of the calendar or
    not in the range of the dtype is coerced. *)
Definition matches (f : option format) (f' : format) : bool :=
  match f with Some f => bool_decide (f = f') | None => true end.
Definition read_string (f : option format) (s : text) : option timestamp :=
  '(f', t) ← parse_iso s;
  if matches f f' then checked t else None.

(** Days since 1970-01-01 to a date. *)
Definition civil_from_days (z : Z) : Z * Z * Z :=
  let z := z + 719468 in
  let era := z / 146097 in
  let doe := z - era * 146097 in
  let yoe := (doe - doe / 1460 + doe / 36524 - doe / 146096) / 365 in
  let doy := doe - (365 * yoe + yoe / 4 - yoe / 100) in
  let mp := (5 * doy + 2) / 153 in
  let d := doy - (153 * mp + 2) / 5 + 1 in
  let m := if mp <? 10 then mp + 3 else mp - 9 in
  (if m <=? 2 then yoe + era * 400 + 1 else yoe + era * 400, m, d).

(** A number is read as nanoseconds since 1970. *)
Definition of_ns (n : Z) : option timestamp :=
  let '(y, m, d) := civil_from_days (n / ns_per_day) in
  let r := n mod ns_per_day in
  let s := r / 1000000000 in
  checked (Timestamp y m d (s / 3600) (s / 60 mod 60) (s mod 60) (r mod 1000000000)).

(** The cells that stand for no date: the nulls, the empty string and the
    strings [NaT] and [nan]. *)
Definition is_nat_string (s : text) : bool :=
  bool_decide (s ∈ [ []; txt "NaT"; txt "nat"; txt "NAT";
                     txt "nan"; txt "NaN"; txt "NAN" ]).
Definition is_null (v : value) : bool :=
  match v with
  | VNone | VNaN | VNaT => true
  | VStr s => is_nat_string s
  | _ => false
  end.

(** The format of the column is guessed from its first cell that is not
    null, when that is a string. *)
Definition guess (l : list value) : option format :=
  match List.find (fun v => negb (is_null v)) l with
  | Some (VStr s) => guess_format s
  | _ => None
  end.

(** One cell under the format guessed: what is not a date is read by its
    [str], which does not match. *)
Definition cell_strptime (f : format) (v : value) : option timestamp :=
  match v with
  | VStr s => read_string (Some f) s
  | VObj o => read_string (Some IsoDate) o
  | VTime t => checked t
  | _ => None
  end.

(** One cell by itself, when no format was guessed; a bool is coerced. *)
Definition cell_datetime (v : value) : option timestamp :=
  match v with
  | VNone | VNaN | VNaT | VBool _ => None
  | VInt z | VFloat z => of_ns z
  | VStr s => read_string None s
  | VObj o => read_string (Some IsoDate) o
  | VTime t => checked t
  end.

Definition to_datetime_object (l : list value) : list (option timestamp) :=
  match guess l with
  | Some f => cell_strptime f <$> l
  | None => cell_datetime <$> l
  end.

Definition midnight (o : option timestamp) : bool :=
  match o with
  | Some t => (hour t =? 0) && (minute t =? 0) && (second t =? 0) && (nano t =? 0)
  | None => true
  end.

(** With [errors="coerce"] a column of dtype bool gives NaT in every
    cell. *)
Definition parsers : Parsers := {|
    to_datetime c :=
      Some match c with
           | ColObject l => to_datetime_object l
           | ColBool l => (fun _ => None) <$> l
           | ColInt _ l => of_ns <$> l
           | ColFloat _ l => (fun o => o ≫= of_ns) <$> l
           | ColDatetime l => (fun o => o ≫= checked) <$> l
           end;
    datetime_astype_str l :=
      (fun o => match o with
                | None => txt "NaT"
                | Some t => if forallb midnight l then strftime_date t
                            else str_timestamp t
                end) <$> l;
    datetime_ns o :=
      match o with Some t => to_ns t | None => - 2 ^ 63 end;
  |}.

End RefLib.

(** ** Frames and schemas of the examples *)

Module Examples.
#[local] Existing Instance RefLib.lib.
#[local] Existing Instance RefLib.parsers.

(** A text column with a null and a tab, and a float column with a null. *)
Definition notes : DataFrame := [
  (txt "note", ColObject [VNone; VStr (txt "a" ++ [9%N] ++ txt "b")]);
  (txt "score", ColFloat F64 [None; Some 1]) ].

(** The schema and the two rows of the scenario of the specification, as
    they are fetched: every cell a string. *)
Definition scenario_schema : schema := [
  (txt "id", txt "bigint");
  (txt "views", txt "int");
  (txt "date_posted", txt "date") ].

Definition scenario : DataFrame := [
  (txt "id", ColObject [VStr (txt "1"); VStr (txt "x")]);
  (txt "views", ColObject [VStr (txt "10"); VStr (txt "20")]);
  (txt "date_posted", ColObject [VStr (txt "2024-01-01"); VStr (txt "bad")]) ].

(** The scenario with the cell of [id] that does not parse replaced by one
    that does. *)
Definition scenario_id_parseable : DataFrame := [
  (txt "id", ColObject [VStr (txt "1"); VStr (txt "2")]);
  (txt "views", ColObject [VStr (txt "10"); VStr (txt "20")]);
  (txt "date_posted", ColObject [VStr (txt "2024-01-01"); VStr (txt "bad")]) ].

Definition scenario_id_parseable_cast : DataFrame := [
  (txt "id", ColInt I8 [1; 2]);
  (txt "views", ColInt I8 [10; 20]);
  (txt "date_posted", ColObject [VStr (txt "2024-01-01"); VNaN]) ].

(** The scenario after the cast. *)
Definition scenario_cast : DataFrame := [
  (txt "id", ColFloat F64 [Some 1; None]);
  (txt "views", ColInt I8 [10; 20]);
  (txt "date_posted", ColObject [VStr (txt "2024-01-01"); VNaN]) ].

(** The rows of the scenario after the cast, as [iterrows] yields them. *)
Definition scenario_rows : list (list (text * value)) := [
  [ (txt "id", VFloat 1); (txt "views", VInt 10);
    (txt "date_posted", VStr (txt "2024-01-01")) ];
  [ (txt "id", VNaN); (txt "views", VInt 20); (txt "date_posted", VNaN) ] ].

(** The first line written for the scenario. *)
Definition scenario_first_line : text :=
  sq "{'id': 1.0, 'views': 10, 'date_posted': '2024-01-01'}".

(** The two lines the specification gives for the scenario. *)
Definition scenario_lines : text :=
  sq "{'id':1,'views':10,'date_posted':'2024-01-01'}" ++ [10%N]
  ++ sq "{'id':null,'views':20,'date_posted':null}" ++ [10%N].

(** A column declared date that holds an instant of 1677-09-21, the day on
    which the range of datetime64[ns] begins; the frame after one cast, and
    after two. *)
Definition first_day_schema : schema := [ (txt "seen", txt "date") ].
Definition first_day : DataFrame := [
  (txt "seen", ColObject [VStr (txt "1677-09-21 00:30:00")]) ].
Definition first_day_cast : DataFrame := [
  (txt "seen", ColObject [VStr (txt "1677-09-21")]) ].
Definition first_day_recast : DataFrame := [
  (txt "seen", ColObject [VNaN]) ].

(** A schema that declares a column twice, with two types; the frame after
    one cast, and after two. *)
Definition twice_schema : schema := [
  (txt "n", txt "bigint"); (txt "n", txt "date") ].
Definition twice : DataFrame := [ (txt "n", ColObject [VStr (txt "5")]) ].
Definition twice_cast : DataFrame := [
  (txt "n", ColObject [VStr (txt "1970-01-01")]) ].
Definition twice_recast : DataFrame := [ (txt "n", ColObject [VNaN]) ].

(** A table of one row, and one with a column of timestamps next to its
    declared column. *)
Definition one_row : DataFrame := [ (txt "id", ColObject [VStr (txt "7")]) ].

Definition with_timestamp : DataFrame := [
  (txt "id", ColObject [VStr (txt "7")]);
  (txt "created_at", ColDatetime [Some (Timestamp 2024 1 1 12 0 0 0)]) ].

Definition clock : timestamp := Timestamp 2024 1 5 10 0 0 0.

(** A run where the query of the first table raises and everything else
    goes well. *)
Definition env_first_fails : Orchestrator.Env := {|
  Orchestrator.read_sql table :=
    if decide (table = txt "dashboard_data") then None else Some one_row;
  Orchestrator.now _ := clock;
  Orchestrator.client_clear := true;
  Orchestrator.client_publish _ := true;
  Orchestrator.list_objects_ok := true;
  Orchestrator.delete_object_ok _ := true;
  Orchestrator.upload_file_ok _ := true;
|}.

(** A run where the storage client cannot be made. *)
Definition env_no_client : Orchestrator.Env := {|
  Orchestrator.read_sql _ := Some one_row;
  Orchestrator.now _ := clock;
  Orchestrator.client_clear := false;
  Orchestrator.client_publish _ := false;
  Orchestrator.list_objects_ok := true;
  Orchestrator.delete_object_ok _ := true;
  Orchestrator.upload_file_ok _ := true;
|}.

(** A run where the tables have a column of timestamps. *)
Definition env_timestamps : Orchestrator.Env := {|
  Orchestrator.read_sql _ := Some with_timestamp;
  Orchestrator.now _ := clock;
  Orchestrator.client_clear := true;
  Orchestrator.client_publish _ := true;
  Orchestrator.list_objects_ok := true;
  Orchestrator.delete_object_ok _ := true;
  Orchestrator.upload_file_ok _ := true;
|}.

(** A directory and a bucket as an earlier run and other uses left them. *)
Definition stale : Orchestrator.World := {|
  Orchestrator.files := {[ txt "notes.txt" := txt "keep" ]};
  Orchestrator.bucket :=
    [ (txt "dashboard_data/dashboard_data_20240104_100000.json",
       sq "{'id': 7}" ++ [10%N]);
      (txt "readme.txt", txt "keep") ];
  Orchestrator.trace := [];
|}.

(** A run where the storage service refuses to delete the objects of the
    folder [locked/]. *)
Definition env_locked : Orchestrator.Env := {|
  Orchestrator.read_sql _ := Some one_row;
  Orchestrator.now _ := clock;
  Orchestrator.client_clear := true;
  Orchestrator.client_publish _ := true;
  Orchestrator.list_objects_ok := true;
  Orchestrator.delete_object_ok key := negb (bool_decide (take 7 key = txt "locked/"));
  Orchestrator.upload_file_ok _ := true;
|}.

Definition three_exports : Orchestrator.World := {|
  Orchestrator.files := ∅;
  Orchestrator.bucket :=
    [ (txt "a.json", txt "{}"); (txt "locked/b.json", txt "{}");
      (txt "c.json", txt "{}") ];
  Orchestrator.trace := [];
|}.

End Examples.

(** * Properties *)

(** ** Frames *)

Section FrameFacts.
Context `{L : Lib}.

Lemma getitem_notin (df : DataFrame) name :
    name ∉ columns df -> getitem df name = None.
  Proof.
    induction df as [|[n c] df IH]; simpl; [done|].
    intros H. apply not_elem_of_cons in H as [H1 H2].
    destruct (decide (n = name)); [congruence|auto].
  Qed.

Lemma getitem_elem_of (df : DataFrame) name c :
    NoDup (columns df) -> (name, c) ∈ df -> getitem df name = Some c.
  Proof.
    induction df as [|[n c0] df IH]; simpl; intros Hnd Hin.
    - by apply elem_of_nil in Hin.
    - apply NoDup_cons in Hnd as [Hn Hnd].
      apply elem_of_cons in Hin as [Heq|Hin].
      + inversion Heq; subst. by rewrite decide_True.
      + destruct (decide (n = name)) as [->|]; [|auto].
        exfalso. apply Hn. change name with (name, c).1.
        by apply list_elem_of_fmap_2.
  Qed.

Lemma getitem_Some (df : DataFrame) name c :
    getitem df name = Some c -> (name, c) ∈ df.
  Proof.
    induction df as [|[n c0] df IH]; simpl; [done|].
    destruct (decide (n = name)) as [->|].
    - intros [= ->]. apply list_elem_of_here.
    - intros H. apply list_elem_of_further. auto.
  Qed.

(** Assigning to one label of a frame with distinct labels rewrites that
    column and no other. *)
Lemma setitem_fmap (df : DataFrame) name c (f : column -> column) :
    NoDup (columns df) -> getitem df name = Some c ->
    setitem df name (f c)
    = (fun nc => (nc.1, if decide (nc.1 = name) then f nc.2 else nc.2)) <$> df.
  Proof.
    induction df as [|[n c0] df IH]; simpl; [done|].
    intros Hnd Hget. apply NoDup_cons in Hnd as [Hn Hnd].
    destruct (decide (n = name)) as [->|Hne].
    - injection Hget as ->. f_equal.
      clear IH. induction df as [|[n1 c1] df IH]; simpl; [done|].
      apply not_elem_of_cons in Hn as [Hn1 Hn2].
      apply NoDup_cons in Hnd as [_ Hnd].
      simpl in *. destruct (decide (n1 = name)) as [->|]; [done|].
      f_equal. auto.
    - f_equal. auto.
  Qed.

Lemma fmap_snd_columns (df : DataFrame) (f : text * column -> column) :
    columns ((fun nc => (nc.1, f nc)) <$> df) = columns df.
  Proof. unfold columns. rewrite <- list_fmap_compose. done. Qed.

End FrameFacts.

(** ** Sanitizer *)

Section SanitizerFacts.
Context `{P : Parsers}.

Lemma getitem_None (df : DataFrame) name :
    getitem df name = None -> name ∉ columns df.
  Proof.
    induction df as [|[n c] df IH]; simpl.
    - intros _. apply not_elem_of_nil.
    - destruct (decide (n = name)); [done|].
      intros H. apply not_elem_of_cons. split; [congruence|auto].
  Qed.

Lemma getitem_fmap (df : DataFrame) (f : text * column -> column) name :
    getitem ((fun nc => (nc.1, f nc)) <$> df) name
    = (fun c => f (name, c)) <$> getitem df name.
  Proof.
    induction df as [|[n c] df IH]; simpl; [done|].
    destruct (decide (n = name)) as [->|]; [done|auto].
  Qed.

Lemma clean_step_fmap (df : DataFrame) name :
    NoDup (columns df) ->
    clean_step df name
    = (fun nc => (nc.1, if decide (nc.1 = name) then clean_column nc.2 else nc.2)) <$> df.
  Proof.
    intros Hnd. unfold clean_step.
    destruct (getitem df name) as [c|] eqn:Hget.
    - by apply setitem_fmap.
    - apply getitem_None in Hget.
      rewrite <- (list_fmap_id df) at 1.
      apply list_fmap_ext. intros i [n c] Hi. simpl.
      destruct (decide (n = name)) as [->|]; [|done].
      exfalso. apply Hget. apply list_elem_of_lookup_2 in Hi.
      change name with (name, c).1. by apply list_elem_of_fmap_2.
  Qed.

Lemma foldl_clean_step (names : list text) :
    forall df : DataFrame, NoDup (columns df) -> NoDup names ->
    foldl clean_step df names
    = (fun nc => (nc.1, if decide (nc.1 ∈ names) then clean_column nc.2 else nc.2)) <$> df.
  Proof.
    induction names as [|n names IH]; intros df Hdf Hnames; simpl.
    - rewrite <- (list_fmap_id df) at 1. apply list_fmap_ext.
      intros i [n c] _. simpl.
      destruct (decide (n ∈ [])) as [H|]; [by apply elem_of_nil in H|done].
    - apply NoDup_cons in Hnames as [Hn Hnames].
      rewrite clean_step_fmap by done.
      rewrite IH; [|by rewrite fmap_snd_columns|done].
      rewrite <- list_fmap_compose. apply list_fmap_ext.
      intros i [m c] _. simpl. f_equal.
      destruct (decide (m = n)) as [->|Hmn].
      + rewrite decide_False by done.
        rewrite decide_True; [done|apply list_elem_of_here].
      + destruct (decide (m ∈ names)) as [Hin|Hout].
        * rewrite decide_True; [done|by apply list_elem_of_further].
        * rewrite decide_False; [done|].
          intros [?|?]%elem_of_cons; done.
  Qed.

(** On a frame with distinct labels the loop rewrites the object and bool
    columns, each by itself, and leaves the others. *)
Lemma clean_dataframe_fmap (df : DataFrame) :
    NoDup (columns df) -> clean_dataframe df = clean_entry <$> df.
  Proof.
    intros Hnd. unfold clean_dataframe.
    rewrite foldl_clean_step; [|done|].
    - apply list_fmap_ext. intros i [n c] Hi. unfold clean_entry. simpl. f_equal.
      apply list_elem_of_lookup_2 in Hi.
      destruct (decide (n ∈ columns (select_dtypes df))) as [Hin|Hout].
      + apply list_elem_of_fmap in Hin as ([n' c'] & Hn & Hin). simpl in Hn. subst n'.
        apply list_elem_of_filter in Hin as [Hob Hin]. simpl in Hob.
        apply (getitem_elem_of _ _ _ Hnd) in Hin, Hi.
        rewrite Hi in Hin. injection Hin as ->. by rewrite Hob.
      + destruct (is_object_or_bool c) eqn:Hob; [|done].
        exfalso. apply Hout. change n with (n, c).1.
        apply list_elem_of_fmap_2. by apply list_elem_of_filter.
    - eapply sublist_NoDup; [exact Hnd|].
      unfold columns, select_dtypes. apply fmap_sublist, sublist_filter.
  Qed.

Lemma allowed_not_break c : allowed c = true -> is_break c = false.
  Proof.
    unfold allowed, is_break.
    repeat match goal with
           | |- context [N.eqb ?a ?b] => destruct (N.eqb_spec a b); subst
           end; simpl; try done;
    rewrite ?orb_false_r; intros [H1 H2]%andb_prop;
    apply N.leb_le in H1; lia.
  Qed.

Lemma clean_text_fixed (s : text) :
    Forall (fun c => allowed c = true) s -> clean_text s = s.
  Proof.
    unfold clean_text, remove_disallowed, replace_breaks.
    induction 1 as [|c s Hc Hs IH]; [done|].
    rewrite fmap_cons. cbn beta. rewrite (allowed_not_break _ Hc).
    rewrite filter_cons, decide_True by done. by f_equal.
  Qed.

Lemma clean_text_allowed (s : text) :
    Forall (fun c => allowed c = true) (clean_text s).
  Proof.
    apply Forall_forall. intros c Hc.
    by apply list_elem_of_filter in Hc as [Hc _].
  Qed.

Lemma clean_text_idemp (s : text) : clean_text (clean_text s) = clean_text s.
  Proof. apply clean_text_fixed, clean_text_allowed. Qed.

Lemma clean_column_idemp (c : column) :
    clean_column (clean_column c) = clean_column c.
  Proof.
    unfold clean_column at 1 3. f_equal. simpl.
    rewrite <- !list_fmap_compose. apply list_fmap_ext.
    intros i s _. simpl. by rewrite clean_text_idemp.
  Qed.

Lemma clean_entry_idemp (nc : text * column) :
    clean_entry (clean_entry nc) = clean_entry nc.
  Proof.
    destruct nc as [n c]. unfold clean_entry. simpl.
    destruct (is_object_or_bool c) eqn:Hob; simpl.
    - by rewrite clean_column_idemp.
    - by rewrite Hob.
  Qed.

End SanitizerFacts.

(** C6. Sanitizing is idempotent: on every frame (its labels distinct, as
    those of a table are) [clean_dataframe] applied to its own result gives
    that result again. *)
Theorem clean_dataframe_idempotent `{P : Parsers} (df : DataFrame) :
  NoDup (columns df) ->
  clean_dataframe (clean_dataframe df) = clean_dataframe df.
Proof.
  intros Hnd. rewrite (clean_dataframe_fmap df Hnd).
  rewrite clean_dataframe_fmap.
  - rewrite <- list_fmap_compose. apply list_fmap_ext.
    intros i nc _. apply clean_entry_idemp.
  - unfold clean_entry. by rewrite fmap_snd_columns.
Qed.

(** C3, as the script has it. A column whose dtype is neither object nor
    bool is left as it is, nulls included.  In a column of dtype object or
    bool every cell is replaced by the cleaned text of [str(cell)]; that holds
    for the nulls of such a column too, which become text. *)
Theorem clean_dataframe_columns `{P : Parsers} (df : DataFrame) name c :
  NoDup (columns df) ->
  getitem df name = Some c ->
  getitem (clean_dataframe df) name
  = Some (if is_object_or_bool c
          then ColObject ((fun v => VStr (clean_text (py_str v))) <$> values c)
          else c).
Proof.
  intros Hnd Hget. rewrite clean_dataframe_fmap by done.
  unfold clean_entry. rewrite getitem_fmap, Hget. simpl. f_equal.
  destruct c; simpl; try done; unfold clean_column; simpl;
    by rewrite <- list_fmap_compose.
Qed.

(** *** Evaluations *)

Section SanitizerExamples.
#[local] Existing Instance RefLib.lib.
#[local] Existing Instance RefLib.parsers.

Lemma clean_dataframe_idempotent_witness :
  NoDup (columns Examples.notes)
  /\ clean_dataframe (clean_dataframe Examples.notes) = clean_dataframe Examples.notes.
Proof.
  assert (H : NoDup (columns Examples.notes))
    by (apply (bool_decide_unpack _); vm_compute; exact I).
  split; [exact H|exact (clean_dataframe_idempotent Examples.notes H)].
Defined.

Lemma clean_dataframe_columns_witness :
  NoDup (columns Examples.notes)
  /\ getitem Examples.notes (txt "note")
     = Some (ColObject [VNone; VStr (txt "a" ++ [9%N] ++ txt "b")])
  /\ getitem (clean_dataframe Examples.notes) (txt "note")
     = Some (ColObject [VStr (txt "None"); VStr (txt "a b")]).
Proof.
  assert (H : NoDup (columns Examples.notes))
    by (apply (bool_decide_unpack _); vm_compute; exact I).
  assert (Hget : getitem Examples.notes (txt "note")
                 = Some (ColObject [VNone; VStr (txt "a" ++ [9%N] ++ txt "b")]))
    by reflexivity.
  split; [exact H|]. split; [exact Hget|].
  rewrite (clean_dataframe_columns Examples.notes (txt "note") _ H Hget).
  reflexivity.
Defined.

(** C3, as stated, fails: the null of the text column of [notes] is the text
    [None] after sanitizing. *)
Lemma clean_dataframe_null_counterexample :
  ~ (forall (df : DataFrame) name c c' (i : nat) v,
       NoDup (columns df) ->
       getitem df name = Some c ->
       getitem (clean_dataframe df) name = Some c' ->
       values c !! i = Some v -> isna v = true ->
       values c' !! i = Some v).
Proof.
  intros H.
  assert (Hnd : NoDup (columns Examples.notes))
    by (apply (bool_decide_unpack _); vm_compute; exact I).
  assert (Hget : getitem Examples.notes (txt "note")
                 = Some (ColObject [VNone; VStr (txt "a" ++ [9%N] ++ txt "b")]))
    by reflexivity.
  assert (Hget' : getitem (clean_dataframe Examples.notes) (txt "note")
                  = Some (ColObject [VStr (txt "None"); VStr (txt "a b")]))
    by reflexivity.
  specialize (H Examples.notes (txt "note") _ _ 0%nat VNone Hnd Hget Hget'
                eq_refl eq_refl).
  discriminate H.
Qed.

End SanitizerExamples.

(** ** TypeCaster *)

Section CasterFacts.
Context `{P : Parsers}.

Lemma getitem_setitem (df : DataFrame) name c name' :
  getitem (setitem df name c) name'
  = if decide (name = name') then Some c else getitem df name'.
Proof.
  induction df as [|[n c0] df IH]; simpl.
  - destruct (decide (name = name')); done.
  - destruct (decide (n = name)) as [->|Hn]; simpl.
    + destruct (decide (name = name')); done.
    + destruct (decide (n = name')) as [->|]; [|done].
      by rewrite decide_False by congruence.
Qed.

Lemma columns_setitem (df : DataFrame) name c c' :
  getitem df name = Some c -> columns (setitem df name c') = columns df.
Proof.
  induction df as [|[n c0] df IH]; simpl; [done|].
  destruct (decide (n = name)) as [->|]; simpl; [done|].
  intros H. f_equal. auto.
Qed.

(** *** The downcast to the smallest integer dtype *)

Lemma smallest_fit_stable bits l w :
  smallest_fit bits l = Some w -> smallest_fit (ibits w) l = Some w.
Proof.
  unfold smallest_fit, narrower. rewrite !filter_cons, !filter_nil.
  destruct (forallb (fits I8) l) eqn:H8, (forallb (fits I16) l) eqn:H16,
           (forallb (fits I32) l) eqn:H32, (forallb (fits I64) l) eqn:H64;
    destruct (decide (ibits I8 <= bits)), (decide (ibits I16 <= bits)),
             (decide (ibits I32 <= bits)), (decide (ibits I64 <= bits));
    simpl; rewrite ?H8, ?H16, ?H32, ?H64; intros [= <-];
    repeat (first [rewrite decide_True by (simpl; lia)
                  |rewrite decide_False by (simpl; lia)]);
    simpl; first [by rewrite ?H8, ?H16, ?H32, ?H64|simpl in *; lia].
Qed.

Lemma numeric_values_numeric c : numeric (numeric_values c).
Proof.
  destruct c as [l| | | |]; simpl; try done.
  unfold convert_numeric. repeat case_match; done.
Qed.

Lemma numeric_values_fixed c : numeric c -> numeric_values c = c.
Proof. by destruct c. Qed.

Lemma downcast_integer_numeric c : numeric c -> numeric (downcast_integer c).
Proof.
  destruct c as [|l|w l|w l|]; simpl; try done; intros _.
  - by destruct l.
  - by destruct (smallest_fit _ _).
  - destruct (mapM _ _); [|done]. by destruct (smallest_fit _ _).
Qed.

Lemma downcast_float_numeric c : numeric c -> numeric (downcast_float c).
Proof.
  destruct c as [| |w l|w l|]; simpl; try done; intros _.
  - repeat case_match; done.
  - destruct w; [done|]. by destruct (mapM _ _).
Qed.

Lemma downcast_integer_idemp c :
  downcast_integer (downcast_integer c) = downcast_integer c.
Proof.
  destruct c as [|l|w l|w l|]; simpl; try done.
  - by destruct l.
  - destruct (smallest_fit (ibits w) l) as [w'|] eqn:Hw; simpl.
    + by rewrite (smallest_fit_stable _ _ _ Hw).
    + by rewrite Hw.
  - destruct (mapM _ l) as [zs|] eqn:Hzs; simpl; [|by rewrite Hzs].
    destruct (smallest_fit (fbits w) zs) as [w'|] eqn:Hw; simpl.
    + by rewrite (smallest_fit_stable _ _ _ Hw).
    + by rewrite Hzs, Hw.
Qed.

(** The float64 column of a column of ints is as close to a float32 column
    as the ints are. *)
Lemma mapM_f32_ints (l : list Z) :
  mapM (fun o : option float =>
          match o with Some x => Some <$> float_as_f32 x | None => Some None end)
       ((fun z => Some (float_of_int z)) <$> l)
  = fmap Some <$> mapM (fun z => float_as_f32 (float_of_int z)) l.
Proof.
  induction l as [|z l IH]; [done|].
  cbn [fmap list_fmap mapM]. fold (@fmap list _ Z).
  change (list_fmap Z (option float) (fun z => Some (float_of_int z)) l)
    with ((fun z => Some (float_of_int z)) <$> l).
  rewrite IH. destruct (float_as_f32 (float_of_int z)); [|done].
  by destruct (mapM _ l).
Qed.

Lemma downcast_float_idemp c :
  downcast_float (downcast_float c) = downcast_float c.
Proof.
  destruct c as [| |w l|w l|]; simpl; try done.
  - destruct (32 <=? ibits w) eqn:H32; simpl; [|by rewrite H32].
    destruct (mapM _ l) eqn:Hl; simpl; [done|].
    destruct (64 <=? ibits w) eqn:H64; simpl.
    + by rewrite mapM_f32_ints, Hl.
    + by rewrite H32, Hl, H64.
  - destruct w; [done|].
    destruct (mapM _ l) eqn:Hl; simpl; [done|by rewrite Hl].
Qed.

(** *** One column *)

Lemma strftime_date_floor t : strftime_date (floor_day t) = strftime_date t.
Proof. reflexivity. Qed.

Lemma strftime_datetime_floor t :
  strftime_datetime (floor_second t) = strftime_datetime t.
Proof. reflexivity. Qed.

(** The numeric conversions and the cast to string, on their own output. *)
Lemma cast_column_idemp typ c c' :
  typ <> txt "date" -> typ <> txt "timestamp" ->
  cast_column typ c = Some c' -> cast_column typ c' = Some c'.
Proof.
  intros Hdate Htime. unfold cast_column.
  repeat case_decide; try done.
  - intros [= <-]. rewrite numeric_values_fixed
      by apply downcast_integer_numeric, numeric_values_numeric.
    by rewrite downcast_integer_idemp.
  - intros [= <-]. rewrite numeric_values_fixed
      by apply downcast_float_numeric, numeric_values_numeric.
    by rewrite downcast_float_idemp.
  - intros [= <-]. rewrite numeric_values_fixed
      by apply downcast_integer_numeric, numeric_values_numeric.
    by rewrite downcast_integer_idemp.
  - intros [= <-]. do 2 f_equal. simpl.
    rewrite <- !list_fmap_compose. by apply list_fmap_ext.
Qed.

(** The dates written are read as they are written when they are in the range
    of the dtype. *)
Lemma dt_strftime_read fmt floor (l : list (option timestamp)) :
  (forall t, fmt (floor t) = fmt t) ->
  (forall t, Some t ∈ l -> in_range (floor t) = true) ->
  dt_strftime fmt (read_iso floor <$> l) = dt_strftime fmt l.
Proof.
  intros Hfmt Hl. unfold dt_strftime. f_equal.
  rewrite <- list_fmap_compose. apply Forall_fmap_ext_1, Forall_forall.
  intros [t|] Hin; [|done]. unfold read_iso. cbn [mbind option_bind compose].
  rewrite (Hl t Hin). cbn [strftime_cell]. by rewrite Hfmt.
Qed.

Lemma cast_column_idemp_dates typ c c' l :
  datetime_valid ->
  reads_iso strftime_date floor_day -> reads_iso strftime_datetime floor_second ->
  to_datetime c = Some l ->
  (typ = txt "date" -> forall t, Some t ∈ l -> in_range (floor_day t) = true) ->
  (typ = txt "timestamp" ->
   forall t, Some t ∈ l -> in_range (floor_second t) = true) ->
  cast_column typ c = Some c' -> cast_column typ c' = Some c'.
Proof.
  intros Hvalid Hdate Htime Hl Hrd Hrt.
  destruct (decide (typ = txt "date")) as [->|Hnd].
  - unfold cast_column. repeat case_decide; try done.
    rewrite Hl. intros [= <-]. rewrite (Hdate l (Hvalid _ _ Hl)). simpl.
    f_equal. apply dt_strftime_read; [apply strftime_date_floor|by apply Hrd].
  - destruct (decide (typ = txt "timestamp")) as [->|Hnt];
      [|by apply cast_column_idemp].
    unfold cast_column. repeat case_decide; try done.
    rewrite Hl. intros [= <-]. rewrite (Htime l (Hvalid _ _ Hl)). simpl.
    f_equal. apply dt_strftime_read; [apply strftime_datetime_floor|by apply Hrt].
Qed.

(** *** The loop over the schema, column by column *)

Lemma mapM_Some_id {A} (f : A -> option A) (l : list A) :
  Forall (fun x => f x = Some x) l -> mapM f l = Some l.
Proof. intros H. apply mapM_Some_2. induction H; by constructor. Qed.

Lemma cast_step_mapM (df : DataFrame) name typ :
  NoDup (columns df) ->
  cast_step df (name, typ)
  = mapM (fun nc => if decide (nc.1 = name)
                    then c' ← cast_column typ nc.2; Some (nc.1, c')
                    else Some nc) df.
Proof.
  unfold cast_step. simpl.
  induction df as [|[n c] df IH]; [done|].
  intros Hnd. unfold columns in Hnd. rewrite fmap_cons in Hnd.
  apply NoDup_cons in Hnd as [Hn Hnd].
  cbn [getitem setitem mapM fst snd].
  destruct (decide (n = name)) as [->|Hne].
  - rewrite mapM_Some_id.
    + destruct (cast_column typ c); reflexivity.
    + apply Forall_forall. intros [m c1] Hin. simpl.
      destruct (decide (m = name)) as [->|]; [|done].
      exfalso. apply Hn. by apply (list_elem_of_fmap_2 fst df (name, c1)).
  - simpl. rewrite <- (IH Hnd).
    destruct (getitem df name) as [c0|]; [|reflexivity].
    destruct (cast_column typ c0); reflexivity.
Qed.

Lemma cast_step_columns (df df' : DataFrame) col :
  cast_step df col = Some df' -> columns df' = columns df.
Proof.
  unfold cast_step. destruct (getitem df col.1) as [c|] eqn:Hget.
  - destruct (cast_column col.2 c); [|done]. intros [= <-].
    by eapply columns_setitem.
  - by intros [= <-].
Qed.

Lemma declared_notin (s : schema) name : name ∉ s.*1 -> declared s name = None.
Proof.
  induction s as [|[n t] s IH]; simpl; [done|].
  intros [H1 H2]%not_elem_of_cons.
  destruct (decide (n = name)); [congruence|auto].
Qed.

Lemma declared_elem_of (s : schema) name typ :
  declared s name = Some typ -> (name, typ) ∈ s.
Proof.
  induction s as [|[n t] s IH]; simpl; [done|].
  destruct (decide (n = name)) as [->|].
  - intros [= ->]. apply list_elem_of_here.
  - intros H. apply list_elem_of_further. auto.
Qed.

Lemma cast_types_mapM (s : schema) :
  forall df : DataFrame, NoDup (columns df) -> NoDup s.*1 ->
  cast_types df s = mapM (cast_entry s) df.
Proof.
  induction s as [|[n typ] s IH]; intros df Hdf Hs.
  - simpl. symmetry. apply mapM_Some_id, Forall_forall. by intros [m c] _.
  - apply NoDup_cons in Hs as [Hn Hs]. cbn [cast_types].
    rewrite cast_step_mapM by done.
    destruct (mapM _ df) as [df1|] eqn:Hstep; simpl.
    + pose proof (cast_step_columns df df1 (n, typ)) as Hcols.
      rewrite cast_step_mapM in Hcols by done. specialize (Hcols Hstep).
      rewrite IH; [|by rewrite Hcols|done].
      symmetry. eapply Forall2_mapM_ext, Forall2_impl; [by apply mapM_Some_1|].
      intros [m c] [m' c']. unfold cast_entry. simpl.
      destruct (decide (m = n)) as [->|Hne].
      * rewrite decide_True by done.
        destruct (cast_column typ c) as [c1|]; simpl; [|done].
        intros [= <- <-]. by rewrite declared_notin.
      * rewrite decide_False by congruence. by intros [= <- <-].
    + symmetry. apply mapM_None. apply mapM_None in Hstep.
      eapply Exists_impl; [exact Hstep|].
      intros [m c]. unfold cast_entry. simpl.
      destruct (decide (m = n)) as [->|]; [|done].
      rewrite decide_True by done. by destruct (cast_column typ c).
Qed.

Lemma cast_types_columns (s : schema) :
  forall df df' : DataFrame, cast_types df s = Some df' -> columns df' = columns df.
Proof.
  induction s as [|col s IH]; simpl.
  - by intros df df' [= <-].
  - intros df df'. destruct (cast_step df col) as [df1|] eqn:Hstep; [|done].
    simpl. intros H. rewrite (IH _ _ H). by eapply cast_step_columns.
Qed.

Lemma cast_entry_idemp (s : schema) n c c' :
  declared s n <> Some (txt "date") -> declared s n <> Some (txt "timestamp") ->
  cast_entry s (n, c) = Some (n, c') -> cast_entry s (n, c') = Some (n, c').
Proof.
  unfold cast_entry. simpl. destruct (declared s n) as [typ|]; [|done].
  intros Hdate Htime.
  destruct (cast_column typ c) as [c1|] eqn:Hc; simpl; [|done].
  intros [= <-]. rewrite (cast_column_idemp typ c c1); [done| | |done]; congruence.
Qed.

Lemma getitem_mapM (f : text * column -> option (text * column))
    (df r : DataFrame) name c :
  (forall nc y, f nc = Some y -> y.1 = nc.1) ->
  mapM f df = Some r -> getitem df name = Some c ->
  exists c', f (name, c) = Some (name, c') /\ getitem r name = Some c'.
Proof.
  intros Hf Hr. apply mapM_Some_1 in Hr.
  induction Hr as [|[n c0] [n' c0'] df r Hnc _ IH]; simpl; [done|].
  pose proof (Hf _ _ Hnc) as Hn. simpl in Hn. subst n'.
  destruct (decide (n = name)) as [->|]; [|done].
  intros [= ->]. eauto.
Qed.

(** The second cast, column by column: it returns the frame it is given
    when every column comes out of its conversion as it went in. *)
Lemma cast_types_again (s : schema) (df df' : DataFrame) :
  NoDup (columns df) -> NoDup s.*1 ->
  cast_types df s = Some df' ->
  (forall n c c', getitem df n = Some c ->
                  cast_entry s (n, c) = Some (n, c') ->
                  cast_entry s (n, c') = Some (n, c')) ->
  cast_types df' s = Some df'.
Proof.
  intros Hdf Hs Hcast Hentry.
  pose proof (cast_types_columns _ _ _ Hcast) as Hcols.
  rewrite cast_types_mapM in Hcast by done.
  rewrite cast_types_mapM; [|by rewrite Hcols|done].
  apply mapM_Some_id, Forall_forall. intros [n c'] Hin.
  apply mapM_Some_1 in Hcast.
  apply list_elem_of_lookup in Hin as [i Hi].
  destruct (Forall2_lookup_r _ _ _ _ _ Hcast Hi) as ([m c] & Hm & Hc).
  assert (m = n) as -> by (unfold cast_entry in Hc; simpl in Hc;
                            repeat case_match; simplify_option_eq; done).
  apply (Hentry n c c'); [|done].
  apply getitem_elem_of; [done|]. by eapply list_elem_of_lookup_2.
Qed.

Lemma cast_types_again_column (s : schema) (df df' r : DataFrame) name :
  NoDup (columns df) -> NoDup s.*1 ->
  cast_types df s = Some df' -> cast_types df' s = Some r ->
  (forall c c', getitem df name = Some c ->
                cast_entry s (name, c) = Some (name, c') ->
                cast_entry s (name, c') = Some (name, c')) ->
  getitem r name = getitem df' name.
Proof.
  intros Hdf Hs Hcast Hagain Hentry.
  pose proof (cast_types_columns _ _ _ Hcast) as Hcols.
  pose proof (cast_types_columns _ _ _ Hagain) as Hcols'.
  rewrite cast_types_mapM in Hcast by done.
  rewrite cast_types_mapM in Hagain; [|by rewrite Hcols|done].
  assert (Hlabel : forall nc y, cast_entry s nc = Some y -> y.1 = nc.1).
  { intros nc y. unfold cast_entry. destruct (declared s nc.1); [|by intros [= <-]].
    destruct (cast_column _ _); [|done]. by intros [= <-]. }
  destruct (getitem df name) as [c|] eqn:Hget.
  - destruct (getitem_mapM _ _ _ _ _ Hlabel Hcast Hget) as (c' & Hc' & Hget').
    destruct (getitem_mapM _ _ _ _ _ Hlabel Hagain Hget') as (c2 & Hc2 & Hget2).
    rewrite Hget', Hget2. rewrite (Hentry c c' eq_refl Hc') in Hc2. congruence.
  - apply getitem_None in Hget.
    rewrite !getitem_notin; [done|by rewrite Hcols|by rewrite Hcols', Hcols].
Qed.

End CasterFacts.

(** C7, as the script has it.  When [cast_types] returns on a frame with
    distinct labels, under a schema that declares no column twice, and is
    applied to its result under the same schema:
    - a column that is not declared date or timestamp comes out of the second
      cast as it went in, whatever [to_datetime] does;
    - under a schema that declares no column date or timestamp the second
      cast returns the frame it is given;
    - given that the cells of a datetime64[ns] column are instants of the
      calendar in the range of the dtype and that [to_datetime] reads the
      strings [YYYY-MM-DD] and [YYYY-MM-DD HH:MM:SS] as they are written, the
      second cast returns the frame it is given under any such schema,
      provided the dates and date-times written are in the range of the
      dtype. *)
Theorem cast_types_idempotent `{P : Parsers} (df df' : DataFrame) (s : schema) :
  NoDup (columns df) -> NoDup s.*1 ->
  cast_types df s = Some df' ->
  (forall r name,
     cast_types df' s = Some r ->
     declared s name <> Some (txt "date") ->
     declared s name <> Some (txt "timestamp") ->
     getitem r name = getitem df' name)
  /\ (Forall (fun col => col.2 <> txt "date" /\ col.2 <> txt "timestamp") s ->
      cast_types df' s = Some df')
  /\ (datetime_valid ->
      reads_iso strftime_date floor_day ->
      reads_iso strftime_datetime floor_second ->
      floors_in_range df s ->
      cast_types df' s = Some df').
Proof.
  intros Hdf Hs Hcast. split; [|split].
  - intros r name Hagain Hdate Htime.
    apply (cast_types_again_column s df df' r name); try done.
    intros c c' _. by apply cast_entry_idemp.
  - intros Hplain. apply (cast_types_again s df df'); try done.
    intros n c c' _. apply cast_entry_idemp.
    + intros Hd. apply declared_elem_of in Hd.
      rewrite Forall_forall in Hplain. by destruct (Hplain _ Hd).
    + intros Hd. apply declared_elem_of in Hd.
      rewrite Forall_forall in Hplain. by destruct (Hplain _ Hd).
  - intros Hvalid Hdate Htime Hrange.
    apply (cast_types_again s df df'); try done.
    intros n c c' Hget. unfold cast_entry. simpl.
    destruct (declared s n) as [typ|] eqn:Hdecl; [|done].
    destruct (cast_column typ c) as [c1|] eqn:Hc; simpl; [|done].
    intros [= <-].
    destruct (decide (typ = txt "date" \/ typ = txt "timestamp")) as [Htyp|Htyp].
    + assert (exists l, to_datetime c = Some l) as [l Hl].
      { revert Hc. unfold cast_column. destruct Htyp as [-> | ->];
          repeat case_decide; try done;
          destruct (to_datetime c); by eauto. }
      rewrite (cast_column_idemp_dates typ c c1 l); try done.
      * intros -> t Hin. by apply (Hrange n c l t Hget Hl Hin).
      * intros -> t Hin. by apply (Hrange n c l t Hget Hl Hin).
    + rewrite (cast_column_idemp typ c c1); [done| | |done]; tauto.
Qed.

(** ** The reference library *)

Section RefLibFacts.
#[local] Existing Instance RefLib.lib.
#[local] Existing Instance RefLib.parsers.

Lemma is_digit_digit d : is_digit (digit d) = true.
Proof.
  unfold is_digit, digit.
  pose proof (Z.mod_pos_bound d 10 ltac:(lia)).
  apply andb_true_intro. split; apply N.leb_le; lia.
Qed.

Lemma dval_digit d : RefLib.dval (digit d) = d mod 10.
Proof.
  unfold RefLib.dval, digit.
  pose proof (Z.mod_pos_bound d 10 ltac:(lia)). lia.
Qed.

Lemma num2_pad n :
  0 <= n < 100 -> RefLib.num2 (digit (n / 10)) (digit n) = Some n.
Proof.
  intros Hn. unfold RefLib.num2. rewrite !is_digit_digit, !dval_digit. simpl.
  f_equal. Z.to_euclidean_division_equations. lia.
Qed.

Lemma num4_pad n :
  0 <= n < 10000 ->
  RefLib.num4 (digit (n / 1000)) (digit (n / 100)) (digit (n / 10)) (digit n)
  = Some n.
Proof.
  intros Hn. unfold RefLib.num4. rewrite !is_digit_digit, !dval_digit. simpl.
  f_equal. Z.to_euclidean_division_equations. lia.
Qed.

Lemma strftime_date_cells t :
  strftime_date t
  = [digit (year t / 1000); digit (year t / 100); digit (year t / 10);
     digit (year t); 45%N; digit (month t / 10); digit (month t); 45%N;
     digit (day t / 10); digit (day t)].
Proof. reflexivity. Qed.

Lemma strftime_datetime_cells t :
  strftime_datetime t
  = strftime_date t
    ++ [32%N; digit (hour t / 10); digit (hour t); 58%N;
        digit (minute t / 10); digit (minute t); 58%N;
        digit (second t / 10); digit (second t)].
Proof. reflexivity. Qed.

Lemma valid_fields t :
  valid t = true ->
  (1677 <= year t <= 2262 /\ 1 <= month t <= 12
   /\ 1 <= day t /\ (day t <=? days_in_month (year t) (month t)) = true)
  /\ 0 <= hour t < 24 /\ 0 <= minute t < 60 /\ 0 <= second t < 60.
Proof.
  unfold valid, calendar. rewrite !andb_true_iff.
  rewrite !Z.leb_le, !Z.ltb_lt. tauto.
Qed.

Lemma days_in_month_le y m : days_in_month y m <= 31.
Proof.
  unfold days_in_month.
  repeat match goal with |- context [if ?b then _ else _] => destruct b end; lia.
Qed.

(** A date that is cut to its day or to its second is still a date of the
    calendar: it is a cell of the dtype when it is in its range. *)
Lemma valid_floor_day t : valid t = true -> valid (floor_day t) = in_range (floor_day t).
Proof.
  intros Hv. set (r := in_range (floor_day t)).
  unfold valid, calendar in *. fold r.
  cbn [floor_day year month day hour minute second nano].
  rewrite !andb_true_iff in Hv. destruct_and!.
  repeat match goal with H : _ = true |- _ => rewrite H; clear H end.
  reflexivity.
Qed.

Lemma valid_floor_second t :
  valid t = true -> valid (floor_second t) = in_range (floor_second t).
Proof.
  intros Hv. set (r := in_range (floor_second t)).
  unfold valid, calendar in *. fold r.
  cbn [floor_second year month day hour minute second nano].
  rewrite !andb_true_iff in Hv. destruct_and!.
  repeat match goal with H : _ = true |- _ => rewrite H; clear H end.
  reflexivity.
Qed.

Lemma parse_iso_date t :
  valid t = true ->
  RefLib.parse_iso (strftime_date t) = Some (RefLib.IsoDate, floor_day t).
Proof.
  intros Hv.
  destruct (valid_fields t Hv) as ((Hy & Hmo & Hd & Hdm) & _).
  apply Z.leb_le in Hdm. pose proof (days_in_month_le (year t) (month t)).
  rewrite strftime_date_cells. unfold RefLib.parse_iso.
  cbn [take drop firstn skipn RefLib.date_fields].
  change (N.eqb 45 45) with true. cbn [andb].
  by rewrite num4_pad, !num2_pad by lia.
Qed.

Lemma parse_iso_datetime t :
  valid t = true ->
  RefLib.parse_iso (strftime_datetime t)
  = Some (RefLib.IsoDateTime 32, floor_second t).
Proof.
  intros Hv.
  destruct (valid_fields t Hv) as ((Hy & Hmo & Hd & Hdm) & Hh & Hmi & Hs).
  apply Z.leb_le in Hdm. pose proof (days_in_month_le (year t) (month t)).
  rewrite strftime_datetime_cells, strftime_date_cells. cbn [app].
  unfold RefLib.parse_iso.
  cbn [take drop firstn skipn RefLib.date_fields RefLib.time_fields].
  change (N.eqb 45 45) with true. change (N.eqb 58 58) with true.
  change (N.eqb 32 32) with true. cbn [andb orb].
  by rewrite num4_pad, !num2_pad by lia.
Qed.

Lemma checked_valid t t' : RefLib.checked t = Some t' -> valid t' = true.
Proof. unfold RefLib.checked. destruct (valid t) eqn:H; by intros [= <-]. Qed.

Lemma of_ns_valid n t : RefLib.of_ns n = Some t -> valid t = true.
Proof.
  unfold RefLib.of_ns. destruct (RefLib.civil_from_days _) as [[y m] d].
  apply checked_valid.
Qed.

Lemma read_string_valid f s t : RefLib.read_string f s = Some t -> valid t = true.
Proof.
  unfold RefLib.read_string. destruct (RefLib.parse_iso s) as [[f' t']|]; [|done].
  simpl. destruct (RefLib.matches f f'); [|done]. apply checked_valid.
Qed.

(** The cells [to_datetime] returns are cells of the dtype. *)
Lemma to_datetime_valid : datetime_valid.
Proof.
  intros c l. destruct c as [l0|l0|w l0|w l0|l0]; simpl; intros [= <-].
  - unfold RefLib.to_datetime_object.
    destruct (RefLib.guess l0); apply Forall_fmap, Forall_forall;
      intros v _ t; destruct v; simpl; try done;
      eauto using checked_valid, of_ns_valid, read_string_valid.
  - apply Forall_fmap, Forall_forall. by intros b _ t.
  - apply Forall_fmap, Forall_forall. intros z _ t. apply of_ns_valid.
  - apply Forall_fmap, Forall_forall. intros [x|] _ t; [|done].
    apply of_ns_valid.
  - apply Forall_fmap, Forall_forall. intros [x|] _ t; [|done].
    apply checked_valid.
Qed.

(** A format [fmt] that the parser reads: [f] is the format it finds in what
    [fmt] writes, and [floor] the instant it reads there. *)
Section Reads.
Variable fmt : timestamp -> text.
Variable floor : timestamp -> timestamp.
Variable f : RefLib.format.
Hypothesis parse_fmt :
  forall t, valid t = true -> RefLib.parse_iso (fmt t) = Some (f, floor t).
Hypothesis valid_floor :
  forall t, valid t = true -> valid (floor t) = in_range (floor t).

Lemma read_string_fmt f0 t :
  valid t = true -> RefLib.matches f0 f = true ->
  RefLib.read_string f0 (fmt t) = read_iso floor (Some t).
Proof.
  intros Hv Hm. unfold RefLib.read_string, read_iso, RefLib.checked.
  rewrite (parse_fmt t Hv). simpl. by rewrite Hm, (valid_floor t Hv).
Qed.

Lemma guess_fmt (l : list (option timestamp)) f0 :
  Forall (fun o => forall t, o = Some t -> valid t = true) l ->
  RefLib.guess (strftime_cell fmt <$> l) = Some f0 -> f0 = f.
Proof.
  unfold RefLib.guess. induction 1 as [|o l Ho _ IH]; [done|].
  destruct o as [t|]; cbn [fmap list_fmap strftime_cell List.find RefLib.is_null negb].
  - destruct (negb (RefLib.is_nat_string (fmt t))); [|exact IH].
    unfold RefLib.guess_format. rewrite (parse_fmt t (Ho t eq_refl)). simpl.
    destruct (_ && _); [congruence|done].
  - exact IH.
Qed.

Lemma reads_iso_fmt : reads_iso fmt floor.
Proof.
  intros l Hl. unfold dt_strftime. simpl. f_equal.
  unfold RefLib.to_datetime_object.
  destruct (RefLib.guess (strftime_cell fmt <$> l)) as [f0|] eqn:Hguess.
  - apply (guess_fmt l f0 Hl) in Hguess as ->.
    rewrite <- list_fmap_compose. apply Forall_fmap_ext_1.
    eapply Forall_impl; [exact Hl|]. intros [t|] Ht; [|done]. simpl.
    apply read_string_fmt; [by apply Ht|]. simpl. by apply bool_decide_eq_true.
  - rewrite <- list_fmap_compose. apply Forall_fmap_ext_1.
    eapply Forall_impl; [exact Hl|]. intros [t|] Ht; [|done]. simpl.
    apply read_string_fmt; [by apply Ht|done].
Qed.

End Reads.

Lemma reads_iso_date : reads_iso strftime_date floor_day.
Proof.
  apply (reads_iso_fmt _ _ RefLib.IsoDate); [apply parse_iso_date|].
  apply valid_floor_day.
Qed.

Lemma reads_iso_datetime : reads_iso strftime_datetime floor_second.
Proof.
  apply (reads_iso_fmt _ _ (RefLib.IsoDateTime 32)); [apply parse_iso_datetime|].
  apply valid_floor_second.
Qed.

End RefLibFacts.

(** *** Casting, column by column *)

Section CasterLocal.
Context `{P : Parsers}.

Lemma cast_step_other (df d : DataFrame) col name :
  cast_step df col = Some d -> name <> col.1 -> getitem d name = getitem df name.
Proof.
  unfold cast_step. destruct (getitem df col.1) as [c|]; [|by intros [= <-]].
  destruct (cast_column col.2 c) as [c'|]; [|done]. simpl. intros [= <-] Hne.
  rewrite getitem_setitem. by rewrite decide_False.
Qed.

(** Two frames that differ in one column only still differ in that column
    only after the cast. *)
Lemma cast_types_other_columns (s : schema) name :
  forall df1 df2 r1 r2 : DataFrame,
  (forall n, n <> name -> getitem df1 n = getitem df2 n) ->
  cast_types df1 s = Some r1 -> cast_types df2 s = Some r2 ->
  forall n, n <> name -> getitem r1 n = getitem r2 n.
Proof.
  induction s as [|[m typ] s IH]; intros df1 df2 r1 r2 Hsame; simpl.
  - intros [= <-] [= <-]. done.
  - destruct (cast_step df1 (m, typ)) as [d1|] eqn:H1; [|done].
    destruct (cast_step df2 (m, typ)) as [d2|] eqn:H2; [|done]. simpl.
    apply IH. intros n Hn.
    destruct (decide (n = m)) as [->|Hnm].
    + revert H1 H2. unfold cast_step. simpl. rewrite <- (Hsame m Hn).
      destruct (getitem df1 m) as [c|]; [|intros [= <-] [= <-]; auto].
      destruct (cast_column typ c) as [c'|]; [|done]. simpl.
      intros [= <-] [= <-]. rewrite !getitem_setitem. by rewrite !decide_True.
    + rewrite (cast_step_other _ _ _ _ H1), (cast_step_other _ _ _ _ H2) by done.
      auto.
Qed.

(** A cell that does not parse makes the numeric column float64: the cell is
    NaN and every cell holds the float of the number it parses to. *)
Lemma to_numeric_null (l : list value) (i : nat) v :
  l !! i = Some v -> cell_numeric v = NNull ->
  downcast_integer (numeric_values (ColObject l))
  = ColFloat F64 ((fun v => number_float (cell_numeric v)) <$> l).
Proof.
  intros Hi Hv. simpl. unfold convert_numeric.
  assert (Hex : existsb is_floating (cell_numeric <$> l) = true).
  { apply existsb_exists. exists NNull. split; [|done].
    apply list_elem_of_In. rewrite <- Hv.
    apply list_elem_of_fmap_2. by eapply list_elem_of_lookup_2. }
  rewrite Hex. simpl. rewrite <- list_fmap_compose.
  rewrite (proj2 (mapM_None _ _)); [done|].
  apply Exists_exists. exists None. split; [|done].
  apply list_elem_of_fmap. exists v. split.
  - simpl. by rewrite Hv.
  - by eapply list_elem_of_lookup_2.
Qed.

(** With a null the column declared double is float64 before the downcast,
    and float64 or float32 after it. *)
Lemma to_numeric_float_null (l : list value) (i : nat) v :
  l !! i = Some v -> cell_numeric v = NNull ->
  let cells := (fun v => number_float (cell_numeric v)) <$> l in
  downcast_float (numeric_values (ColObject l)) = ColFloat F64 cells
  \/ downcast_float (numeric_values (ColObject l))
     = ColFloat F32 ((fun o => o ≫= float_as_f32) <$> cells).
Proof.
  intros Hi Hv cells. simpl. unfold convert_numeric.
  assert (Hex : existsb is_floating (cell_numeric <$> l) = true).
  { apply existsb_exists. exists NNull. split; [|done].
    apply list_elem_of_In. rewrite <- Hv.
    apply list_elem_of_fmap_2. by eapply list_elem_of_lookup_2. }
  rewrite Hex. cbn [orb downcast_float]. rewrite <- list_fmap_compose.
  fold cells. destruct (mapM _ cells) as [out|] eqn:Hout; [right|by left].
  f_equal. apply mapM_Some_1 in Hout. clear -Hout.
  induction Hout as [|o o' cs out Ho _ IH]; [done|].
  cbn [fmap list_fmap]. f_equal; [|exact IH].
  destruct o as [x|]; simpl in *; [|congruence].
  destruct (float_as_f32 x); simpl in *; congruence.
Qed.

(** The column a declared column comes out as. *)
Lemma cast_types_getitem (df r : DataFrame) (s : schema) name typ c :
  NoDup (columns df) -> NoDup s.*1 ->
  getitem df name = Some c -> declared s name = Some typ ->
  cast_types df s = Some r ->
  exists c', cast_column typ c = Some c' /\ getitem r name = Some c'.
Proof.
  intros Hdf Hs Hget Hdecl Hcast.
  rewrite cast_types_mapM in Hcast by done.
  assert (Hlabel : forall nc y, cast_entry s nc = Some y -> y.1 = nc.1).
  { intros nc y. unfold cast_entry. destruct (declared s nc.1); [|by intros [= <-]].
    destruct (cast_column _ _); [|done]. by intros [= <-]. }
  destruct (getitem_mapM _ _ _ _ _ Hlabel Hcast Hget) as (c' & Hc' & Hr).
  exists c'. split; [|done]. revert Hc'. unfold cast_entry. simpl. rewrite Hdecl.
  destruct (cast_column typ c); simpl; congruence.
Qed.

Lemma cast_column_integer typ c :
  typ = txt "bigint" \/ typ = txt "int" ->
  cast_column typ c = Some (downcast_integer (numeric_values c)).
Proof.
  unfold cast_column. intros [-> | ->]; repeat case_decide; try done;
    match goal with H : txt _ = txt _ |- _ => by vm_compute in H end.
Qed.

Lemma cast_column_double c :
  cast_column (txt "double") c = Some (downcast_float (numeric_values c)).
Proof.
  unfold cast_column. repeat case_decide; try done;
    match goal with H : txt _ = txt _ |- _ => by vm_compute in H end.
Qed.

Lemma cast_column_dates typ c :
  typ = txt "date" \/ typ = txt "timestamp" ->
  exists fmt, cast_column typ c = dt_strftime fmt <$> to_datetime c.
Proof.
  unfold cast_column. intros [-> | ->]; repeat case_decide; try done;
    try match goal with H : txt _ = txt _ |- _ => by vm_compute in H end;
    by eexists.
Qed.

End CasterLocal.


(** C4, as the script has it.  Casting is local to the column in this
    sense.  Whatever a declared column holds, and whatever its declared type,
    every other column comes out of the cast the same.  In the column itself a
    cell that does not parse becomes null: NaN under bigint, int and double,
    and NaN where [to_datetime] gives NaT under date and timestamp.  The other
    cells of a numeric column keep the number they parse to by themselves but
    not its representation: with the null the column is float64 under bigint
    and int (an integer 1 is held as 1.0), and float64 or float32 under
    double. *)
Theorem cast_types_column_local `{P : Parsers}
    (df r : DataFrame) (s : schema) name typ (c : column) :
  NoDup (columns df) -> NoDup s.*1 ->
  getitem df name = Some c -> declared s name = Some typ ->
  cast_types df s = Some r ->
  (forall (c2 : column) (r2 : DataFrame) n,
     cast_types (setitem df name c2) s = Some r2 ->
     n <> name -> getitem r2 n = getitem r n)
  /\ (forall (l : list value) (i : nat) v,
        c = ColObject l -> l !! i = Some v -> cell_numeric v = NNull ->
        let cells := (fun v => number_float (cell_numeric v)) <$> l in
        (typ = txt "bigint" \/ typ = txt "int" ->
         getitem r name = Some (ColFloat F64 cells))
        /\ (typ = txt "double" ->
            getitem r name = Some (ColFloat F64 cells)
            \/ getitem r name
               = Some (ColFloat F32 ((fun o => o ≫= float_as_f32) <$> cells)))
        /\ (typ = txt "bigint" \/ typ = txt "int" \/ typ = txt "double" ->
            exists c', getitem r name = Some c' /\ values c' !! i = Some VNaN))
  /\ (typ = txt "date" \/ typ = txt "timestamp" ->
      forall (ts : list (option timestamp)) (i : nat),
        to_datetime c = Some ts -> ts !! i = Some None ->
        exists c', getitem r name = Some c' /\ values c' !! i = Some VNaN).
Proof.
  intros Hdf Hs Hget Hdecl Hcast.
  destruct (cast_types_getitem df r s name typ c Hdf Hs Hget Hdecl Hcast)
    as (c' & Hc' & Hr).
  split; [|split].
  - intros c2 r2 n Hcast2 Hn.
    eapply (cast_types_other_columns s name); [|exact Hcast2|exact Hcast|exact Hn].
    intros n' Hn'. rewrite getitem_setitem. by rewrite decide_False.
  - intros l i v -> Hi Hv cells.
    assert (Hnull : cells !! i = Some None)
      by (unfold cells; rewrite list_lookup_fmap, Hi; simpl; by rewrite Hv).
    assert (Hint : typ = txt "bigint" \/ typ = txt "int" ->
                   getitem r name = Some (ColFloat F64 cells)).
    { intros Htyp. rewrite (cast_column_integer typ _ Htyp) in Hc'.
      rewrite (to_numeric_null l i v Hi Hv) in Hc'. unfold cells. congruence. }
    assert (Hdouble : typ = txt "double" ->
              getitem r name = Some (ColFloat F64 cells)
              \/ getitem r name
                 = Some (ColFloat F32 ((fun o => o ≫= float_as_f32) <$> cells))).
    { intros ->. rewrite cast_column_double in Hc'.
      destruct (to_numeric_float_null l i v Hi Hv) as [H64 | H32]; unfold cells.
      - left. rewrite H64 in Hc'. congruence.
      - right. rewrite H32 in Hc'. congruence. }
    split; [exact Hint|]. split; [exact Hdouble|].
    intros [Htyp | [Htyp | Htyp]].
    + eexists. split; [apply Hint; auto|]. simpl.
      by rewrite list_lookup_fmap, Hnull.
    + eexists. split; [apply Hint; auto|]. simpl.
      by rewrite list_lookup_fmap, Hnull.
    + destruct (Hdouble Htyp) as [H64 | H32]; eexists; (split; [eassumption|]);
        simpl; by rewrite !list_lookup_fmap, Hnull.
  - intros Htyp ts i Hts Hi.
    destruct (cast_column_dates typ c Htyp) as [fmt Hfmt].
    rewrite Hfmt, Hts in Hc'. simpl in Hc'. injection Hc' as <-.
    eexists. split; [exact Hr|]. simpl. by rewrite list_lookup_fmap, Hi.
Qed.

Section CasterExamples.
#[local] Existing Instance RefLib.lib.
#[local] Existing Instance RefLib.parsers.

Lemma scenario_NoDup : NoDup (columns Examples.scenario).
Proof. apply (bool_decide_unpack _); vm_compute; exact I. Qed.

Lemma scenario_schema_NoDup : NoDup Examples.scenario_schema.*1.
Proof. apply (bool_decide_unpack _); vm_compute; exact I. Qed.

Lemma scenario_cast_eq :
  cast_types Examples.scenario Examples.scenario_schema = Some Examples.scenario_cast.
Proof. reflexivity. Qed.

Lemma scenario_floors_in_range :
  floors_in_range Examples.scenario Examples.scenario_schema.
Proof.
  intros name c l t Hget Hl Hin.
  unfold Examples.scenario in Hget. cbn [getitem] in Hget.
  repeat case_decide; simplify_eq;
    try (split; intros Hd; by vm_compute in Hd).
  assert (l = [Some (Timestamp 2024 1 1 0 0 0 0); None]) as ->
    by (injection Hl as <-; reflexivity).
  apply elem_of_cons in Hin as [[= ->]|Hin].
  - split; [by intros _|]. intros Hd. by vm_compute in Hd.
  - apply list_elem_of_singleton in Hin. done.
Qed.

Lemma cast_types_idempotent_witness :
  cast_types Examples.scenario_cast Examples.scenario_schema
  = Some Examples.scenario_cast.
Proof.
  destruct (cast_types_idempotent Examples.scenario Examples.scenario_cast
              Examples.scenario_schema scenario_NoDup scenario_schema_NoDup
              scenario_cast_eq) as (_ & _ & Hdates).
  exact (Hdates to_datetime_valid reads_iso_date reads_iso_datetime
           scenario_floors_in_range).
Defined.

(** C7, as stated, fails, on a schema that declares no column twice and on
    one that does.  An instant of 1677-09-21 is written [1677-09-21] by the
    first cast, a date before the range of datetime64[ns], and the second cast
    makes it null.  Under a schema that declares [n] bigint and then date, the
    string [5] is read as a number and then as nanoseconds since 1970 and
    written [1970-01-01], which the second cast reads as a number: null. *)
Lemma cast_types_twice_counterexample :
  ~ (forall (df r : DataFrame) (s : schema),
       NoDup (columns df) -> NoDup s.*1 ->
       cast_types df s = Some r -> cast_types r s = Some r)
  /\ ~ (forall (df r : DataFrame) (s : schema),
          NoDup (columns df) -> floors_in_range df s ->
          cast_types df s = Some r -> cast_types r s = Some r).
Proof.
  split; intros H.
  - assert (Hdf : NoDup (columns Examples.first_day))
      by (apply (bool_decide_unpack _); vm_compute; exact I).
    assert (Hs : NoDup Examples.first_day_schema.*1)
      by (apply (bool_decide_unpack _); vm_compute; exact I).
    specialize (H Examples.first_day Examples.first_day_cast
                  Examples.first_day_schema Hdf Hs eq_refl).
    assert (Hagain : cast_types Examples.first_day_cast Examples.first_day_schema
                     = Some Examples.first_day_recast) by reflexivity.
    rewrite Hagain in H. discriminate H.
  - assert (Hdf : NoDup (columns Examples.twice))
      by (apply (bool_decide_unpack _); vm_compute; exact I).
    assert (Hrange : floors_in_range Examples.twice Examples.twice_schema).
    { intros name c l t Hget _ _.
      unfold Examples.twice in Hget. cbn [getitem] in Hget.
      case_decide; [|done]. subst name.
      split; intros Hd; by vm_compute in Hd. }
    specialize (H Examples.twice Examples.twice_cast Examples.twice_schema
                  Hdf Hrange eq_refl).
    assert (Hagain : cast_types Examples.twice_cast Examples.twice_schema
                     = Some Examples.twice_recast) by reflexivity.
    rewrite Hagain in H. discriminate H.
Qed.

Lemma cast_types_column_local_witness :
  getitem Examples.scenario_cast (txt "id") = Some (ColFloat F64 [Some 1; None])
  /\ (forall (c2 : column) (r2 : DataFrame) n,
        cast_types (setitem Examples.scenario (txt "id") c2) Examples.scenario_schema
        = Some r2 ->
        n <> txt "id" -> getitem r2 n = getitem Examples.scenario_cast n)
  /\ exists c', getitem Examples.scenario_cast (txt "date_posted") = Some c'
                /\ values c' !! 1%nat = Some VNaN.
Proof.
  destruct (cast_types_column_local Examples.scenario Examples.scenario_cast
              Examples.scenario_schema (txt "id") (txt "bigint")
              (ColObject [VStr (txt "1"); VStr (txt "x")])
              scenario_NoDup scenario_schema_NoDup eq_refl eq_refl
              scenario_cast_eq) as (Hother & Hnull & _).
  destruct (cast_types_column_local Examples.scenario Examples.scenario_cast
              Examples.scenario_schema (txt "date_posted") (txt "date")
              (ColObject [VStr (txt "2024-01-01"); VStr (txt "bad")])
              scenario_NoDup scenario_schema_NoDup eq_refl eq_refl
              scenario_cast_eq) as (_ & _ & Hdate).
  split; [|split; [exact Hother|]].
  - destruct (Hnull [VStr (txt "1"); VStr (txt "x")] 1%nat (VStr (txt "x"))
                eq_refl eq_refl eq_refl) as (Hint & _).
    exact (Hint (or_introl eq_refl)).
  - exact (Hdate (or_introl eq_refl)
             [Some (Timestamp 2024 1 1 0 0 0 0); None] 1%nat eq_refl eq_refl).
Defined.

(** C4, as stated, fails: [scenario] and [scenario_id_parseable] differ in the
    second cell of [id] only, and after the cast the first cell of [id] is the
    float 1.0 in the one and the int 1 in the other. *)
Lemma cast_types_cell_counterexample :
  ~ (forall (df1 df2 r1 r2 : DataFrame) (s : schema) name (i : nat),
       (forall n c1 c2 (j : nat),
          getitem df1 n = Some c1 -> getitem df2 n = Some c2 ->
          n <> name \/ j <> i -> values c1 !! j = values c2 !! j) ->
       cast_types df1 s = Some r1 -> cast_types df2 s = Some r2 ->
       forall n c1 c2 (j : nat),
         getitem r1 n = Some c1 -> getitem r2 n = Some c2 ->
         n <> name \/ j <> i -> values c1 !! j = values c2 !! j).
Proof.
  intros H.
  assert (Hdiff : forall n c1 c2 (j : nat),
            getitem Examples.scenario n = Some c1 ->
            getitem Examples.scenario_id_parseable n = Some c2 ->
            n <> txt "id" \/ j <> 1%nat -> values c1 !! j = values c2 !! j).
  { intros n c1 c2 j. unfold Examples.scenario, Examples.scenario_id_parseable.
    cbn [getitem]. repeat case_decide; try done;
      intros [= <-] [= <-] [Hn | Hj]; try done.
    destruct j as [|[|j]]; done. }
  specialize (H Examples.scenario Examples.scenario_id_parseable
                Examples.scenario_cast Examples.scenario_id_parseable_cast
                Examples.scenario_schema (txt "id") 1%nat Hdiff eq_refl eq_refl
                (txt "id") _ _ 0%nat eq_refl eq_refl
                (or_intror (Nat.neq_0_succ 0))).
  discriminate H.
Qed.

End CasterExamples.

(** ** Serializer *)

Section SerializerFacts.
Context `{L : Lib}.

(** When the loop runs to its end it has written one line for each row, the
    row as [json.dumps] renders it, each closed by a line feed. *)
Lemma write_rows_lines (rows : list (list (text * value))) :
  forall out out',
  write_rows rows out = (out', true) ->
  exists lines,
    mapM (fun r => dumps (to_dict r)) rows = Some lines
    /\ out' = out ++ mjoin ((fun line => line ++ [10%N]) <$> lines).
Proof.
  induction rows as [|r rows IH]; intros out out'; simpl.
  - intros [= <-]. exists []. split; [done|]. simpl. by rewrite app_nil_r.
  - destruct (dumps (to_dict r)) as [line|]; [|done]. simpl.
    intros H. destruct (IH _ _ H) as (lines & -> & ->).
    exists (line :: lines). split; [done|]. simpl. by rewrite <- !app_assoc.
Qed.

Lemma export_to_ndjson_lines (df : DataFrame) out :
  export_to_ndjson df = (out, true) ->
  exists lines,
    mapM (fun r => dumps (to_dict r)) (iterrows df) = Some lines
    /\ length lines = nrows df
    /\ out = mjoin ((fun line => line ++ [10%N]) <$> lines).
Proof.
  intros H. destruct (write_rows_lines _ _ _ H) as (lines & Hl & ->).
  exists lines. split; [done|]. split; [|done].
  apply length_mapM in Hl. rewrite <- Hl. unfold iterrows.
  by rewrite length_fmap, length_seq.
Qed.

(** A frame without rows gives an empty file. *)
Lemma export_to_ndjson_empty (df : DataFrame) :
  nrows df = 0%nat -> export_to_ndjson df = ([], true).
Proof. intros H. unfold export_to_ndjson, iterrows. by rewrite H. Qed.

(** The encoder writes a float NaN as the token [NaN], which no JSON value
    starts with. *)
Lemma json_rejects_nan fuel :
  Json.value fuel (sq "{'id': NaN}") = None.
Proof.
  destruct fuel as [|[|[|fuel]]]; reflexivity.
Qed.

End SerializerFacts.

(** C5 fails on the script: a frame of one row whose cell is NaN, as the cast
    leaves for a cell that does not parse, is written as one line, and the
    line is not a JSON text. *)
Theorem export_to_ndjson_nan `{L : Lib} :
  export_to_ndjson [(txt "id", ColFloat F64 [None])]
  = (sq "{'id': NaN}" ++ [10%N], true)
  /\ Json.is_object (sq "{'id': NaN}") = false
  /\ forall fuel, Json.value fuel (sq "{'id': NaN}") = None.
Proof.
  split; [reflexivity|]. split; [reflexivity|]. apply json_rejects_nan.
Qed.

Section SerializerExamples.
#[local] Existing Instance RefLib.lib.
#[local] Existing Instance RefLib.parsers.

(** C2, as the script has it. For the schema and the two rows of the
    scenario, the cast gives a float64 [id] column holding 1.0 and a null, an
    integer [views] column and a [date_posted] column holding the date as text
    and a null; the serializer then writes two lines, the first being
    [{"id": 1.0, "views": 10, "date_posted": "2024-01-01"}], the second
    rendering the row whose [id] and [date_posted] are null and whose [views]
    is 20. *)
Theorem scenario_output :
  cast_types Examples.scenario Examples.scenario_schema = Some Examples.scenario_cast
  /\ iterrows Examples.scenario_cast = Examples.scenario_rows
  /\ exists second,
       (r ← Examples.scenario_rows !! 1%nat; dumps (to_dict r)) = Some second
       /\ export_to_ndjson Examples.scenario_cast
          = (Examples.scenario_first_line ++ [10%N] ++ second ++ [10%N], true)
       /\ 10%N ∉ second.
Proof.
  split; [reflexivity|]. split; [reflexivity|].
  exists (sq "{'id': NaN, 'views': 20, 'date_posted': NaN}").
  split; [reflexivity|]. split; [reflexivity|].
  apply (bool_decide_unpack _). vm_compute. exact I.
Qed.

(** The first line of the scenario is a JSON object. *)
Lemma scenario_first_line_json :
  Json.is_object Examples.scenario_first_line = true.
Proof. reflexivity. Qed.

(** C2, as stated, fails: what is written differs from the two lines of the
    specification from its seventh character on. *)
Lemma scenario_lines_counterexample :
  ~ (exists d, cast_types Examples.scenario Examples.scenario_schema = Some d
               /\ export_to_ndjson d = (Examples.scenario_lines, true)).
Proof.
  intros (d & Hd & He). rewrite scenario_cast_eq in Hd. injection Hd as <-.
  apply (f_equal (fun p => p.1 !! 6%nat)) in He. discriminate He.
Qed.

End SerializerExamples.

(** ** The run *)

Section RunFacts.
Import Orchestrator.
Local Open Scope run_scope.
Context `{P : Parsers}.
Variable cfg : Config.
Variable env : Env.

Lemma appends_ret {A} (a : A) : appends (ret a).
Proof. intros w. exists []. simpl. by rewrite app_nil_r. Qed.

Lemma appends_raise {A} : appends (@raise A).
Proof. intros w. exists []. simpl. by rewrite app_nil_r. Qed.

Lemma appends_emit e : appends (emit e).
Proof. intros w. by exists [e]. Qed.

Lemma appends_bind {A B} (m : M A) (k : A -> M B) :
  appends m -> (forall a, appends (k a)) -> appends (bind m k).
Proof.
  intros Hm Hk w. unfold bind. destruct (Hm w) as (evs & Hevs).
  destruct (m w) as [w1 [a|]]; simpl in *.
  - destruct (Hk a w1) as (evs' & Hevs'). exists (evs ++ evs').
    by rewrite Hevs', Hevs, app_assoc.
  - by exists evs.
Qed.

Lemma appends_try {A} (m h : M A) : appends m -> appends h -> appends (try m h).
Proof.
  intros Hm Hh w. unfold try. destruct (Hm w) as (evs & Hevs).
  destruct (m w) as [w1 [a|]]; simpl in *.
  - by exists evs.
  - destruct (Hh w1) as (evs' & Hevs'). exists (evs ++ evs').
    by rewrite Hevs', Hevs, app_assoc.
Qed.

Lemma appends_lift {A} (o : option A) : appends (lift o).
Proof. destruct o; [apply appends_ret|apply appends_raise]. Qed.

Lemma appends_guard b : appends (guard b).
Proof. destruct b; [apply appends_ret|apply appends_raise]. Qed.

(** A step that does not touch the trace. *)
Lemma appends_silent {A} (m : M A) :
  (forall w, trace (m w).1 = trace w) -> appends m.
Proof. intros H w. exists []. by rewrite H, app_nil_r. Qed.

Lemma appends_write_file filename df : appends (write_file filename df).
Proof.
  apply appends_bind; [apply appends_emit|]. intros _.
  apply appends_silent. intros w. by destruct (export_to_ndjson df).
Qed.

Lemma appends_os_remove filename : appends (os_remove filename).
Proof.
  apply appends_bind; [apply appends_emit|]. intros _.
  apply appends_silent. intros w. by destruct (files w !! filename).
Qed.

Lemma appends_upload_file filename key : appends (upload_file env filename key).
Proof.
  apply appends_bind; [apply appends_emit|]. intros _.
  apply appends_bind; [apply appends_guard|]. intros _.
  apply appends_silent. intros w. by destruct (files w !! filename).
Qed.

Lemma appends_subir filename table : appends (subir_a_s3_json cfg env filename table).
Proof.
  apply appends_bind; [apply appends_guard|]. intros _.
  apply appends_bind; [apply appends_lift|]. intros key.
  apply appends_try; [|apply appends_emit].
  apply appends_bind; [apply appends_upload_file|]. intros _. apply appends_emit.
Qed.

Lemma appends_export_table table : appends (export_table cfg env table).
Proof.
  apply appends_try; [|apply appends_emit].
  apply appends_bind; [apply appends_emit|]. intros _.
  apply appends_bind.
  { apply appends_bind; [apply appends_emit|]. intros _. apply appends_lift. }
  intros df. destruct (negb (empty df)); [|apply appends_emit].
  apply appends_bind; [apply appends_emit|]. intros _.
  apply appends_bind; [apply appends_emit|]. intros _.
  apply appends_bind; [apply appends_lift|]. intros df'.
  apply appends_bind; [apply appends_write_file|]. intros _.
  apply appends_bind; [apply appends_subir|]. intros _.
  apply appends_os_remove.
Qed.

Lemma returns_emit e : returns (emit e).
Proof. intros w. unfold emit. eauto. Qed.

Lemma returns_try {A} (m h : M A) : returns h -> returns (try m h).
Proof.
  intros Hh w. unfold try. destruct (m w) as [w1 [a|]]; [eauto|apply Hh].
Qed.

(** The [except] clause of the loop: whatever a stage does, the turn of the
    loop for a table returns. *)
Lemma returns_export_table table : returns (export_table cfg env table).
Proof. apply returns_try, returns_emit. Qed.


Lemma appends_export_tables tables : appends (export_tables cfg env tables).
Proof.
  induction tables as [|[table folder] tables IH]; simpl.
  - apply appends_ret.
  - apply appends_bind; [apply appends_export_table|done].
Qed.

Lemma returns_bind {A B} (m : M A) (k : A -> M B) :
  returns m -> (forall a, returns (k a)) -> returns (bind m k).
Proof.
  intros Hm Hk w. unfold bind. destruct (Hm w) as (w1 & a & ->). apply Hk.
Qed.

Lemma returns_limpiar_bucket : returns (limpiar_bucket env).
Proof.
  apply returns_bind; [apply returns_emit|]. intros _.
  apply returns_try, returns_emit.
Qed.





(** Once the file is written and the client and the key are made, the file
    is gone after the turn, whether the upload returned or raised. *)
Lemma export_table_cleanup table df df' body key w :
  read_sql env table = Some df -> empty df = false ->
  cast_types (clean_dataframe df) (default [] (lookup_dict (SCHEMAS cfg) table))
  = Some df' ->
  export_to_ndjson df' = (body, true) ->
  client_publish env table = true ->
  s3_key cfg table (now env table) = Some key ->
  files (export_table cfg env table w).1 !! (table ++ txt ".json") = None.
Proof.
  intros Hread Hempty Hcast Hexport Hclient Hkey.
  unfold export_table, obtener_datos_tabla, try, bind, emit, lift.
  simpl. rewrite Hread. simpl. rewrite Hempty. simpl. rewrite Hcast. simpl.
  unfold write_file, bind, emit. simpl. rewrite Hexport. simpl.
  unfold subir_a_s3_json, bind, guard, lift, try. simpl.
  rewrite Hclient. simpl. rewrite Hkey. simpl.
  unfold upload_file, bind, guard, emit. simpl.
  destruct (upload_file_ok env key); simpl;
    rewrite ?lookup_insert_eq; simpl;
    unfold os_remove, bind, emit; simpl;
    rewrite !lookup_insert_eq; simpl; apply lookup_delete_eq.
Qed.

End RunFacts.

Section RunClaims.
Import Orchestrator.
Context `{P : Parsers}.

Lemma lookup_put_object (b : list (text * text)) key body :
  lookup_dict (put_object b key body) key = Some body.
Proof.
  induction b as [|[k x] b IH]; simpl.
  - by rewrite decide_True.
  - destruct (decide (k = key)) as [->|Hne]; simpl.
    + by rewrite decide_True.
    + by rewrite decide_False.
Qed.

(** [upload_file] on a file that is there. *)
Lemma upload_file_run (env : Env) filename key body (w : World) :
  files w !! filename = Some body ->
  upload_file env filename key w
  = if upload_file_ok env key
    then ({| files := files w; bucket := put_object (bucket w) key body;
             trace := trace w ++ [Upload filename key] |}, Some tt)
    else ({| files := files w; bucket := bucket w;
             trace := trace w ++ [Upload filename key] |}, None).
Proof.
  intros Hfile. unfold upload_file, bind, guard, emit.
  destruct (upload_file_ok env key); cbn [ret raise files bucket trace];
    [by rewrite Hfile|done].
Qed.

End RunClaims.


(** C9. The key of the published object: for a declared table, the object
    [subir_a_s3_json] uploads goes under the table's folder, followed by the
    table's name, an underscore, the clock reading at that moment written
    [YYYYMMDD_HHMMSS], and [.json]; when the upload returns the bucket holds
    the file under that key. *)
Theorem subir_a_s3_json_key `{P : Parsers} (cfg : Orchestrator.Config)
    (env : Orchestrator.Env) filename table folder body
    (w : Orchestrator.World) :
  Orchestrator.lookup_dict (Orchestrator.TABLES cfg) table = Some folder ->
  Orchestrator.client_publish env table = true ->
  Orchestrator.files w !! filename = Some body ->
  let t := Orchestrator.now env table in
  let key :=
    folder ++ table ++ txt "_"
    ++ (pad4 (year t) ++ pad2 (month t) ++ pad2 (day t) ++ txt "_"
        ++ pad2 (hour t) ++ pad2 (minute t) ++ pad2 (second t))
    ++ txt ".json" in
  exists w',
    Orchestrator.subir_a_s3_json cfg env filename table w = (w', Some tt)
    /\ Orchestrator.trace w'
       = Orchestrator.trace w
         ++ [ Orchestrator.Upload filename key;
              if Orchestrator.upload_file_ok env key
              then Orchestrator.SayUploaded key else Orchestrator.SayUploadError ]
    /\ (Orchestrator.upload_file_ok env key = true ->
        Orchestrator.lookup_dict (Orchestrator.bucket w') key = Some body).
Proof.
  intros Hfolder Hclient Hfile t key.
  unfold Orchestrator.subir_a_s3_json, Orchestrator.s3_key,
    Orchestrator.strftime_compact.
  rewrite Hclient, Hfolder. fold t. 
  cbn [Orchestrator.bind Orchestrator.guard Orchestrator.lift Orchestrator.ret
       mbind option_bind].
  fold key.
  unfold Orchestrator.try, Orchestrator.bind.
  rewrite (upload_file_run env filename key body w Hfile).
  destruct (Orchestrator.upload_file_ok env key) eqn:Hok.
  - eexists. split; [reflexivity|].
    cbn [Orchestrator.trace Orchestrator.bucket Orchestrator.emit fst].
    split; [by rewrite <- app_assoc|]. intros _. apply lookup_put_object.
  - eexists. split; [reflexivity|].
    cbn [Orchestrator.trace Orchestrator.bucket Orchestrator.emit fst].
    split; [by rewrite <- app_assoc|done].
Qed.

Section RunExamples.
Import Orchestrator.
#[local] Existing Instance RefLib.lib.
#[local] Existing Instance RefLib.parsers.


Lemma subir_a_s3_json_key_witness :
  exists w',
    subir_a_s3_json config Examples.env_first_fails (txt "dashboard_data.json")
      (txt "dashboard_data")
      {| files := {[ txt "dashboard_data.json" := txt "{}" ]}; bucket := [];
         trace := [] |}
    = (w', Some tt)
    /\ lookup_dict (bucket w')
         (txt "dashboard_data/dashboard_data_20240105_100000.json")
       = Some (txt "{}").
Proof.
  assert (Hfile : files {| files := {[ txt "dashboard_data.json" := txt "{}" ]};
                           bucket := []; trace := [] |}
                  !! txt "dashboard_data.json" = Some (txt "{}"))
    by (vm_compute; reflexivity).
  destruct (subir_a_s3_json_key config Examples.env_first_fails
              (txt "dashboard_data.json") (txt "dashboard_data")
              (txt "dashboard_data/") (txt "{}") _ eq_refl eq_refl Hfile)
    as (w' & Hrun & _ & Hbucket).
  exists w'. split; [exact Hrun|]. exact (Hbucket eq_refl).
Defined.

(** C8 fails on the script. When the storage client cannot be made,
    [subir_a_s3_json] raises before its [try]; when a column holds timestamps,
    [json.dumps] raises in [export_to_ndjson] after the file was opened.  In
    both runs [os.remove] is skipped and the file of the table is still there
    at the end. *)
Theorem temporary_file_left :
  files (main config Examples.env_no_client nothing).1
    !! txt "dashboard_data.json" = Some (sq "{'id': 7}" ++ [10%N])
  /\ files (main config Examples.env_timestamps nothing).1
       !! txt "dashboard_data.json" = Some [].
Proof. split; vm_compute; reflexivity. Qed.

End RunExamples.

(** ** The frame as a shared object *)

Section InPlaceFacts.
Context `{P : Parsers}.

Lemma in_place_clean_step (h : InPlace.heap) (df : InPlace.ref) d col :
  h !! df = Some d ->
  InPlace.clean_step df h col = <[df := clean_step d col]> h.
Proof.
  intros Hd. unfold InPlace.clean_step, InPlace.load, InPlace.store, clean_step.
  rewrite Hd. simpl. destruct (getitem d col); [done|].
  symmetry. by apply insert_id.
Qed.

Lemma in_place_clean_fold (cols : list text) :
  forall (h : InPlace.heap) (df : InPlace.ref) d,
  h !! df = Some d ->
  foldl (InPlace.clean_step df) h cols = <[df := foldl clean_step d cols]> h.
Proof.
  induction cols as [|col cols IH]; intros h df d Hd; simpl.
  - symmetry. by apply insert_id.
  - rewrite (in_place_clean_step h df d col Hd).
    rewrite (IH _ df (clean_step d col)) by apply lookup_insert_eq.
    apply insert_insert_eq.
Qed.

Lemma in_place_cast_types (s : schema) :
  forall (h : InPlace.heap) (df : InPlace.ref) d d',
  h !! df = Some d -> cast_types d s = Some d' ->
  InPlace.cast_types h df s = (<[df := d']> h, Some df).
Proof.
  induction s as [|col s IH]; intros h df d d' Hd; simpl.
  - intros [= <-]. f_equal. symmetry. by apply insert_id.
  - unfold cast_step, InPlace.load, InPlace.store. rewrite Hd. simpl.
    destruct (getitem d col.1) as [c|]; simpl.
    + destruct (cast_column col.2 c) as [c'|]; simpl; [|done].
      intros Hcast.
      rewrite (IH _ df (setitem d col.1 c') d') by (apply lookup_insert_eq || done).
      by rewrite insert_insert_eq.
    + by apply IH.
Qed.

End InPlaceFacts.

(** C10. Sanitize and cast work on the frame they are given: the reference
    they return is the one they received, and after the call the object it
    refers to holds the rewritten columns, so every other reference to that
    object sees the transformed frame and not the one that was passed. *)
Theorem transforms_in_place `{P : Parsers}
    (h : InPlace.heap) (df : InPlace.ref) (d d' : DataFrame) (s : schema) :
  h !! df = Some d ->
  cast_types d s = Some d' ->
  InPlace.clean_dataframe h df = (<[df := clean_dataframe d]> h, df)
  /\ InPlace.cast_types h df s = (<[df := d']> h, Some df)
  /\ forall alias : InPlace.ref,
       alias = df ->
       (InPlace.clean_dataframe h df).1 !! alias = Some (clean_dataframe d)
       /\ (InPlace.cast_types h df s).1 !! alias = Some d'.
Proof.
  intros Hd Hcast.
  assert (Hclean : InPlace.clean_dataframe h df = (<[df := clean_dataframe d]> h, df)).
  { pose proof (in_place_clean_fold (columns (select_dtypes d)) h df d Hd) as Hfold.
    unfold InPlace.clean_dataframe, DataFrame in *. rewrite Hd. simpl.
    by rewrite Hfold. }
  pose proof (in_place_cast_types s h df d d' Hd Hcast) as Hcast'.
  split; [exact Hclean|]. split; [exact Hcast'|].
  intros alias ->. rewrite Hclean, Hcast'. simpl.
  split; apply lookup_insert_eq.
Qed.

Section InPlaceExamples.
#[local] Existing Instance RefLib.lib.
#[local] Existing Instance RefLib.parsers.

Lemma transforms_in_place_witness :
  (InPlace.clean_dataframe (<[0%nat := Examples.scenario]> ∅) 0%nat).2 = 0%nat
  /\ (InPlace.cast_types (<[0%nat := Examples.scenario]> ∅) 0%nat
       Examples.scenario_schema).1 !! 0%nat
     = Some Examples.scenario_cast.
Proof.
  destruct (transforms_in_place (<[0%nat := Examples.scenario]> ∅) 0%nat
              Examples.scenario Examples.scenario_cast Examples.scenario_schema
              (lookup_insert_eq _ _ _) scenario_cast_eq)
    as (Hclean & Hcast & Halias).
  split; [by rewrite Hclean|]. exact (proj2 (Halias 0%nat eq_refl)).
Defined.

End InPlaceExamples.

(** * Further properties of the script *)

(** ** [clean_dataframe] *)

Section SanitizerMore.
Context `{P : Parsers}.

Lemma allowed_not_break_char c :
  allowed c = true -> c <> 9%N /\ c <> 10%N /\ c <> 13%N.
Proof.
  intros H. apply allowed_not_break in H. revert H. unfold is_break.
  destruct (N.eqb_spec c 13), (N.eqb_spec c 10), (N.eqb_spec c 9); simpl;
    intros; try discriminate; auto.
Qed.

Lemma is_object_or_bool_clean_entry (nc : text * column) :
  is_object_or_bool (clean_entry nc).2 = is_object_or_bool nc.2.
Proof.
  destruct nc as [n c]. unfold clean_entry. simpl.
  by destruct (is_object_or_bool c) eqn:H.
Qed.

Lemma col_length_clean_entry (nc : text * column) :
  col_length (clean_entry nc).2 = col_length nc.2.
Proof.
  destruct nc as [n c]. unfold clean_entry. simpl.
  destruct c; simpl; try done; by rewrite !length_fmap.
Qed.

End SanitizerMore.

(** X1. After [clean_dataframe] every cell of every column of dtype object or
    bool is a string, and every character of it is a printable ASCII
    character or one of the six accented letters of the pattern: no cell
    holds a carriage return, a line feed or a tab. *)
Theorem clean_dataframe_charset `{P : Parsers} (df : DataFrame) name c v :
  NoDup (columns df) ->
  getitem (clean_dataframe df) name = Some c ->
  is_object_or_bool c = true ->
  v ∈ values c ->
  exists s, v = VStr s
            /\ Forall (fun ch => allowed ch = true
                                 /\ ch <> 9%N /\ ch <> 10%N /\ ch <> 13%N) s.
Proof.
  intros Hnd Hget Hob Hv. rewrite clean_dataframe_fmap in Hget by done.
  unfold clean_entry in Hget. rewrite getitem_fmap in Hget.
  destruct (getitem df name) as [c0|]; [|done]. simpl in Hget.
  injection Hget as <-.
  destruct (is_object_or_bool c0) eqn:Hob0; [|by rewrite Hob0 in Hob].
  unfold clean_column in Hv. simpl in Hv.
  apply list_elem_of_fmap in Hv as (s & -> & _).
  eexists. split; [done|].
  eapply Forall_impl; [apply clean_text_allowed|].
  intros ch Hch. split; [done|]. by apply allowed_not_break_char.
Qed.

(** X2. [clean_dataframe] keeps the shape of the frame: the labels and their
    order, the number of rows, the length of every column, and which columns
    are of dtype object or bool (a bool column becomes an object column). *)
Theorem clean_dataframe_shape `{P : Parsers} (df : DataFrame) :
  NoDup (columns df) ->
  columns (clean_dataframe df) = columns df
  /\ nrows (clean_dataframe df) = nrows df
  /\ empty (clean_dataframe df) = empty df
  /\ Forall2 (fun nc nc' => col_length nc'.2 = col_length nc.2
                            /\ (is_object_or_bool nc.2 = true ->
                                exists l, nc'.2 = ColObject l))
       df (clean_dataframe df).
Proof.
  intros Hnd. rewrite clean_dataframe_fmap by done.
  assert (Hrows : nrows (clean_entry <$> df) = nrows df).
  { destruct df as [|[n c] df]; [done|]. apply (col_length_clean_entry (n, c)). }
  split; [unfold clean_entry; apply fmap_snd_columns|].
  split; [done|]. split.
  - unfold empty. rewrite Hrows. by destruct df.
  - apply Forall2_fmap_r, Forall_Forall2_diag, Forall_forall.
    intros [n c] _. split; [apply col_length_clean_entry|].
    unfold clean_entry. simpl. intros ->. unfold clean_column. eauto.
Qed.

(** X3. The strings the two replacements leave as they are are exactly those
    made of allowed characters, and the replacements never lengthen a
    string. *)
Theorem clean_text_unchanged (s : text) :
  (clean_text s = s <-> Forall (fun c => allowed c = true) s)
  /\ (length (clean_text s) <= length s)%nat.
Proof.
  split; [split|].
  - intros <-. apply clean_text_allowed.
  - apply clean_text_fixed.
  - unfold clean_text, remove_disallowed, replace_breaks.
    etrans; [apply length_filter|]. by rewrite length_fmap.
Qed.

Section SanitizerMoreExamples.
#[local] Existing Instance RefLib.lib.
#[local] Existing Instance RefLib.parsers.

Lemma notes_NoDup : NoDup (columns Examples.notes).
Proof. apply (bool_decide_unpack _); vm_compute; exact I. Qed.

Lemma clean_dataframe_charset_witness :
  exists s, VStr (txt "a b") = VStr s
            /\ Forall (fun ch => allowed ch = true
                                 /\ ch <> 9%N /\ ch <> 10%N /\ ch <> 13%N) s.
Proof.
  apply (clean_dataframe_charset Examples.notes (txt "note")
           (ColObject [VStr (txt "None"); VStr (txt "a b")]) (VStr (txt "a b"))
           notes_NoDup eq_refl eq_refl).
  apply list_elem_of_further, list_elem_of_here.
Defined.

Lemma clean_dataframe_shape_witness :
  columns (clean_dataframe Examples.notes) = columns Examples.notes
  /\ nrows (clean_dataframe Examples.notes) = 2%nat.
Proof.
  destruct (clean_dataframe_shape Examples.notes notes_NoDup) as (Hc & Hr & _).
  split; [exact Hc|]. rewrite Hr. reflexivity.
Defined.

End SanitizerMoreExamples.

(** ** [cast_types] *)

(** X4. [cast_types] keeps the labels of the frame and their order (a column
    the schema declares and the frame does not have is skipped, nothing is
    added), and leaves every column the schema does not declare exactly as it
    was. *)
Theorem cast_types_shape `{P : Parsers} (s : schema) :
  forall df r : DataFrame,
  cast_types df s = Some r ->
  columns r = columns df
  /\ forall name, name ∉ s.*1 -> getitem r name = getitem df name.
Proof.
  induction s as [|[n typ] s IH]; intros df r; simpl.
  - by intros [= <-].
  - destruct (cast_step df (n, typ)) as [d|] eqn:Hstep; [|done]. simpl.
    intros Hcast. destruct (IH _ _ Hcast) as [Hcols Hother]. split.
    + rewrite Hcols. by eapply cast_step_columns.
    + intros name [Hne Hnotin]%not_elem_of_cons.
      rewrite Hother by done. by eapply cast_step_other.
Qed.

Section CasterMoreExamples.
#[local] Existing Instance RefLib.lib.
#[local] Existing Instance RefLib.parsers.

Lemma cast_types_shape_witness :
  columns Examples.scenario_cast = columns Examples.scenario
  /\ forall name, name ∉ Examples.scenario_schema.*1 ->
       getitem Examples.scenario_cast name = getitem Examples.scenario name.
Proof.
  exact (cast_types_shape Examples.scenario_schema Examples.scenario
           Examples.scenario_cast scenario_cast_eq).
Defined.

End CasterMoreExamples.

(** ** [export_to_ndjson] *)

Section SerializerMore.
Context `{L : Lib}.

Lemma write_rows_raises (rows : list (list (text * value))) :
  forall out out',
  write_rows rows out = (out', false) ->
  exists (k : nat) r lines,
    rows !! k = Some r /\ dumps (to_dict r) = None
    /\ mapM (fun r => dumps (to_dict r)) (take k rows) = Some lines
    /\ out' = out ++ mjoin ((fun line => line ++ [10%N]) <$> lines).
Proof.
  induction rows as [|r rows IH]; intros out out'; simpl; [done|].
  destruct (dumps (to_dict r)) as [line|] eqn:Hr.
  - intros H. destruct (IH _ _ H) as (k & r' & lines & Hk & Hr' & Hl & ->).
    exists (S k), r', (line :: lines). split; [done|]. split; [done|].
    split; [simpl; by rewrite Hr, Hl|]. simpl. by rewrite <- !app_assoc.
  - intros [= <-]. exists 0%nat, r, []. split; [done|]. split; [done|].
    split; [done|]. simpl. by rewrite app_nil_r.
Qed.

Lemma is_hex_hex_digit d : Json.is_hex (hex_digit d) = true.
Proof.
  unfold Json.is_hex, hex_digit, is_digit.
  pose proof (Z.mod_pos_bound d 16 ltac:(lia)).
  destruct (Z.ltb_spec (d mod 16) 10).
  - apply orb_true_intro. left. apply orb_true_intro. left.
    apply andb_true_intro. split; apply N.leb_le; lia.
  - apply orb_true_intro. right.
    apply andb_true_intro. split; apply N.leb_le; lia.
Qed.

(** What the encoder writes for one character is read back as one character
    of a string. *)
Lemma string_body_escape c tail :
  Json.string_body (escape c ++ tail) = Json.string_body tail.
Proof.
  unfold escape.
  destruct (N.eqb c 34) eqn:H34; [reflexivity|].
  destruct (N.eqb c 92) eqn:H92; [reflexivity|].
  destruct (N.eqb c 10) eqn:H10; [reflexivity|].
  destruct (N.eqb c 13) eqn:H13; [reflexivity|].
  destruct (N.eqb c 9) eqn:H9; [reflexivity|].
  destruct (N.eqb c 8) eqn:H8; [reflexivity|].
  destruct (N.eqb c 12) eqn:H12; [reflexivity|].
  destruct (N.ltb c 32) eqn:H32.
  - change (txt "\u00") with [92%N; 117%N; 48%N; 48%N]. cbn [app].
    cbn [Json.string_body]. change (N.eqb 92 34) with false.
    change (N.eqb 92 92) with true. change (Json.is_escape 117) with false.
    change (N.eqb 117 117) with true. change (Json.is_hex 48) with true.
    cbn [andb]. by rewrite !is_hex_hex_digit.
  - cbn [app Json.string_body]. by rewrite H34, H92, H32.
Qed.

Lemma string_body_dumps_str s rest :
  Json.string_body (mjoin (escape <$> s) ++ 34%N :: rest) = Some rest.
Proof.
  induction s as [|c s IH]; [reflexivity|].
  rewrite fmap_cons. cbn [mjoin list_join]. rewrite <- app_assoc.
  by rewrite string_body_escape.
Qed.

End SerializerMore.

(** X7. When [export_to_ndjson] returns, the file holds one line for each row
    of the frame, in the order of the rows: the rendering of the row by
    [json.dumps], closed by one line feed, and nothing else. *)
Theorem export_to_ndjson_row_lines `{L : Lib} (df : DataFrame) out :
  export_to_ndjson df = (out, true) ->
  exists lines,
    length lines = nrows df
    /\ (forall (i : nat) r, iterrows df !! i = Some r ->
          exists line, lines !! i = Some line /\ dumps (to_dict r) = Some line)
    /\ out = mjoin ((fun line => line ++ [10%N]) <$> lines).
Proof.
  intros H. destruct (export_to_ndjson_lines df out H) as (lines & Hl & Hlen & ->).
  exists lines. split; [done|]. split; [|done].
  intros i r Hi. apply mapM_Some_1 in Hl.
  destruct (Forall2_lookup_l _ _ _ _ _ Hl Hi) as (line & Hline & Hd). eauto.
Qed.

(** X8. When [json.dumps] raises on a row, the file is left holding the
    lines of the rows before it and nothing of that row: a file cut short
    always ends at a line boundary. *)
Theorem export_to_ndjson_cut_short `{L : Lib} (df : DataFrame) out :
  export_to_ndjson df = (out, false) ->
  exists (k : nat) r lines,
    (k < nrows df)%nat
    /\ iterrows df !! k = Some r /\ dumps (to_dict r) = None
    /\ mapM (fun r => dumps (to_dict r)) (take k (iterrows df)) = Some lines
    /\ length lines = k
    /\ out = mjoin ((fun line => line ++ [10%N]) <$> lines).
Proof.
  intros H. destruct (write_rows_raises _ _ _ H) as (k & r & lines & Hk & Hr & Hl & ->).
  exists k, r, lines.
  assert (Hlt : (k < nrows df)%nat).
  { apply lookup_lt_Some in Hk. unfold iterrows in Hk.
    by rewrite length_fmap, length_seq in Hk. }
  split; [done|]. split; [done|]. split; [done|]. split; [done|].
  split; [|done]. apply length_mapM in Hl. rewrite <- Hl, length_take.
  unfold iterrows. rewrite length_fmap, length_seq. lia.
Qed.

(** X9. Whatever characters a string holds (quotes, backslashes, line feeds,
    control characters), what the encoder writes for it is a JSON string: the
    recogniser reads it to its closing quote and stops there. *)
Theorem dumps_str_json (s rest : text) (fuel : nat) :
  Json.value (S fuel) (dumps_str s ++ rest) = Some rest.
Proof.
  unfold dumps_str. rewrite <- !app_assoc. cbn [app Json.value].
  change (N.eqb 34 123) with false. change (N.eqb 34 91) with false.
  change (N.eqb 34 34) with true. cbn iota. apply string_body_dumps_str.
Qed.

(** *** Rows of plain values *)

Section PlainRows.
Context `{L : Lib}.

Lemma of_uint_digits u : Forall (fun c => is_digit c = true) (of_uint u).
Proof. induction u; simpl; constructor; done. Qed.

(** The digits of a positive number do not start with a zero. *)
Lemma of_uint_to_uint p :
  exists c ds, of_uint (Pos.to_uint p) = c :: ds
               /\ is_digit c = true /\ N.eqb c 48 = false.
Proof.
  pose proof (of_uint_digits (Pos.to_uint p)) as Hd.
  assert (Hn : Decimal.unorm (Pos.to_uint p) = Pos.to_uint p).
  { rewrite <- (DecimalPos.Unsigned.to_of (Pos.to_uint p)), DecimalPos.Unsigned.of_to. reflexivity. }
  pose proof (DecimalPos.Unsigned.to_uint_nonnil p) as Hnil.
  pose proof (DecimalPos.Unsigned.to_uint_nonzero p) as Hzero.
  destruct (Pos.to_uint p) as [|u|u|u|u|u|u|u|u|u|u] eqn:Hp; [done| |..];
    try (simpl in *; eexists _, _; split; [reflexivity|];
         split; [by apply Forall_cons in Hd as [? _]|reflexivity]).
  exfalso. unfold Decimal.unorm in Hn. simpl in Hn.
  destruct (Decimal.nzhead u) eqn:Hu; try discriminate.
  - congruence.
  - exact (DecimalFacts.nzhead_nonzero _ _ Hu).
Qed.

Lemma skip_digits_app ds rest :
  Forall (fun c => is_digit c = true) ds -> Json.closes rest ->
  Json.skip_digits (ds ++ rest) = rest.
Proof.
  intros Hds (rest' & [-> | ->]); induction Hds as [|c ds Hc _ IH];
    simpl; try done; by rewrite Hc.
Qed.

Lemma number_unsigned c ds rest :
  is_digit c = true -> Forall (fun c => is_digit c = true) ds -> Json.closes rest ->
  N.eqb c 48 = false \/ ds = [] ->
  Json.number (c :: ds ++ rest) = Some rest.
Proof.
  intros Hc Hds Hrest Hlead. unfold Json.number.
  assert (H45 : N.eqb c 45 = false).
  { unfold is_digit in Hc. apply andb_prop in Hc as [Hc _].
    apply N.leb_le in Hc. apply N.eqb_neq. lia. }
  rewrite H45.
  assert (Hint : match c :: ds ++ rest with
                 | c0 :: s' => if N.eqb c0 48 then Some s' else Json.digits (c :: ds ++ rest)
                 | [] => None
                 end = Some rest).
  { destruct (N.eqb c 48) eqn:H48.
    - destruct Hlead as [Hl | ->]; [done|]. reflexivity.
    - unfold Json.digits. rewrite Hc. by rewrite skip_digits_app. }
  rewrite Hint. destruct Hrest as (rest' & [-> | ->]); reflexivity.
Qed.

Lemma number_of_Z z rest :
  Json.closes rest -> Json.number (of_Z z ++ rest) = Some rest.
Proof.
  intros Hrest. unfold of_Z. destruct z as [|p|p]; simpl Z.to_int.
  - apply (number_unsigned 48 []); auto.
  - destruct (of_uint_to_uint p) as (c & ds & Hp & Hc & H48).
    pose proof (of_uint_digits (Pos.to_uint p)) as Hds. rewrite Hp in Hds |- *.
    apply Forall_cons in Hds as [_ Hds]. apply number_unsigned; auto.
  - destruct (of_uint_to_uint p) as (c & ds & Hp & Hc & H48).
    pose proof (of_uint_digits (Pos.to_uint p)) as Hds. rewrite Hp in Hds |- *.
    apply Forall_cons in Hds as [_ Hds].
    rewrite <- (number_unsigned c ds rest) by auto.
    unfold Json.number. cbn [app]. change (N.eqb 45 45) with true.
    assert (H45 : N.eqb c 45 = false).
    { unfold is_digit in Hc. apply andb_prop in Hc as [Hc _].
      apply N.leb_le in Hc. apply N.eqb_neq. lia. }
    by rewrite H45.
Qed.

(** The first character of the rendering of an int. *)
Lemma of_Z_head z :
  exists c t, of_Z z = c :: t /\ (is_digit c = true \/ c = 45%N).
Proof.
  unfold of_Z. destruct z as [|p|p]; simpl Z.to_int.
  - eexists _, _. split; [reflexivity|]. by left.
  - destruct (of_uint_to_uint p) as (c & ds & -> & Hc & _). eauto.
  - eexists _, _. split; [reflexivity|]. by right.
Qed.

Lemma value_number c t rest fuel :
  is_digit c = true \/ c = 45%N ->
  Json.value (S fuel) (c :: t ++ rest) = Json.number (c :: t ++ rest).
Proof.
  intros Hc. cbn [Json.value].
  assert (forall k, (57 < k)%N \/ (k < 45)%N -> N.eqb c k = false) as Hne.
  { intros k Hk. apply N.eqb_neq. destruct Hc as [Hc | ->]; [|lia].
    unfold is_digit in Hc. apply andb_prop in Hc as [H1 H2].
    apply N.leb_le in H1, H2. lia. }
  by rewrite !Hne by lia.
Qed.

(** A plain value is rendered as a JSON value, and the recogniser stops
    after it. *)
Lemma value_plain v t rest fuel :
  plain v -> dumps_value v = Some t -> Json.closes rest ->
  Json.value (S fuel) (t ++ rest) = Some rest
  /\ Json.skip_ws (t ++ rest) = t ++ rest.
Proof.
  intros Hv Ht Hrest. destruct v as [| |[|]|z| |s| | |]; try done;
    simpl in Ht; injection Ht as <-; try (split; reflexivity).
  - destruct (of_Z_head z) as (c & t & Hz & Hc).
    pose proof (number_of_Z z rest Hrest) as Hnum. rewrite Hz in Hnum |- *.
    split.
    + cbn [app]. by rewrite value_number.
    + cbn [app Json.skip_ws].
      assert (Json.is_ws c = false) as ->; [|done].
      unfold Json.is_ws. destruct Hc as [Hc | ->]; [|reflexivity].
      unfold is_digit in Hc. apply andb_prop in Hc as [H1 H2].
      apply N.leb_le in H1, H2.
      repeat (apply orb_false_intro); apply N.eqb_neq; lia.
  - split; [apply dumps_str_json|reflexivity].
Qed.

Lemma members_unfold fuel c r :
  Json.members (S fuel) (c :: r)
  = if N.eqb c 34 then
      r ← Json.string_body r;
      match Json.skip_ws r with
      | c' :: r' =>
          if N.eqb c' 58 then
            r ← Json.value fuel (Json.skip_ws r');
            match Json.skip_ws r with
            | c'' :: r'' =>
                if N.eqb c'' 44 then Json.members fuel (Json.skip_ws r'')
                else if N.eqb c'' 125 then Some r''
                else None
            | [] => None
            end
          else None
      | [] => None
      end
    else None.
Proof. reflexivity. Qed.

(** One member of an object, and what comes after it. *)
Lemma members_step k t more fuel :
  Json.value fuel (t ++ more) = Some more ->
  Json.skip_ws (t ++ more) = t ++ more ->
  Json.members (S fuel) (dumps_str k ++ txt ": " ++ t ++ more)
  = match Json.skip_ws more with
    | c :: r =>
        if N.eqb c 44 then Json.members fuel (Json.skip_ws r)
        else if N.eqb c 125 then Some r else None
    | [] => None
    end.
Proof.
  intros Hval Hws. unfold dumps_str. rewrite <- !app_assoc.
  change (txt ": ") with [58%N; 32%N].
  cbn [app]. rewrite members_unfold. change (N.eqb 34 34) with true. cbn iota.
  rewrite (string_body_dumps_str k (58%N :: 32%N :: t ++ more)).
  cbn [mbind option_bind Json.skip_ws].
  change (Json.is_ws 58) with false. change (Json.is_ws 32) with true.
  cbn iota. change (N.eqb 58 58) with true. cbn iota.
  change (Json.skip_ws (32%N :: t ++ more)) with (Json.skip_ws (t ++ more)).
  rewrite Hws, Hval. reflexivity.
Qed.

Lemma dumps_item_head kv item :
  dumps_item kv = Some item -> exists t, item = 34%N :: t.
Proof.
  unfold dumps_item. destruct (dumps_value kv.2); [|done]. simpl.
  intros [= <-]. unfold dumps_str. eauto.
Qed.

(** The members of a row of plain values, up to the closing brace. *)
Lemma members_items (d : list (text * value)) :
  forall items rest (fuel : nat),
  Forall (fun kv => plain kv.2) d ->
  Forall2 (fun kv item => dumps_item kv = Some item) d items -> d <> [] ->
  (length d < fuel)%nat ->
  Json.members fuel (join (txt ", ") items ++ [125%N] ++ rest) = Some rest.
Proof.
  induction d as [|kv d IH]; intros items rest fuel Hplain Hitems Hne Hfuel;
    [done|].
  apply Forall_cons in Hplain as [Hkv Hplain].
  apply Forall2_cons_inv_l in Hitems as (item & items' & Hitem & Hd & ->).
  unfold dumps_item in Hitem.
  destruct (dumps_value kv.2) as [t|] eqn:Ht; [|done].
  cbn [mbind option_bind] in Hitem.
  assert (item = dumps_str kv.1 ++ txt ": " ++ t) as -> by congruence.
  clear Hitem.
  destruct fuel as [|[|fuel]]; [simpl in Hfuel; lia| |].
  { simpl in Hfuel. destruct d; simpl in Hfuel; [lia|lia]. }
  destruct d as [|kv2 d].
  - apply Forall2_nil_inv_l in Hd as ->. cbn [join].
    rewrite <- !app_assoc.
    destruct (value_plain kv.2 t ([125%N] ++ rest) fuel Hkv Ht) as [Hval Hws];
      [eexists; by right|].
    rewrite (members_step _ _ _ (S fuel) Hval Hws). reflexivity.
  - pose proof Hd as Hd'.
    apply Forall2_cons_inv_l in Hd' as (item2 & items2 & Hitem2 & _ & ->).
    change (join (txt ", ") ((dumps_str kv.1 ++ txt ": " ++ t) :: item2 :: items2))
      with ((dumps_str kv.1 ++ txt ": " ++ t) ++ txt ", "
            ++ join (txt ", ") (item2 :: items2)).
    rewrite <- !app_assoc.
    set (more := txt ", " ++ join (txt ", ") (item2 :: items2) ++ [125%N] ++ rest).
    destruct (value_plain kv.2 t more fuel Hkv Ht) as [Hval Hws];
      [eexists; by left|].
    rewrite (members_step _ _ _ (S fuel) Hval Hws). unfold more.
    change (txt ", ") with [44%N; 32%N]. cbn [app Json.skip_ws].
    change (Json.is_ws 44) with false.
    change (Json.is_ws 32) with true. cbn iota.
    change (N.eqb 44 44) with true. cbn iota.
    assert (Hhead : exists t2, join [44%N; 32%N] (item2 :: items2) = 34%N :: t2).
    { destruct (dumps_item_head _ _ Hitem2) as (t2 & ->).
      destruct items2; simpl; eauto. }
    destruct Hhead as (t2 & Hhead).
    assert (Hskip : Json.skip_ws (join [44%N; 32%N] (item2 :: items2) ++ 125%N :: rest)
                    = join [44%N; 32%N] (item2 :: items2) ++ 125%N :: rest).
    { rewrite Hhead. reflexivity. }
    change (Json.skip_ws (32%N :: join [44%N; 32%N] (item2 :: items2) ++ 125%N :: rest))
      with (Json.skip_ws (join [44%N; 32%N] (item2 :: items2) ++ 125%N :: rest)).
    rewrite Hskip.
    apply (IH (item2 :: items2) rest (S fuel)); [done|done|done|].
    simpl in Hfuel |- *. lia.
Qed.

(** Setting keys of a dictionary of plain values to plain values. *)
Lemma to_dict_plain (r : list (text * value)) :
  Forall (fun kv => plain kv.2) r -> Forall (fun kv => plain kv.2) (to_dict r).
Proof.
  unfold to_dict.
  assert (forall d, Forall (fun kv : text * value => plain kv.2) d ->
                    Forall (fun kv => plain kv.2) r ->
                    Forall (fun kv => plain kv.2)
                      (foldl (fun d kv => dict_set d kv.1 kv.2) d r)) as H.
  { induction r as [|[k v] r IH]; intros d Hd Hr; simpl; [done|].
    apply Forall_cons in Hr as [Hv Hr]. apply IH; [|done].
    clear IH Hr. induction Hd as [|[k0 v0] d H0 Hd IHd]; simpl.
    - by constructor.
    - destruct (decide (k0 = k)); constructor; auto. }
  intros Hr. by apply H.
Qed.

Lemma dumps_plain (d : list (text * value)) :
  Forall (fun kv => plain kv.2) d -> exists items, mapM dumps_item d = Some items.
Proof.
  intros Hd. apply (mapM_is_Some_2 dumps_item). eapply Forall_impl; [exact Hd|].
  intros [k v] Hv. unfold dumps_item. simpl in *.
  destruct v as [| |[|]| | | | | |]; try done; simpl; eauto.
Qed.

Lemma length_join_items (items : list text) :
  (length items <= S (length (join (txt ", ") items)))%nat.
Proof.
  induction items as [|x items IH]; [simpl; lia|].
  destruct items as [|y items]; [simpl; lia|].
  change (join (txt ", ") (x :: y :: items))
    with (x ++ txt ", " ++ join (txt ", ") (y :: items)).
  rewrite !length_app. change (length (txt ", ")) with 2%nat.
  simpl length in IH |- *. lia.
Qed.

(** *** No line feed inside a line *)

Lemma hex_digit_not_lf d : hex_digit d <> 10%N.
Proof.
  unfold hex_digit. pose proof (Z.mod_pos_bound d 16 ltac:(lia)).
  destruct (Z.ltb_spec (d mod 16) 10); lia.
Qed.

Ltac closed_no_lf := apply (bool_decide_unpack _); vm_compute; exact I.

Lemma escape_no_lf c : 10%N ∉ escape c.
Proof.
  unfold escape.
  destruct (N.eqb c 34); [closed_no_lf|].
  destruct (N.eqb c 92); [closed_no_lf|].
  destruct (N.eqb_spec c 10) as [|H10]; [closed_no_lf|].
  destruct (N.eqb c 13); [closed_no_lf|].
  destruct (N.eqb c 9); [closed_no_lf|].
  destruct (N.eqb c 8); [closed_no_lf|].
  destruct (N.eqb c 12); [closed_no_lf|].
  destruct (N.ltb c 32).
  - change (txt "\u00") with [92%N; 117%N; 48%N; 48%N]. cbn [app].
    pose proof (hex_digit_not_lf (Z.of_N c / 16)).
    pose proof (hex_digit_not_lf (Z.of_N c)).
    rewrite !not_elem_of_cons. repeat split; try done. apply not_elem_of_nil.
  - rewrite not_elem_of_cons. split; [done|apply not_elem_of_nil].
Qed.

Lemma dumps_str_no_lf s : 10%N ∉ dumps_str s.
Proof.
  unfold dumps_str. rewrite !not_elem_of_app. split; [closed_no_lf|].
  split; [|closed_no_lf].
  induction s as [|c s IH]; [apply not_elem_of_nil|].
  rewrite fmap_cons. cbn [mjoin list_join]. rewrite not_elem_of_app.
  split; [apply escape_no_lf|done].
Qed.

Lemma of_Z_no_lf z : 10%N ∉ of_Z z.
Proof.
  assert (forall u, 10%N ∉ of_uint u) as Hu.
  { intros u. pose proof (of_uint_digits u) as Hd.
    intros Hin. rewrite Forall_forall in Hd. by specialize (Hd _ Hin). }
  unfold of_Z. destruct (Z.to_int z); [apply Hu|].
  rewrite not_elem_of_cons. split; [done|apply Hu].
Qed.

Lemma dumps_value_no_lf v t :
  plain v -> dumps_value v = Some t -> 10%N ∉ t.
Proof.
  destruct v as [| |[|]|z| |s| | |]; try done; simpl; intros _ [= <-];
    try (closed_no_lf).
  - apply of_Z_no_lf.
  - apply dumps_str_no_lf.
Qed.

Lemma join_no_lf (items : list text) :
  Forall (fun item => 10%N ∉ item) items -> 10%N ∉ join (txt ", ") items.
Proof.
  induction 1 as [|x items Hx Hitems IH]; [apply not_elem_of_nil|].
  destruct items as [|y items]; [done|].
  change (join (txt ", ") (x :: y :: items))
    with (x ++ txt ", " ++ join (txt ", ") (y :: items)).
  rewrite !not_elem_of_app. split; [done|]. split; [closed_no_lf|done].
Qed.

Lemma dumps_no_lf (d : list (text * value)) line :
  Forall (fun kv => plain kv.2) d -> dumps d = Some line -> 10%N ∉ line.
Proof.
  intros Hd. unfold dumps.
  destruct (mapM dumps_item d) as [items|] eqn:Hitems; [|done].
  cbn [mbind option_bind]. intros Hline.
  assert (line = txt "{" ++ join (txt ", ") items ++ txt "}") as -> by congruence.
  rewrite !not_elem_of_app. split; [closed_no_lf|]. split; [|closed_no_lf].
  apply join_no_lf. apply mapM_Some_1 in Hitems.
  induction Hitems as [|kv item d items Hkv _ IH]; [done|].
  apply Forall_cons in Hd as [Hp Hd]. constructor; [|by apply IH].
  unfold dumps_item in Hkv.
  destruct (dumps_value kv.2) as [t|] eqn:Ht; [|done].
  cbn [mbind option_bind] in Hkv.
  assert (item = dumps_str kv.1 ++ txt ": " ++ t) as -> by congruence.
  rewrite !not_elem_of_app. split; [apply dumps_str_no_lf|].
  split; [closed_no_lf|]. by eapply dumps_value_no_lf.
Qed.

End PlainRows.

(** X10. A row whose cells are null, booleans, ints or strings is written by
    [json.dumps] as a well-formed JSON object that holds no line feed,
    whatever characters the strings and the labels hold: it is one line of
    NDJSON. *)
Theorem dumps_plain_json `{L : Lib} (r : list (text * value)) :
  Forall (fun kv => plain kv.2) r ->
  exists line, dumps (to_dict r) = Some line
               /\ Json.is_object line = true /\ 10%N ∉ line.
Proof.
  intros Hr. apply to_dict_plain in Hr.
  destruct (dumps_plain _ Hr) as (items & Hitems).
  assert (Hlf : forall line, dumps (to_dict r) = Some line -> 10%N ∉ line)
    by (intros line; by apply dumps_no_lf).
  unfold dumps in Hlf |- *. rewrite Hitems in Hlf |- *.
  cbn [mbind option_bind] in Hlf |- *.
  eexists. split; [reflexivity|]. split; [|by apply Hlf].
  pose proof (length_mapM _ _ _ Hitems) as Hlen.
  apply mapM_Some_1 in Hitems.
  unfold Json.is_object. change (txt "{") with [123%N]. change (txt "}") with [125%N].
  cbn [app]. change (N.eqb 123 123) with true. cbn [andb].
  set (line := 123%N :: join (txt ", ") items ++ [125%N]).
  assert (Hfuel : (2 * length line + 2 = S (S (2 * length line)))%nat) by lia.
  rewrite Hfuel. unfold line at 2. cbn [Json.value].
  change (N.eqb 123 123) with true. cbn iota.
  destruct (to_dict r) as [|kv d] eqn:Hd.
  - apply Forall2_nil_inv_l in Hitems as ->. reflexivity.
  - assert (Hlt : (length (kv :: d) < S (2 * length line))%nat).
    { rewrite Hlen. pose proof (length_join_items items).
      unfold line. simpl. rewrite length_app. simpl. lia. }
    pose proof (members_items (kv :: d) items [] (S (2 * length line)) Hr Hitems
                  ltac:(done) Hlt) as Hmem.
    assert (Hhead : exists t, join (txt ", ") items ++ [125%N] = 34%N :: t).
    { apply Forall2_cons_inv_l in Hitems as (i1 & l & H1 & _ & ->).
      destruct (dumps_item_head _ _ H1) as (t1 & ->).
      destruct l; simpl; eauto. }
    destruct Hhead as (t & Hhead).
    change ([125%N] ++ []) with [125%N] in Hmem. rewrite Hhead in Hmem |- *.
    cbn [Json.skip_ws]. change (Json.is_ws 34) with false. cbn iota.
    change (N.eqb 34 125) with false. cbn iota.
    by rewrite Hmem.
Qed.

Section SerializerMoreExamples.
#[local] Existing Instance RefLib.lib.
#[local] Existing Instance RefLib.parsers.

Lemma export_to_ndjson_row_lines_witness :
  exists lines,
    length lines = 2%nat
    /\ mjoin ((fun line => line ++ [10%N]) <$> lines)
       = (export_to_ndjson Examples.scenario_cast).1.
Proof.
  destruct (export_to_ndjson_row_lines Examples.scenario_cast
              (export_to_ndjson Examples.scenario_cast).1 eq_refl)
    as (lines & Hlen & _ & Hout).
  exists lines. split; [exact Hlen|]. symmetry. exact Hout.
Defined.

Lemma export_to_ndjson_cut_short_witness :
  exists (k : nat) r,
    iterrows [(txt "id", ColInt I8 [7]);
              (txt "created_at", ColDatetime [Some Examples.clock])] !! k = Some r
    /\ dumps (to_dict r) = None.
Proof.
  destruct (export_to_ndjson_cut_short
              [(txt "id", ColInt I8 [7]);
               (txt "created_at", ColDatetime [Some Examples.clock])] [] eq_refl)
    as (k & r & lines & _ & Hk & Hr & _).
  exists k, r. split; [exact Hk|exact Hr].
Defined.

Lemma dumps_plain_json_witness :
  exists line,
    dumps (to_dict [(txt "id", VInt (-7)); (txt "name", VStr (sq "a'b"));
                    (txt "note", VNone)]) = Some line
    /\ Json.is_object line = true /\ 10%N ∉ line.
Proof.
  apply dumps_plain_json. repeat constructor.
Defined.

End SerializerMoreExamples.

(** ** [limpiar_bucket] *)

Section ClearFacts.
Import Orchestrator.
Local Open Scope run_scope.
Context `{P : Parsers}.
Variable env : Env.

Lemma filter_ext_in {A} (Q1 Q2 : A -> Prop) `{!forall x, Decision (Q1 x)}
    `{!forall x, Decision (Q2 x)} (l : list A) :
  (forall x, x ∈ l -> Q1 x <-> Q2 x) -> filter Q1 l = filter Q2 l.
Proof.
  induction l as [|x l IH]; intros Hext; [done|].
  rewrite !filter_cons.
  assert (Hx : Q1 x <-> Q2 x) by (apply Hext, list_elem_of_here).
  rewrite IH by (intros y Hy; apply Hext; by apply list_elem_of_further).
  destruct (decide (Q1 x)), (decide (Q2 x)); tauto.
Qed.

Lemma filter_all_in {A} (Q : A -> Prop) `{!forall x, Decision (Q x)} (l : list A) :
  (forall x, x ∈ l -> Q x) -> filter Q l = l.
Proof.
  induction l as [|x l IH]; intros Hall; [done|].
  rewrite filter_cons, decide_True by apply Hall, list_elem_of_here.
  f_equal. apply IH. intros y Hy. by apply Hall, list_elem_of_further.
Qed.

(** The loop of deletions: it leaves the local files alone, and what it
    takes out of the bucket are objects whose key is one of the listed keys
    and ends in [.json]. *)
Lemma delete_json_effect (keys : list text) :
  forall w, exists w' o ks,
    delete_json env keys w = (w', o)
    /\ files w' = files w
    /\ Forall (fun k => endswith k (txt ".json") = true /\ k ∈ keys) ks
    /\ bucket w' = filter (fun kb => kb.1 ∉ ks) (bucket w).
Proof.
  induction keys as [|key keys IH]; intros w.
  - exists w, (Some tt), []. split; [done|]. split; [done|]. split; [done|].
    symmetry. apply filter_all_in. intros kb _. apply not_elem_of_nil.
  - cbn [delete_json]. unfold bind.
    destruct (endswith key (txt ".json")) eqn:Hjson.
    + unfold delete_object, bind, emit, guard.
      destruct (delete_object_ok env key); cbn [ret raise fst snd].
      * match goal with |- context [delete_json env keys ?w1] =>
          destruct (IH w1) as (w' & o & ks & Hrun & Hfiles & Hks & Hbucket)
        end.
        exists w', o, (key :: ks). split; [done|]. split; [done|]. split.
        { constructor; [split; [done|apply list_elem_of_here]|].
          eapply Forall_impl; [exact Hks|]. intros k [? ?].
          split; [done|by apply list_elem_of_further]. }
        rewrite Hbucket. cbn [bucket]. rewrite list_filter_filter.
        apply list_filter_iff. intros kb. rewrite not_elem_of_cons. tauto.
      * eexists _, None, []. split; [done|]. split; [done|]. split; [done|].
        cbn [bucket]. symmetry. apply filter_all_in.
        intros kb _. apply not_elem_of_nil.
    + cbn [ret]. destruct (IH w) as (w' & o & ks & Hrun & Hfiles & Hks & Hbucket).
      exists w', o, ks. split; [done|]. split; [done|]. split; [|done].
      eapply Forall_impl; [exact Hks|]. intros k [? ?].
      split; [done|by apply list_elem_of_further].
Qed.

Lemma limpiar_bucket_effect w :
  exists w' ks,
    limpiar_bucket env w = (w', Some tt)
    /\ files w' = files w
    /\ Forall (fun k => endswith k (txt ".json") = true
                        /\ k ∈ take 1000 (bucket w).*1) ks
    /\ bucket w' = filter (fun kb => kb.1 ∉ ks) (bucket w).
Proof.
  assert (Hnone : bucket w = filter (fun kb => kb.1 ∉ []) (bucket w)).
  { symmetry. apply filter_all_in. intros kb _. apply not_elem_of_nil. }
  unfold limpiar_bucket, list_objects, try, bind, emit, guard.
  destruct (client_clear env); cbn [ret raise];
    [|eexists _, []; repeat split; [constructor|exact Hnone]].
  destruct (list_objects_ok env); cbn [ret raise bucket];
    [|eexists _, []; repeat split; [constructor|exact Hnone]].
  destruct (take 1000 (bucket w).*1) as [|key page'] eqn:Hpage;
    [eexists _, []; repeat split; [constructor|exact Hnone]|].
  match goal with |- context [delete_json env _ ?w1] =>
    destruct (delete_json_effect (key :: page') w1)
      as (w' & o & ks & Hrun & Hfiles & Hks & Hbucket)
  end.
  rewrite Hrun. destruct o as [[]|]; eexists _, ks; (split; [reflexivity|]);
    cbn [files bucket]; auto.
Qed.

(** When nothing fails, every key that ends in [.json] is deleted from the
    page. *)
Lemma delete_json_ok (keys : list text) :
  (forall k, delete_object_ok env k = true) ->
  forall w, exists w',
    delete_json env keys w = (w', Some tt)
    /\ bucket w'
       = filter (fun kb => ~ (endswith kb.1 (txt ".json") = true /\ kb.1 ∈ keys))
           (bucket w).
Proof.
  intros Hok. induction keys as [|key keys IH]; intros w.
  - exists w. split; [done|]. symmetry. apply filter_all_in.
    intros kb _ [_ Hin]. by apply elem_of_nil in Hin.
  - cbn [delete_json]. unfold bind.
    destruct (endswith key (txt ".json")) eqn:Hjson.
    + unfold delete_object, bind, emit, guard. rewrite Hok. cbn [ret fst snd].
      match goal with |- context [delete_json env keys ?w1] =>
        destruct (IH w1) as (w' & Hrun & Hbucket)
      end.
      exists w'. split; [done|]. rewrite Hbucket. cbn [bucket].
      rewrite list_filter_filter. apply list_filter_iff. intros kb.
      rewrite elem_of_cons. split; [tauto|].
      intros H1. split; [tauto|].
      intros E. apply H1. split; [by rewrite E|auto].
    + cbn [ret]. destruct (IH w) as (w' & Hrun & Hbucket).
      exists w'. split; [done|]. rewrite Hbucket.
      apply list_filter_iff. intros kb. rewrite elem_of_cons. split; [|tauto].
      intros H1 [Hj [E|Hin]]; [rewrite E in Hj; congruence|]. apply H1. by split.
Qed.

Lemma limpiar_bucket_ok w :
  client_clear env = true -> list_objects_ok env = true ->
  (forall k, delete_object_ok env k = true) ->
  (length (bucket w) <= 1000)%nat ->
  bucket (limpiar_bucket env w).1
  = filter (fun kb => endswith kb.1 (txt ".json") <> true) (bucket w).
Proof.
  intros Hclient Hlist Hok Hlen.
  assert (Hall : filter (fun kb : text * text =>
                           ~ (endswith kb.1 (txt ".json") = true
                              /\ kb.1 ∈ (bucket w).*1)) (bucket w)
                 = filter (fun kb => endswith kb.1 (txt ".json") <> true) (bucket w)).
  { apply filter_ext_in. intros kb Hin. split; [|tauto].
    intros H1 Hj. apply H1. split; [done|]. by apply list_elem_of_fmap_2. }
  unfold limpiar_bucket, list_objects, try, bind, emit, guard.
  rewrite Hclient, Hlist. cbn [fst snd ret raise files bucket trace].
  rewrite take_ge by (by rewrite length_fmap).
  destruct ((bucket w).*1) as [|key keys] eqn:Hkeys.
  - cbn [fst bucket]. destruct (bucket w); [done|discriminate].
  - match goal with |- context [delete_json env _ ?w1] =>
      destruct (delete_json_ok (key :: keys) Hok w1) as (w' & Hrun & Hbucket)
    end.
    rewrite Hrun. cbn [fst bucket] in *. by rewrite Hbucket, <- Hall.
Qed.

Lemma lookup_dict_filter_out (b : list (text * text)) (Q : text * text -> Prop)
    `{!forall kb, Decision (Q kb)} key :
  (forall x, ~ Q (key, x)) -> lookup_dict (filter Q b) key = None.
Proof.
  intros Hkey. induction b as [|[k x] b IH]; [done|].
  rewrite filter_cons. destruct (decide (Q (k, x))) as [HQ|]; [|done].
  simpl. destruct (decide (k = key)) as [->|]; [by apply Hkey in HQ|auto].
Qed.

Lemma endswith_app (x suffix : text) : endswith (x ++ suffix) suffix = true.
Proof.
  unfold endswith. apply bool_decide_eq_true.
  rewrite length_app, Nat.add_sub. apply drop_app_length.
Qed.

End ClearFacts.

(** X11. [limpiar_bucket] never raises and never touches the local files;
    it adds nothing to the bucket, and every object it removes has a key that
    ends in [.json] and stands on the first page of the listing: an object
    with another suffix is never deleted. *)
Theorem limpiar_bucket_only_json `{P : Parsers} (env : Orchestrator.Env)
    (w : Orchestrator.World) :
  exists w',
    Orchestrator.limpiar_bucket env w = (w', Some tt)
    /\ Orchestrator.files w' = Orchestrator.files w
    /\ Orchestrator.bucket w' `sublist_of` Orchestrator.bucket w
    /\ forall kb, kb ∈ Orchestrator.bucket w ->
         Orchestrator.endswith kb.1 (txt ".json") = false
         \/ kb.1 ∉ take 1000 (Orchestrator.bucket w).*1 ->
         kb ∈ Orchestrator.bucket w'.
Proof.
  destruct (limpiar_bucket_effect env w) as (w' & ks & Hrun & Hfiles & Hks & Hb).
  exists w'. split; [done|]. split; [done|]. rewrite Hb. split.
  - apply sublist_filter.
  - intros kb Hin Hkeep. apply list_elem_of_filter. split; [|done].
    intros Hk. rewrite Forall_forall in Hks. destruct (Hks _ Hk) as [Hj Hpage].
    destruct Hkeep as [Hkeep|Hkeep]; [congruence|done].
Qed.

(** X12. When the client, the listing and every deletion go through and the
    bucket holds at most 1000 objects, [limpiar_bucket] leaves exactly the
    objects whose key does not end in [.json], in their order. *)
Theorem limpiar_bucket_clears `{P : Parsers} (env : Orchestrator.Env)
    (w : Orchestrator.World) :
  Orchestrator.client_clear env = true ->
  Orchestrator.list_objects_ok env = true ->
  (forall k, Orchestrator.delete_object_ok env k = true) ->
  (length (Orchestrator.bucket w) <= 1000)%nat ->
  Orchestrator.bucket (Orchestrator.limpiar_bucket env w).1
  = filter (fun kb => Orchestrator.endswith kb.1 (txt ".json") <> true)
      (Orchestrator.bucket w).
Proof. apply limpiar_bucket_ok. Qed.

(** X13. What a run publishes the next run clears: the key
    [subir_a_s3_json] makes for a table ends in [.json], so a
    [limpiar_bucket] that goes through on a bucket of at most 1000 objects
    leaves no object under it. *)
Theorem published_key_cleared `{P : Parsers} (cfg : Orchestrator.Config)
    (env : Orchestrator.Env) table t key (w : Orchestrator.World) :
  Orchestrator.s3_key cfg table t = Some key ->
  Orchestrator.client_clear env = true ->
  Orchestrator.list_objects_ok env = true ->
  (forall k, Orchestrator.delete_object_ok env k = true) ->
  (length (Orchestrator.bucket w) <= 1000)%nat ->
  Orchestrator.endswith key (txt ".json") = true
  /\ Orchestrator.lookup_dict
       (Orchestrator.bucket (Orchestrator.limpiar_bucket env w).1) key = None.
Proof.
  intros Hkey Hclient Hlist Hok Hlen.
  assert (Hjson : Orchestrator.endswith key (txt ".json") = true).
  { unfold Orchestrator.s3_key in Hkey.
    destruct (Orchestrator.lookup_dict _ table) as [folder|]; [|done].
    cbn [mbind option_bind] in Hkey.
    assert (key = (folder ++ table ++ txt "_" ++ Orchestrator.strftime_compact t)
                  ++ txt ".json") as ->
      by (rewrite <- !app_assoc; congruence).
    apply endswith_app. }
  split; [done|]. rewrite limpiar_bucket_ok by done.
  apply lookup_dict_filter_out. by intros x H.
Qed.

(** ** The turn of a table and the run *)

Section TurnFacts.
Import Orchestrator.
Context `{P : Parsers}.
Variable cfg : Config.
Variable env : Env.

(** The files and the bucket a turn leaves, by the stage that raises. *)
Lemma export_table_effect table w :
  let filename := table ++ txt ".json" in
  let w' := (export_table cfg env table w).1 in
  match read_sql env table with
  | None => files w' = files w /\ bucket w' = bucket w
  | Some df =>
      if empty df then files w' = files w /\ bucket w' = bucket w
      else
        match cast_types (clean_dataframe df)
                (default [] (lookup_dict (SCHEMAS cfg) table)) with
        | None => files w' = files w /\ bucket w' = bucket w
        | Some df' =>
            let body := (export_to_ndjson df').1 in
            if (export_to_ndjson df').2 && client_publish env table then
              match s3_key cfg table (now env table) with
              | Some key =>
                  files w' = delete filename (<[filename := body]> (files w))
                  /\ bucket w'
                     = if upload_file_ok env key
                       then put_object (bucket w) key body else bucket w
              | None =>
                  files w' = <[filename := body]> (files w) /\ bucket w' = bucket w
              end
            else files w' = <[filename := body]> (files w) /\ bucket w' = bucket w
        end
  end.
Proof.
  unfold export_table, obtener_datos_tabla, try, bind, emit, lift.
  simpl.
  destruct (read_sql env table) as [df|]; simpl; [|done].
  destruct (empty df); simpl; [done|].
  destruct (cast_types _ _) as [df'|]; simpl; [|done].
  unfold write_file, bind, emit. simpl.
  destruct (export_to_ndjson df') as [body ok]. simpl.
  destruct ok; simpl; [|done].
  unfold subir_a_s3_json, bind, guard, lift, try. simpl.
  destruct (client_publish env table); simpl; [|done].
  destruct (s3_key cfg table (now env table)) as [key|]; simpl; [|done].
  unfold upload_file, bind, guard, emit. simpl.
  destruct (upload_file_ok env key); simpl;
    rewrite ?lookup_insert_eq; simpl;
    unfold os_remove, bind, emit; simpl;
    by rewrite !lookup_insert_eq.
Qed.

Lemma lookup_put_object_ne (b : list (text * text)) key body k :
  k <> key -> lookup_dict (put_object b key body) k = lookup_dict b k.
Proof.
  intros Hne. induction b as [|[k0 x] b IH]; simpl.
  - by rewrite decide_False.
  - destruct (decide (k0 = key)) as [->|Hk0]; simpl.
    + by rewrite !decide_False.
    + destruct (decide (k0 = k)); [done|exact IH].
Qed.

Lemma lookup_put_object_is_Some (b : list (text * text)) key body k :
  is_Some (lookup_dict b k) -> is_Some (lookup_dict (put_object b key body) k).
Proof.
  destruct (decide (k = key)) as [->|Hne].
  - by rewrite lookup_put_object.
  - by rewrite lookup_put_object_ne.
Qed.

Lemma lookup_dict_filter_in (b : list (text * text)) (Q : text * text -> Prop)
    `{!forall kb, Decision (Q kb)} key :
  (forall x, Q (key, x)) -> lookup_dict (filter Q b) key = lookup_dict b key.
Proof.
  intros Hkey. induction b as [|[k x] b IH]; [done|].
  rewrite filter_cons. destruct (decide (Q (k, x))) as [HQ|HQ]; simpl.
  - destruct (decide (k = key)); [done|exact IH].
  - rewrite decide_False; [exact IH|]. intros ->. apply HQ, Hkey.
Qed.

Lemma s3_key_endswith table t key :
  s3_key cfg table t = Some key -> endswith key (txt ".json") = true.
Proof.
  unfold s3_key. intros Hkey.
  destruct (lookup_dict _ table) as [folder|]; [|done].
  cbn [mbind option_bind] in Hkey.
  assert (key = (folder ++ table ++ txt "_" ++ strftime_compact t)
                ++ txt ".json") as ->
    by (rewrite <- !app_assoc; congruence).
  apply endswith_app.
Qed.

(** A turn leaves every local file but the table's own as it was. *)
Lemma export_table_other_files table w f :
  f <> table ++ txt ".json" ->
  files (export_table cfg env table w).1 !! f = files w !! f.
Proof.
  intros Hf. pose proof (export_table_effect table w) as Heff. cbv zeta in Heff.
  destruct (read_sql env table) as [df|]; [|by destruct Heff as [-> _]].
  destruct (empty df); [by destruct Heff as [-> _]|].
  destruct (cast_types _ _) as [df'|]; [|by destruct Heff as [-> _]].
  destruct (_ && _);
    [destruct (s3_key cfg table (now env table)) as [key|]|];
    destruct Heff as [-> _];
    by rewrite ?lookup_delete_ne, lookup_insert_ne.
Qed.

(** A turn changes the bucket under the key it publishes at most. *)
Lemma export_table_other_objects table w k :
  s3_key cfg table (now env table) <> Some k ->
  lookup_dict (bucket (export_table cfg env table w).1) k = lookup_dict (bucket w) k.
Proof.
  intros Hk. pose proof (export_table_effect table w) as Heff. cbv zeta in Heff.
  destruct (read_sql env table) as [df|]; [|by destruct Heff as [_ ->]].
  destruct (empty df); [by destruct Heff as [_ ->]|].
  destruct (cast_types _ _) as [df'|]; [|by destruct Heff as [_ ->]].
  destruct (_ && _);
    [destruct (s3_key cfg table (now env table)) as [key|]|];
    destruct Heff as [_ ->]; [|done..].
  destruct (upload_file_ok env key); [|done].
  apply lookup_put_object_ne. congruence.
Qed.

(** A turn removes no object. *)
Lemma export_table_keeps_objects table w k :
  is_Some (lookup_dict (bucket w) k) ->
  is_Some (lookup_dict (bucket (export_table cfg env table w).1) k).
Proof.
  intros Hk. pose proof (export_table_effect table w) as Heff. cbv zeta in Heff.
  destruct (read_sql env table) as [df|]; [|by destruct Heff as [_ ->]].
  destruct (empty df); [by destruct Heff as [_ ->]|].
  destruct (cast_types _ _) as [df'|]; [|by destruct Heff as [_ ->]].
  destruct (_ && _);
    [destruct (s3_key cfg table (now env table)) as [key|]|];
    destruct Heff as [_ ->]; [|done..].
  destruct (upload_file_ok env key); [|done].
  by apply lookup_put_object_is_Some.
Qed.

(** What every turn keeps, the loop keeps. *)
Lemma export_tables_keeps (R : World -> World -> Prop) tables :
  (forall w, R w w) ->
  (forall w1 w2 w3, R w1 w2 -> R w2 w3 -> R w1 w3) ->
  (forall table w, table ∈ tables.*1 -> R w (export_table cfg env table w).1) ->
  forall w, R w (export_tables cfg env tables w).1.
Proof.
  intros Hrefl Htrans. induction tables as [|[table folder] tables IH];
    intros Hturn w; [apply Hrefl|].
  cbn [export_tables]. unfold bind.
  pose proof (Hturn table w (list_elem_of_here _ _)) as Hstep.
  destruct (returns_export_table cfg env table w) as (w1 & [] & Hw1).
  rewrite Hw1 in Hstep |- *. apply (Htrans _ w1); [exact Hstep|].
  apply IH. intros t w2 Hin. apply Hturn. by apply list_elem_of_further.
Qed.

Lemma export_tables_other_files tables w f :
  f ∉ (fun tf : text * text => tf.1 ++ txt ".json") <$> tables ->
  files (export_tables cfg env tables w).1 !! f = files w !! f.
Proof.
  intros Hf.
  apply (export_tables_keeps (fun w1 w2 => files w2 !! f = files w1 !! f));
    [done|intros ??? H1 H2; by rewrite H2|].
  intros table w1 Hin. apply export_table_other_files. intros ->. apply Hf.
  apply list_elem_of_fmap in Hin as ([t folder] & -> & Hin).
  by apply (list_elem_of_fmap_2 (fun tf : text * text => tf.1 ++ txt ".json")
              _ (t, folder)).
Qed.

Lemma export_tables_other_objects tables w k :
  endswith k (txt ".json") = false ->
  lookup_dict (bucket (export_tables cfg env tables w).1) k = lookup_dict (bucket w) k.
Proof.
  intros Hk.
  apply (export_tables_keeps
           (fun w1 w2 => lookup_dict (bucket w2) k = lookup_dict (bucket w1) k));
    [done|intros ??? H1 H2; by rewrite H2|].
  intros table w1 _. apply export_table_other_objects. intros Hkey.
  apply s3_key_endswith in Hkey. congruence.
Qed.

Lemma export_tables_keeps_objects tables w k :
  is_Some (lookup_dict (bucket w) k) ->
  is_Some (lookup_dict (bucket (export_tables cfg env tables w).1) k).
Proof.
  revert w.
  apply (export_tables_keeps
           (fun w1 w2 => is_Some (lookup_dict (bucket w1) k) ->
                         is_Some (lookup_dict (bucket w2) k)));
    [done|intros ??? H1 H2 ?; by apply H2, H1|].
  intros table w1 _. apply export_table_keeps_objects.
Qed.

Lemma export_tables_app tables1 tables2 w :
  (export_tables cfg env (tables1 ++ tables2) w).1
  = (export_tables cfg env tables2 (export_tables cfg env tables1 w).1).1.
Proof.
  revert w. induction tables1 as [|[table folder] tables1 IH]; intros w; [done|].
  cbn [app export_tables]. unfold bind.
  destruct (returns_export_table cfg env table w) as (w1 & [] & ->). apply IH.
Qed.

(** The turn of a table whose stages and upload go through. *)
Lemma export_table_done table df df' body key w :
  read_sql env table = Some df -> empty df = false ->
  cast_types (clean_dataframe df) (default [] (lookup_dict (SCHEMAS cfg) table))
  = Some df' ->
  export_to_ndjson df' = (body, true) ->
  client_publish env table = true ->
  s3_key cfg table (now env table) = Some key ->
  upload_file_ok env key = true ->
  files (export_table cfg env table w).1
  = delete (table ++ txt ".json") (<[table ++ txt ".json" := body]> (files w))
  /\ bucket (export_table cfg env table w).1 = put_object (bucket w) key body.
Proof.
  intros Hread Hempty Hcast Hexport Hclient Hkey Hup.
  pose proof (export_table_effect table w) as Heff. cbv zeta in Heff.
  by rewrite Hread, Hempty, Hcast, Hexport, Hclient, Hkey, Hup in Heff.
Qed.

Lemma export_tables_other_keys tables w k :
  (forall t, t ∈ tables.*1 -> s3_key cfg t (now env t) <> Some k) ->
  lookup_dict (bucket (export_tables cfg env tables w).1) k = lookup_dict (bucket w) k.
Proof.
  intros Hk.
  apply (export_tables_keeps
           (fun w1 w2 => lookup_dict (bucket w2) k = lookup_dict (bucket w1) k));
    [done|intros ??? H1 H2; by rewrite H2|].
  intros table w1 Hin. by apply export_table_other_objects, Hk.
Qed.

Lemma main_run w :
  exists w0,
    limpiar_bucket env w = (w0, Some tt)
    /\ (main cfg env w).1 = (export_tables cfg env (TABLES cfg) w0).1.
Proof.
  destruct (returns_limpiar_bucket env w) as (w0 & [] & Hw0).
  exists w0. split; [done|]. unfold main, bind. by rewrite Hw0.
Qed.

End TurnFacts.

(** X14. A table whose query raises, that is empty, or whose cast raises
    leaves no file and no object: the local files and the bucket are after its
    turn what they were before. *)
Theorem export_table_nothing_written `{P : Parsers} (cfg : Orchestrator.Config)
    (env : Orchestrator.Env) table (w : Orchestrator.World) :
  (Orchestrator.read_sql env table = None
   \/ exists df, Orchestrator.read_sql env table = Some df
        /\ (empty df = true
            \/ cast_types (clean_dataframe df)
                 (default [] (Orchestrator.lookup_dict (Orchestrator.SCHEMAS cfg) table))
               = None)) ->
  Orchestrator.files (Orchestrator.export_table cfg env table w).1
  = Orchestrator.files w
  /\ Orchestrator.bucket (Orchestrator.export_table cfg env table w).1
     = Orchestrator.bucket w.
Proof.
  intros Hcase. pose proof (export_table_effect cfg env table w) as Heff.
  cbv zeta in Heff.
  destruct Hcase as [Hread|(df & Hread & Hcase)]; rewrite Hread in Heff; [done|].
  destruct (empty df); [done|].
  destruct Hcase as [Hempty|Hcast]; [done|]. by rewrite Hcast in Heff.
Qed.

(** X15. The file a turn leaves behind.  Once a table is fetched, not empty
    and cast, its file [<table>.json] is written; after the turn the file is
    gone exactly when the serialization returned, the storage client was made
    and the table is declared in [TABLES], whether the upload went through or
    not.  Otherwise the file stays, with what was written to it. *)
Theorem export_table_file_left `{P : Parsers} (cfg : Orchestrator.Config)
    (env : Orchestrator.Env) table df df' (w : Orchestrator.World) :
  Orchestrator.read_sql env table = Some df -> empty df = false ->
  cast_types (clean_dataframe df)
    (default [] (Orchestrator.lookup_dict (Orchestrator.SCHEMAS cfg) table))
  = Some df' ->
  Orchestrator.files (Orchestrator.export_table cfg env table w).1
    !! (table ++ txt ".json")
  = if (export_to_ndjson df').2 && Orchestrator.client_publish env table
       && bool_decide (is_Some (Orchestrator.lookup_dict (Orchestrator.TABLES cfg) table))
    then None else Some (export_to_ndjson df').1.
Proof.
  intros Hread Hempty Hcast.
  pose proof (export_table_effect cfg env table w) as Heff. cbv zeta in Heff.
  rewrite Hread, Hempty, Hcast in Heff.
  destruct (_ && Orchestrator.client_publish env table);
    [|destruct Heff as [-> _]; by rewrite lookup_insert_eq].
  unfold Orchestrator.s3_key in Heff.
  destruct (Orchestrator.lookup_dict (Orchestrator.TABLES cfg) table) as [folder|];
    cbn [mbind option_bind] in Heff; destruct Heff as [-> _].
  - rewrite bool_decide_eq_true_2 by by eexists. apply lookup_delete_eq.
  - rewrite bool_decide_eq_false_2 by by intros [? ?]. by rewrite lookup_insert_eq.
Qed.

(** X16. The turn of a table end to end: when the table is fetched, not
    empty, cast and serialized, the client and the key are made and the upload
    goes through, the bucket holds under the key of the table the lines written
    for the cast of the cleaned frame, the local file is gone, and every other
    object is as it was. *)
Theorem export_table_publishes `{P : Parsers} (cfg : Orchestrator.Config)
    (env : Orchestrator.Env) table df df' body key (w : Orchestrator.World) :
  Orchestrator.read_sql env table = Some df -> empty df = false ->
  cast_types (clean_dataframe df)
    (default [] (Orchestrator.lookup_dict (Orchestrator.SCHEMAS cfg) table))
  = Some df' ->
  export_to_ndjson df' = (body, true) ->
  Orchestrator.client_publish env table = true ->
  Orchestrator.s3_key cfg table (Orchestrator.now env table) = Some key ->
  Orchestrator.upload_file_ok env key = true ->
  let w' := (Orchestrator.export_table cfg env table w).1 in
  Orchestrator.lookup_dict (Orchestrator.bucket w') key = Some body
  /\ Orchestrator.files w' !! (table ++ txt ".json") = None
  /\ forall k, k <> key ->
       Orchestrator.lookup_dict (Orchestrator.bucket w') k
       = Orchestrator.lookup_dict (Orchestrator.bucket w) k.
Proof.
  intros Hread Hempty Hcast Hexport Hclient Hkey Hup w'.
  destruct (export_table_done cfg env table df df' body key w
              Hread Hempty Hcast Hexport Hclient Hkey Hup) as [Hfiles Hbucket].
  subst w'. rewrite Hfiles, Hbucket. split; [apply lookup_put_object|].
  split; [apply lookup_delete_eq|]. intros k Hk. by apply lookup_put_object_ne.
Qed.

(** X17. A run touches no local file but the files [<table>.json] of the
    declared tables: any other file is at the end of [main] what it was at the
    start. *)
Theorem main_other_files `{P : Parsers} (cfg : Orchestrator.Config)
    (env : Orchestrator.Env) (w : Orchestrator.World) f :
  f ∉ (fun tf : text * text => tf.1 ++ txt ".json") <$> Orchestrator.TABLES cfg ->
  Orchestrator.files (Orchestrator.main cfg env w).1 !! f
  = Orchestrator.files w !! f.
Proof.
  intros Hf. destruct (main_run cfg env w) as (w0 & Hclear & ->).
  rewrite export_tables_other_files by done.
  destruct (limpiar_bucket_effect env w) as (w1 & ks & Hrun & Hfiles & _).
  rewrite Hclear in Hrun. injection Hrun as ->. by rewrite Hfiles.
Qed.

(** X18. A run leaves alone every object whose key does not end in [.json]:
    [limpiar_bucket] does not delete it and no table is published under it. *)
Theorem main_other_objects `{P : Parsers} (cfg : Orchestrator.Config)
    (env : Orchestrator.Env) (w : Orchestrator.World) k :
  Orchestrator.endswith k (txt ".json") = false ->
  Orchestrator.lookup_dict (Orchestrator.bucket (Orchestrator.main cfg env w).1) k
  = Orchestrator.lookup_dict (Orchestrator.bucket w) k.
Proof.
  intros Hk. destruct (main_run cfg env w) as (w0 & Hclear & ->).
  rewrite export_tables_other_objects by done.
  destruct (limpiar_bucket_effect env w) as (w1 & ks & Hrun & _ & Hks & Hbucket).
  rewrite Hclear in Hrun. injection Hrun as ->. rewrite Hbucket.
  apply lookup_dict_filter_in. intros x Hin. cbn [fst] in Hin.
  rewrite Forall_forall in Hks. destruct (Hks _ Hin) as [Hjson _]. congruence.
Qed.

(** X19. What is published stays to the end of the run: the bucket is
    cleared before the first table, and no turn removes an object.  For a
    declared table whose stages and upload go through, the bucket at the end
    of [main] holds an object under the key of the table; it holds the lines
    written for the table when no later table is published under the same
    key. *)
Theorem main_publishes `{P : Parsers} (cfg : Orchestrator.Config)
    (env : Orchestrator.Env) pre table folder post df df' body key
    (w : Orchestrator.World) :
  Orchestrator.TABLES cfg = pre ++ (table, folder) :: post ->
  Orchestrator.read_sql env table = Some df -> empty df = false ->
  cast_types (clean_dataframe df)
    (default [] (Orchestrator.lookup_dict (Orchestrator.SCHEMAS cfg) table))
  = Some df' ->
  export_to_ndjson df' = (body, true) ->
  Orchestrator.client_publish env table = true ->
  Orchestrator.s3_key cfg table (Orchestrator.now env table) = Some key ->
  Orchestrator.upload_file_ok env key = true ->
  let w' := (Orchestrator.main cfg env w).1 in
  is_Some (Orchestrator.lookup_dict (Orchestrator.bucket w') key)
  /\ ((forall t, t ∈ post.*1 ->
         Orchestrator.s3_key cfg t (Orchestrator.now env t) <> Some key) ->
      Orchestrator.lookup_dict (Orchestrator.bucket w') key = Some body).
Proof.
  intros Htables Hread Hempty Hcast Hexport Hclient Hkey Hup w'. subst w'.
  destruct (main_run cfg env w) as (w0 & _ & ->).
  rewrite Htables, export_tables_app.
  set (w1 := (Orchestrator.export_tables cfg env pre w0).1).
  cbn [Orchestrator.export_tables]. unfold Orchestrator.bind.
  destruct (export_table_done cfg env table df df' body key w1
              Hread Hempty Hcast Hexport Hclient Hkey Hup) as [_ Hbucket].
  destruct (returns_export_table cfg env table w1) as (w2 & [] & Hw2).
  rewrite Hw2 in Hbucket |- *. cbn [fst] in Hbucket.
  assert (Hthere : Orchestrator.lookup_dict (Orchestrator.bucket w2) key = Some body)
    by (rewrite Hbucket; apply lookup_put_object).
  split.
  - apply export_tables_keeps_objects. by rewrite Hthere.
  - intros Hpost. by rewrite export_tables_other_keys.
Qed.

Section RunMoreExamples.
Import Orchestrator.
#[local] Existing Instance RefLib.lib.
#[local] Existing Instance RefLib.parsers.

Lemma limpiar_bucket_clears_witness :
  bucket (limpiar_bucket Examples.env_first_fails Examples.stale).1
  = [ (txt "readme.txt", txt "keep") ].
Proof.
  assert (Hlen : (length (bucket Examples.stale) <= 1000)%nat) by (simpl; lia).
  pose proof (limpiar_bucket_clears Examples.env_first_fails Examples.stale
                eq_refl eq_refl (fun _ => eq_refl) Hlen) as Hrun.
  rewrite Hrun. vm_compute. reflexivity.
Defined.

Lemma published_key_cleared_witness :
  endswith (txt "dashboard_data/dashboard_data_20240104_100000.json") (txt ".json")
  = true
  /\ lookup_dict (bucket (limpiar_bucket Examples.env_first_fails Examples.stale).1)
       (txt "dashboard_data/dashboard_data_20240104_100000.json")
     = None.
Proof.
  assert (Hlen : (length (bucket Examples.stale) <= 1000)%nat) by (simpl; lia).
  exact (published_key_cleared config Examples.env_first_fails
           (txt "dashboard_data") (Timestamp 2024 1 4 10 0 0 0)
           (txt "dashboard_data/dashboard_data_20240104_100000.json")
           Examples.stale eq_refl eq_refl eq_refl (fun _ => eq_refl) Hlen).
Defined.

Lemma export_table_nothing_written_witness :
  files (export_table config Examples.env_first_fails (txt "dashboard_data")
           Examples.stale).1
  = files Examples.stale
  /\ bucket (export_table config Examples.env_first_fails (txt "dashboard_data")
              Examples.stale).1
     = bucket Examples.stale.
Proof.
  apply export_table_nothing_written. left. reflexivity.
Defined.

Lemma export_table_file_left_witness :
  files (export_table config Examples.env_no_client (txt "dashboard_data")
           Examples.stale).1
    !! txt "dashboard_data.json"
  = Some (sq "{'id': 7}" ++ [10%N]).
Proof.
  exact (export_table_file_left config Examples.env_no_client
           (txt "dashboard_data") Examples.one_row [(txt "id", ColInt I8 [7])]
           Examples.stale eq_refl eq_refl eq_refl).
Defined.

Lemma export_table_publishes_witness :
  lookup_dict
    (bucket (export_table config Examples.env_first_fails
               (txt "dashboard_published_data") Examples.stale).1)
    (txt "dashboard_published_data/dashboard_published_data_20240105_100000.json")
  = Some (sq "{'id': 7}" ++ [10%N]).
Proof.
  exact (proj1 (export_table_publishes config Examples.env_first_fails
                  (txt "dashboard_published_data") Examples.one_row
                  [(txt "id", ColInt I8 [7])] (sq "{'id': 7}" ++ [10%N])
                  (txt "dashboard_published_data/dashboard_published_data_20240105_100000.json")
                  Examples.stale eq_refl eq_refl eq_refl eq_refl eq_refl eq_refl
                  eq_refl)).
Defined.

Lemma main_other_files_witness :
  files (main config Examples.env_first_fails Examples.stale).1 !! txt "notes.txt"
  = Some (txt "keep").
Proof.
  assert (Hf : txt "notes.txt"
               ∉ (fun tf : text * text => tf.1 ++ txt ".json") <$> TABLES config)
    by (apply (bool_decide_unpack _); vm_compute; exact I).
  rewrite (main_other_files config Examples.env_first_fails Examples.stale
             (txt "notes.txt") Hf).
  vm_compute. reflexivity.
Defined.

Lemma main_other_objects_witness :
  lookup_dict (bucket (main config Examples.env_first_fails Examples.stale).1)
    (txt "readme.txt")
  = Some (txt "keep").
Proof.
  rewrite (main_other_objects config Examples.env_first_fails Examples.stale
             (txt "readme.txt") eq_refl).
  reflexivity.
Defined.

Lemma main_publishes_witness :
  lookup_dict (bucket (main config Examples.env_first_fails Examples.stale).1)
    (txt "dashboard_published_data/dashboard_published_data_20240105_100000.json")
  = Some (sq "{'id': 7}" ++ [10%N]).
Proof.
  apply (main_publishes config Examples.env_first_fails
           [(txt "dashboard_data", txt "dashboard_data/")]
           (txt "dashboard_published_data") (txt "dashboard_published_data/") []
           Examples.one_row [(txt "id", ColInt I8 [7])] (sq "{'id': 7}" ++ [10%N])
           (txt "dashboard_published_data/dashboard_published_data_20240105_100000.json")
           Examples.stale eq_refl eq_refl eq_refl eq_refl eq_refl eq_refl eq_refl
           eq_refl).
  intros t Hin. by apply elem_of_nil in Hin.
Defined.

End RunMoreExamples.

Section ClearFailure.
Import Orchestrator.
Context `{P : Parsers}.
Variable env : Env.

(** The loop of deletions up to the first deletion that raises. *)
Lemma delete_json_raises (done : list text) key rest :
  (forall k, k ∈ done -> endswith k (txt ".json") = true ->
             delete_object_ok env k = true) ->
  endswith key (txt ".json") = true -> delete_object_ok env key = false ->
  forall w, exists w',
    delete_json env (done ++ key :: rest) w = (w', None)
    /\ files w' = files w
    /\ bucket w'
       = filter (fun kb => ~ (endswith kb.1 (txt ".json") = true /\ kb.1 ∈ done))
           (bucket w).
Proof.
  intros Hdone Hjson Hfail. induction done as [|k done IH]; intros w.
  - cbn [app delete_json]. unfold bind. rewrite Hjson.
    unfold delete_object, bind, emit, guard. rewrite Hfail. cbn [raise].
    eexists. split; [reflexivity|]. split; [done|]. cbn [bucket].
    symmetry. apply filter_all_in. intros kb _ [_ Hin]. by apply elem_of_nil in Hin.
  - assert (Hdone' : forall k', k' ∈ done -> endswith k' (txt ".json") = true ->
                                delete_object_ok env k' = true)
      by (intros k' Hin; apply Hdone; by apply list_elem_of_further).
    cbn [app delete_json]. unfold bind.
    destruct (endswith k (txt ".json")) eqn:Hk.
    + unfold delete_object, bind, emit, guard.
      rewrite (Hdone k (list_elem_of_here _ _) Hk). cbn [ret fst snd].
      match goal with |- context [delete_json env _ ?w1] =>
        destruct (IH Hdone' w1) as (w' & Hrun & Hfiles & Hbucket)
      end.
      exists w'. split; [done|]. split; [done|]. rewrite Hbucket. cbn [bucket].
      rewrite list_filter_filter. apply list_filter_iff. intros kb.
      rewrite elem_of_cons. split; [tauto|].
      intros H1. split; [tauto|].
      intros E. apply H1. split; [by rewrite E|auto].
    + cbn [ret]. destruct (IH Hdone' w) as (w' & Hrun & Hfiles & Hbucket).
      exists w'. split; [done|]. split; [done|]. rewrite Hbucket.
      apply list_filter_iff. intros kb. rewrite elem_of_cons. split; [|tauto].
      intros H1 [Hj [E|Hin]]; [rewrite E in Hj; congruence|]. apply H1. by split.
Qed.

End ClearFailure.

(** X20. A deletion that raises ends the clearing.  When the listing
    returns the keys [done ++ key :: rest], the deletions of [done] go through
    and the deletion of [key], which ends in [.json], raises, then
    [limpiar_bucket] returns after the error message, the objects of [done]
    that end in [.json] are gone, and every other object is still there, those
    of [rest] included. *)
Theorem limpiar_bucket_stops `{P : Parsers} (env : Orchestrator.Env)
    (w : Orchestrator.World) done key rest :
  Orchestrator.client_clear env = true ->
  Orchestrator.list_objects_ok env = true ->
  take 1000 (Orchestrator.bucket w).*1 = done ++ key :: rest ->
  (forall k, k ∈ done -> Orchestrator.endswith k (txt ".json") = true ->
             Orchestrator.delete_object_ok env k = true) ->
  Orchestrator.endswith key (txt ".json") = true ->
  Orchestrator.delete_object_ok env key = false ->
  exists w',
    Orchestrator.limpiar_bucket env w = (w', Some tt)
    /\ last (Orchestrator.trace w') = Some Orchestrator.SayClearError
    /\ Orchestrator.bucket w'
       = filter (fun kb => ~ (Orchestrator.endswith kb.1 (txt ".json") = true
                              /\ kb.1 ∈ done))
           (Orchestrator.bucket w).
Proof.
  intros Hclient Hlist Hpage Hdone Hjson Hfail.
  unfold Orchestrator.limpiar_bucket, Orchestrator.list_objects, Orchestrator.try,
    Orchestrator.bind, Orchestrator.emit, Orchestrator.guard.
  rewrite Hclient, Hlist.
  cbn [fst snd Orchestrator.ret Orchestrator.raise Orchestrator.files
       Orchestrator.bucket Orchestrator.trace].
  rewrite Hpage.
  generalize (delete_json_raises env done key rest Hdone Hjson Hfail).
  destruct (done ++ key :: rest) as [|k page] eqn:Hkeys;
    [by destruct done|].
  intros Hraises.
  match goal with |- context [Orchestrator.delete_json env _ ?w1] =>
    destruct (Hraises w1) as (w' & Hrun & _ & Hbucket)
  end.
  rewrite Hrun. eexists. split; [reflexivity|].
  cbn [Orchestrator.trace Orchestrator.bucket]. split; [apply last_snoc|].
  exact Hbucket.
Qed.

Section ClearFailureExamples.
Import Orchestrator.
#[local] Existing Instance RefLib.lib.
#[local] Existing Instance RefLib.parsers.

Lemma limpiar_bucket_stops_witness :
  exists w',
    limpiar_bucket Examples.env_locked Examples.three_exports = (w', Some tt)
    /\ bucket w' = [ (txt "locked/b.json", txt "{}"); (txt "c.json", txt "{}") ].
Proof.
  assert (Hdone : forall k, k ∈ [txt "a.json"] ->
                    endswith k (txt ".json") = true ->
                    delete_object_ok Examples.env_locked k = true).
  { intros k Hin _. apply list_elem_of_singleton in Hin. by rewrite Hin. }
  destruct (limpiar_bucket_stops Examples.env_locked Examples.three_exports
              [txt "a.json"] (txt "locked/b.json") [txt "c.json"]
              eq_refl eq_refl eq_refl Hdone eq_refl eq_refl)
    as (w' & Hrun & _ & Hbucket).
  exists w'. split; [exact Hrun|]. rewrite Hbucket. vm_compute. reflexivity.
Defined.

End ClearFailureExamples.
